(** * Bird intelligence system: execution gateway and report aggregation

    A shallow embedding of [scripts/social/bird-utils.js] (class [BirdUtils])
    and [scripts/social/bird-competitive-intel.js] (class
    [CompetitiveIntelligence]), followed by the properties of the
    specification that were checked against it.

    Modelling conventions.
    - JavaScript numbers are exact wherever the code computes with integers
      and with quotients that are rounded at once: integers are [Z],
      quotients are [Q], and [Math.round] is [floor (x + 1/2)].  The weighted
      sum of [assessCollaborationPotential], whose value depends on the
      rounding of its intermediate results, is computed in IEEE 754 doubles
      ([SpecFloat] at precision 53).
    - A raw post is a record whose every field may be absent ([option]); a
      field that is present has the type the data model gives it, and
      engagement counts are natural numbers.
    - An object used as a dictionary is an association list in insertion
      order; [Object.entries] lists array-index keys first, in ascending
      numeric order.  The objects that count themes, and the parsed
      configuration, are read by keys that come from the configuration or
      the command line: for them a read also finds the members of
      [Object.prototype], and a count is a number or a string ([Count.t]).
    - Paths are those of the POSIX flavour of Node's [path] module.
    - The host (child processes, [JSON.parse], [toLowerCase], the clock, the
      file system, the text of native functions and the order that the sort
      gives to entries it cannot compare) is the interface [Runtime];
      console output is not modelled. *)

From Stdlib Require Import List String Ascii Bool Arith ZArith NArith Lia.
From Stdlib Require Import QArith Qround Qminmax Qpower Lqa.
From Stdlib Require Import SpecFloat.
From Stdlib Require Import Sorted Permutation DecimalString.
Import ListNotations.

Local Open Scope string_scope.
Local Open Scope list_scope.

(** ** JavaScript strings *)

(** [s.includes(sub)] *)
Fixpoint includes (s sub : string) : bool :=
  if String.prefix sub s then true
  else match s with
       | EmptyString => false
       | String _ s' => includes s' sub
       end.

(** [l.join(sep)] *)
Definition join (sep : string) (l : list string) : string := String.concat sep l.

(** [String(n)] and the interpolation of an integer in a template literal *)
Definition String_of_Z (n : Z) : string := NilZero.string_of_int (Z.to_int n).

(** the double-quote character *)
Definition dq : string := String (ascii_of_nat 34) EmptyString.

(** [l.includes(x)] on an array of strings *)
Definition Array_includes (l : list string) (x : string) : bool :=
  existsb (String.eqb x) l.

(** [s.split(sep)[0]] for a one-character separator *)
Fixpoint split_head (sep : ascii) (s : string) : string :=
  match s with
  | EmptyString => EmptyString
  | String c s' => if Ascii.eqb c sep then EmptyString else String c (split_head sep s')
  end.

(** [s.split(sep)] for a one-character separator *)
Fixpoint split_on (sep : ascii) (s : string) : list string :=
  match s with
  | EmptyString => [EmptyString]
  | String c s' =>
      if Ascii.eqb c sep then EmptyString :: split_on sep s'
      else match split_on sep s' with
           | h :: t => String c h :: t
           | [] => [String c EmptyString]
           end
  end.

(** [s.endsWith(suffix)] for a one-character suffix *)
Fixpoint endsWith (s : string) (c : ascii) : bool :=
  match s with
  | EmptyString => false
  | String c' EmptyString => Ascii.eqb c' c
  | String _ s' => endsWith s' c
  end.

(** An ASCII instance of [toLowerCase], used in the worked examples. *)
Definition ascii_lower (c : ascii) : ascii :=
  let n := nat_of_ascii c in
  if (65 <=? n)%nat && (n <=? 90)%nat then ascii_of_nat (n + 32) else c.

Fixpoint asciiLowerCase (s : string) : string :=
  match s with
  | EmptyString => EmptyString
  | String c s' => String (ascii_lower c) (asciiLowerCase s')
  end.

(** ** Errors and completions *)

Record jsError := mkError { name : string; message : string }.

(** [new Error(msg)] *)
Definition newError (msg : string) : jsError := mkError "Error" msg.

(** calling a method on [undefined] *)
Definition undefinedMethod (method : string) : jsError :=
  mkError "TypeError"
    ("Cannot read properties of undefined (reading '" ++ method ++ "')").

Inductive completion (A : Type) : Type :=
| Normal (a : A)
| Throw (e : jsError).
Arguments Normal {A} a.
Arguments Throw {A} e.

Definition cbind {A B} (c : completion A) (k : A -> completion B) : completion B :=
  match c with
  | Normal a => k a
  | Throw e => Throw e
  end.

(** ** Dictionaries: objects used as string-keyed maps *)

Module Dict.

Definition t (V : Type) := list (string * V).

Definition empty {V} : t V := [].

(** [o[k]] *)
Fixpoint get {V} (o : t V) (k : string) : option V :=
  match o with
  | [] => None
  | (k', v) :: o' => if String.eqb k' k then Some v else get o' k
  end.

(** [o[k] = v]: an existing key keeps its position, a new key goes last *)
Fixpoint set {V} (o : t V) (k : string) (v : V) : t V :=
  match o with
  | [] => [(k, v)]
  | (k', v') :: o' =>
      if String.eqb k' k then (k', v) :: o' else (k', v') :: set o' k v
  end.

Definition is_digit (c : ascii) : bool :=
  let n := nat_of_ascii c in (48 <=? n)%nat && (n <=? 57)%nat.

Fixpoint digits_value (acc : N) (s : string) : option N :=
  match s with
  | EmptyString => Some acc
  | String c s' =>
      if is_digit c
      then digits_value (acc * 10 + N.of_nat (nat_of_ascii c - 48)) s'
      else None
  end.

(** A key is an array index when it is the canonical decimal form of an
    integer between 0 and 2^32 - 2. *)
Definition array_index (k : string) : option N :=
  match k with
  | EmptyString => None
  | String c rest =>
      if Ascii.eqb c "0" && negb (String.eqb rest EmptyString) then None
      else match digits_value 0 k with
           | Some n => if (n <=? 4294967294)%N then Some n else None
           | None => None
           end
  end.

Definition is_index {V} (kv : string * V) : bool :=
  match array_index (fst kv) with Some _ => true | None => false end.

Definition index_of {V} (kv : string * V) : N :=
  match array_index (fst kv) with Some n => n | None => 0%N end.

Fixpoint insert_index {V} (kv : string * V) (l : list (string * V)) :=
  match l with
  | [] => [kv]
  | kv' :: l' =>
      if (index_of kv <=? index_of kv')%N then kv :: l
      else kv' :: insert_index kv l'
  end.

(** [Object.entries(o)] *)
Definition entries {V} (o : t V) : list (string * V) :=
  fold_right insert_index [] (filter is_index o)
  ++ filter (fun kv => negb (is_index kv)) o.

(** [Object.keys(o)] *)
Definition keys {V} (o : t V) : list string := map fst (entries o).

End Dict.

(** ** Arrays *)

(** [l.sort(cmp)]: the sort is stable; [cmp a b <= 0] keeps [a] before [b]. *)
Fixpoint sort_insert {A} (cmp : A -> A -> Z) (x : A) (l : list A) : list A :=
  match l with
  | [] => [x]
  | y :: l' => if (cmp x y <=? 0)%Z then x :: l else y :: sort_insert cmp x l'
  end.

Definition Array_sort {A} (cmp : A -> A -> Z) (l : list A) : list A :=
  fold_right (sort_insert cmp) [] l.

(** [l.flatMap(f)] *)
Definition flatMap {A B} (f : A -> list B) (l : list A) : list B := flat_map f l.

(** ** Counters

    The value kept under a key of an object that counts is a number, or a
    string once [+] has met an operand that is not a number. *)
Module Count.

Inductive t :=
| Num (n : Z)
| Str (s : string).

(** [String(v)] *)
Definition toString (v : t) : string :=
  match v with
  | Num n => String_of_Z n
  | Str s => s
  end.

(** [a + b]: the sum of two numbers, and otherwise the concatenation of the
    two operands as strings *)
Definition plus (a b : t) : t :=
  match a, b with
  | Num x, Num y => Num (x + y)
  | _, _ => Str (toString a ++ toString b)
  end.

(** [0] and the empty string are falsy *)
Definition truthy (v : t) : bool :=
  match v with
  | Num n => negb (n =? 0)%Z
  | Str s => negb (String.eqb s "")
  end.

(** [v || 0], where [None] is [undefined] *)
Definition or_0 (v : option t) : t :=
  match v with
  | Some v => if truthy v then v else Num 0
  | None => Num 0
  end.

(** [a - b] when both are numbers.  With a string operand the difference
    goes through [ToNumber] of the string and is NaN for the strings that
    [plus] builds from the text of an inherited member: [None]. *)
Definition minus (a b : t) : option Z :=
  match a, b with
  | Num x, Num y => Some (x - y)%Z
  | _, _ => None
  end.

Definition isNum (v : t) : bool :=
  match v with
  | Num _ => true
  | Str _ => false
  end.

End Count.

(** [l.sort((a, b) => key(b) - key(a))].  When every key is a number the
    comparator is consistent and the sort, which is stable, orders the array
    by descending key.  An array of at most one element is returned as it is.
    Otherwise a key is a string, some comparison may be NaN (which the sort
    reads as 0), the comparator need not be consistent, and the order is the
    one the engine happens to produce: [engine]. *)
Definition sortDescending {A} (key : A -> Count.t) (engine : list A -> list A)
  (l : list A) : list A :=
  if forallb (fun a => Count.isNum (key a)) l
  then Array_sort (fun a b => match Count.minus (key b) (key a) with
                              | Some d => d
                              | None => 0%Z
                              end) l
  else if (List.length l <=? 1)%nat then l
  else engine l.

(** ** Numbers *)

(** [Math.round]: nearest integer, ties towards plus infinity *)
Definition Math_round (x : Q) : Z := Qfloor (x + (1 # 2)).

(** [a > b] on rationals *)
Definition Qgtb (a b : Q) : bool := negb (Qle_bool a b).

(** The value of a number: finite, an infinity, or NaN. *)
Module Number.

Inductive t (A : Type) : Type :=
| Finite (a : A)
| PosInfinity
| NegInfinity
| NaN.
Arguments Finite {A} a.
Arguments PosInfinity {A}.
Arguments NegInfinity {A}.
Arguments NaN {A}.

(** [Math.min(bound, x)] for an integer or an infinity [x] *)
Definition min (bound : Z) (x : t Z) : t Z :=
  match x with
  | Finite z => Finite (Z.min bound z)
  | PosInfinity => Finite bound
  | NegInfinity => NegInfinity
  | NaN => NaN
  end.

(** [x > bound]: false for NaN *)
Definition gtb (x : t Z) (bound : Z) : bool :=
  match x with
  | Finite z => (z >? bound)%Z
  | PosInfinity => true
  | NegInfinity | NaN => false
  end.

(** The integer that a report keeps for [x].  (NaN and the infinities are
    not integers; [assessCollaborationPotential], the one user of this
    reading, never produces them: see [clamped_round_nonneg].) *)
Definition integer (x : t Z) : Z :=
  match x with
  | Finite z => z
  | PosInfinity | NegInfinity | NaN => 0%Z
  end.

End Number.

(** IEEE 754 double precision, the arithmetic of JavaScript numbers, for the
    one computation whose result depends on the rounding of intermediate
    results: the weighted sum of [assessCollaborationPotential]. *)
Module Double.

Definition t := spec_float.

Definition prec : Z := 53.
Definition emax : Z := 1024.

(** the double of an integer *)
Definition of_Z (z : Z) : t := binary_normalize prec emax z 0 false.

(** [x * y], [x + y] and [x / y], each rounded to the nearest double, ties
    to even *)
Definition mul : t -> t -> t := SFmul prec emax.
Definition add : t -> t -> t := SFadd prec emax.
Definition div : t -> t -> t := SFdiv prec emax.

(** the literals [0.3] and [0.4]: the doubles nearest to 3/10 and 4/10 *)
Definition d0_3 : t := S754_finite false 5404319552844595 (-54).
Definition d0_4 : t := S754_finite false 7205759403792794 (-54).

(** the rational that a finite double stands for *)
Definition value (x : t) : Number.t Q :=
  match x with
  | S754_zero _ => Number.Finite 0%Q
  | S754_infinity s => if s then Number.NegInfinity else Number.PosInfinity
  | S754_nan => Number.NaN
  | S754_finite s m e =>
      Number.Finite (inject_Z (cond_Zopp s (Zpos m)) * 2 ^ e)%Q
  end.

End Double.

(** [Math.round(x)] for a double [x], whose result is an integer, an
    infinity or NaN *)
Definition Math_round_double (x : Double.t) : Number.t Z :=
  match Double.value x with
  | Number.Finite q => Number.Finite (Math_round q)
  | Number.PosInfinity => Number.PosInfinity
  | Number.NegInfinity => Number.NegInfinity
  | Number.NaN => Number.NaN
  end.

(** ** Data model *)

(** [public_metrics] of a raw post *)
Module PublicMetrics.
Record t := mk {
  like_count : option N;
  retweet_count : option N;
  reply_count : option N;
  quote_count : option N }.
End PublicMetrics.

Module User.
Record t := mk { screen_name : option string }.
End User.

(** A raw post as the external tool prints it. *)
Module Tweet.
Record t := mk {
  text : option string;
  full_text : option string;
  author_handle : option string;
  user : option User.t;
  created_at : option string;
  public_metrics : option PublicMetrics.t }.
Definition empty : t := mk None None None None None None.
End Tweet.

(** What [JSON.parse] yields on the tool's output: one object or an array. *)
Inductive json :=
| JObject (o : Tweet.t)
| JArray (items : list Tweet.t).

(** [{ likes, retweets, replies }] *)
Module Engagement.
Record t := mk { likes : Z; retweets : Z; replies : Z }.
End Engagement.

(** An element of [topTweets] of a competitor or influencer entry. *)
Module TopTweet.
Record t := mk {
  text : option string;
  engagement : Engagement.t;
  createdAt : option string }.
End TopTweet.

(** An element of [topTweets] of a trend entry. *)
Module TrendTweet.
Record t := mk {
  text : option string;
  author : option string;
  engagement : Engagement.t;
  createdAt : option string }.
End TrendTweet.

Module Theme.
Record t := mk { theme : string; frequency : Count.t }.
End Theme.

Module Collaboration.
Record t := mk { score : Z; level : string; reasoning : string }.
End Collaboration.

Module TrendStrength.
Record t := mk { score : Z; level : string }.
End TrendStrength.

Module Competitor.
Record t := mk {
  handle : string;
  tweetsAnalyzed : nat;
  topTweets : list TopTweet.t;
  averageEngagement : Engagement.t;
  contentThemes : list Theme.t }.
End Competitor.

Module Influencer.
Record t := mk {
  handle : string;
  tweetsAnalyzed : nat;
  topTweets : list TopTweet.t;
  averageEngagement : Engagement.t;
  contentThemes : list Theme.t;
  collaborationPotential : Collaboration.t }.
End Influencer.

Module Trend.
Record t := mk {
  keyword : string;
  tweetsFound : nat;
  topTweets : list TrendTweet.t;
  trendStrength : TrendStrength.t;
  contentGaps : list string }.
End Trend.

(** The three shapes of an insight, told apart by their [type] field. *)
Inductive Insight :=
| CompetitorPositioning (description actionable : string)
| CollaborationOpportunity (description : string) (targets : list string)
    (actionable : string)
| TrendOpportunity (description : string) (trends : list string)
    (actionable : string).

Definition insight_type (i : Insight) : string :=
  match i with
  | CompetitorPositioning _ _ => "competitor-positioning"
  | CollaborationOpportunity _ _ _ => "collaboration-opportunity"
  | TrendOpportunity _ _ _ => "trend-opportunity"
  end.

(** The three shapes of a recommendation, told apart by their [type] field. *)
Inductive Recommendation :=
| ContentOpportunity (content priority reasoning : string)
| EngagementStrategy (strategy priority reasoning : string)
| PostingStrategy (frequency priority reasoning : string).

Definition recommendation_type (r : Recommendation) : string :=
  match r with
  | ContentOpportunity _ _ _ => "content-opportunity"
  | EngagementStrategy _ _ _ => "engagement-strategy"
  | PostingStrategy _ _ _ => "posting-strategy"
  end.

Module Summary.
Record t := mk {
  competitorsTracked : nat;
  influencersTracked : nat;
  trendsIdentified : nat;
  insightsGenerated : nat;
  recommendationsProvided : nat }.
End Summary.

Module Report.
Record t := mk {
  brand : string;
  timestamp : string;
  competitors : list Competitor.t;
  influencers : list Influencer.t;
  trends : list Trend.t;
  insights : list Insight;
  recommendations : list Recommendation;
  summary : option Summary.t }.
End Report.

(** A brand's entry of [bird-config.json]. *)
Module Config.
Record t := mk {
  keywords : option (list string);
  competitors : option (list string);
  influencers : option (list string) }.
End Config.

(** [x || []] *)
Definition or_empty {A} (x : option (list A)) : list A :=
  match x with Some l => l | None => [] end.

(** Reading [t.public_metrics]: a raw post may carry the field; an element of
    [topTweets] is built with the keys [text], [engagement] and [createdAt]
    only, so the read yields [undefined]. *)
Class HasPublicMetrics (A : Type) := public_metrics_of : A -> option PublicMetrics.t.

#[export] Instance Tweet_public_metrics : HasPublicMetrics Tweet.t :=
  Tweet.public_metrics.

#[export] Instance TopTweet_public_metrics : HasPublicMetrics TopTweet.t :=
  fun _ => None.

(** [t.public_metrics?.field || 0] *)
Definition metric_or_0 {A} `{HasPublicMetrics A}
  (field : PublicMetrics.t -> option N) (t : A) : Z :=
  match public_metrics_of t with
  | Some pm => match field pm with Some n => Z.of_N n | None => 0%Z end
  | None => 0%Z
  end.

(** [t.text || t.full_text] *)
Definition text_or_full_text (t : Tweet.t) : option string :=
  match Tweet.text t with
  | Some s => if String.eqb s "" then Tweet.full_text t else Some s
  | None => Tweet.full_text t
  end.

(** [t.author_handle || t.user?.screen_name] *)
Definition author_of (t : Tweet.t) : option string :=
  let screen := match Tweet.user t with
                | Some u => User.screen_name u
                | None => None
                end in
  match Tweet.author_handle t with
  | Some s => if String.eqb s "" then screen else Some s
  | None => screen
  end.

(** ** Objects and their prototype

    An object made by a literal or by [JSON.parse] inherits the members of
    [Object.prototype]: a read [o[k]] that finds no own property [k] finds
    the inherited member of that name.  Every one of them is truthy: eleven
    functions and, under [__proto__], the prototype itself. *)
Definition Object_prototype : list string :=
  [ "constructor"; "__defineGetter__"; "__defineSetter__"; "hasOwnProperty";
    "__lookupGetter__"; "__lookupSetter__"; "isPrototypeOf";
    "propertyIsEnumerable"; "toString"; "valueOf"; "__proto__";
    "toLocaleString" ].

(** [k] names a member of [Object.prototype] *)
Definition inherited (k : string) : bool := Array_includes Object_prototype k.

(** What reading [bird-config.json] comes to.  When the file parses, its
    content is a JSON object; an entry of it is [None] when its value is
    falsy ([null], [false], [0] or the empty string), and otherwise carries
    what the reads of [keywords], [competitors] and [influencers] find in
    it. *)
Inductive configFile :=
| NoSuchFile
| Unreadable (error : jsError)
| Malformed (msg : string)
| Parsed (config : Dict.t (option Config.t)).

(** ** The host and the world *)

Inductive execOutcome :=
| Stdout (out : string)
| Rejected (error : jsError).

Inductive event :=
| EvExec (file : string) (args : list string)
| EvSleep (ms : Z)
| EvMkdir (dir : string)
| EvWrite (path : string) (data : Report.t).

(** [spawned] counts the child processes started so far, [clock] the reads
    of the clock; [trace] lists the effects, latest first. *)
Record World := mkWorld { spawned : nat; clock : nat; trace : list event }.

Definition world0 : World := mkWorld 0 0 [].

Class Runtime := {
  (** [String.prototype.toLowerCase] *)
  toLowerCase : string -> string;
  (** [JSON.parse]: the parsed value, or the message of the SyntaxError *)
  JSON_parse : string -> string + json;
  (** what the n-th child process does, given the file and its arguments *)
  child_process : nat -> string -> list string -> execOutcome;
  (** [__dirname] of the scripts *)
  dirname : string;
  (** [bird-config.json] next to the scripts: whether [fs.existsSync] finds
      it, whether [fs.readFileSync] can read it, and what [JSON.parse] makes
      of its text *)
  bird_config : configFile;
  (** [new Date().toISOString()] at the n-th read of the clock *)
  Date_toISOString : nat -> string;
  (** [String(f)] for the native function [f] of the given name *)
  Function_toString : string -> string;
  (** the order in which [Array.prototype.sort] leaves entries compared by
      descending value when a value is not a number *)
  engine_sort : list (string * Count.t) -> list (string * Count.t);
  fs_existsSync : string -> bool;
  (** [fs.mkdirSync] and [fs.writeFileSync]: the error thrown, if any *)
  fs_mkdirSync : string -> option jsError;
  fs_writeFileSync : string -> option jsError }.

(** Computations that read and change the world and may throw. *)
Definition M (A : Type) : Type := World -> completion A * World.

Definition ret {A} (a : A) : M A := fun w => (Normal a, w).

Definition throw {A} (e : jsError) : M A := fun w => (Throw e, w).

Definition bind {A B} (c : M A) (k : A -> M B) : M B :=
  fun w => match c w with
           | (Normal a, w') => k a w'
           | (Throw e, w') => (Throw e, w')
           end.

(** [try { c } catch (error) { h error }] *)
Definition tryCatch {A} (c : M A) (h : jsError -> M A) : M A :=
  fun w => match c w with
           | (Normal a, w') => (Normal a, w')
           | (Throw e, w') => h e w'
           end.

(** a pure step that may throw *)
Definition lift {A} (c : completion A) : M A := fun w => (c, w).

Declare Scope js_scope.
Delimit Scope js_scope with js.
Notation "x <- c ;; k" := (bind c (fun x => k))
  (at level 100, c at next level, right associativity) : js_scope.
Notation "c ;;; k" := (bind c (fun _ => k))
  (at level 100, right associativity) : js_scope.
Local Open Scope js_scope.

(** *** The POSIX flavour of the [path] module

    [normalizeString] of Node's [path] walks the segments between the
    separators: an empty segment and [.] are dropped, [..] removes the
    segment before it, unless there is none or it is itself [..]; in that
    case [..] is kept when the path is relative ([allowAboveRoot]) and
    dropped when it is absolute.  [res] holds the segments kept so far, last
    one first. *)
Fixpoint normalizeString (allowAboveRoot : bool) (segments res : list string)
  : list string :=
  match segments with
  | [] => rev res
  | segment :: rest =>
      if String.eqb segment "" || String.eqb segment "."
      then normalizeString allowAboveRoot rest res
      else if String.eqb segment ".."
      then match res with
           | last :: res' =>
               if String.eqb last ".."
               then normalizeString allowAboveRoot rest
                      (if allowAboveRoot then ".." :: res else res)
               else normalizeString allowAboveRoot rest res'
           | [] =>
               normalizeString allowAboveRoot rest
                 (if allowAboveRoot then [".."] else [])
           end
      else normalizeString allowAboveRoot rest (segment :: res)
  end.

(** [path.normalize(path)] *)
Definition path_normalize (path : string) : string :=
  if String.eqb path "" then "."
  else
    let isAbsolute := String.prefix "/" path in
    let trailingSeparator := endsWith path "/" in
    let normalized :=
      join "/" (normalizeString (negb isAbsolute) (split_on "/" path) []) in
    if String.eqb normalized ""
    then (if isAbsolute then "/" else if trailingSeparator then "./" else ".")
    else ((if isAbsolute then "/" else "") ++ normalized
          ++ (if trailingSeparator then "/" else ""))%string.

(** [path.join(a, b)]: the non-empty arguments joined by the separator, then
    normalised *)
Definition path_join (a b : string) : string :=
  let joined := join "/" (filter (fun arg => negb (String.eqb arg "")) [a; b]) in
  if String.eqb joined "" then "." else path_normalize joined.

(** the [options] of [executeCommand] *)
Module ExecOptions.
Record t := mk { retries : option Z; delay : option Z; format : option string }.
Definition none : t := mk None None None.
Definition json : t := mk None None (Some "json").
End ExecOptions.

(** A call of one of the fetch wrappers of [BirdUtils]. *)
Inductive fetchOp :=
| Search (query : string) (limit : option Z)
| Mentions (limit : option Z)
| Bookmarks (limit : option Z)
| Read (tweetId : string)
| Replies (tweetId : string) (limit : option Z)
| Thread (tweetId : string).

(** the subcommand and the arguments a wrapper hands to [executeCommand] *)
Definition commandOf (op : fetchOp) : string :=
  match op with
  | Search _ _ => "search"
  | Mentions _ => "mentions"
  | Bookmarks _ => "bookmarks"
  | Read _ => "read"
  | Replies _ _ => "replies"
  | Thread _ => "thread"
  end.

(** [const { limit = 10 } = options] *)
Definition limit_or_10 (limit : option Z) : Z :=
  match limit with Some n => n | None => 10%Z end.

Definition argsOf (op : fetchOp) : list string :=
  match op with
  | Search query limit => ["-n"; String_of_Z (limit_or_10 limit); query]
  | Mentions limit => ["-n"; String_of_Z (limit_or_10 limit)]
  | Bookmarks limit => ["-n"; String_of_Z (limit_or_10 limit)]
  | Read tweetId => [tweetId]
  | Replies tweetId limit => ["-n"; String_of_Z (limit_or_10 limit); tweetId]
  | Thread tweetId => [tweetId]
  end.

(** what a wrapper returns from its [catch]: [[]], or [null] for [readTweet] *)
Definition onFailure (op : fetchOp) : option json :=
  match op with
  | Read _ => None
  | _ => Some (JArray [])
  end.

Section Gateway.
Context {rt : Runtime}.

(** [await execFileAsync(file, args)], with the rejection reified *)
Definition execFileAsync (file : string) (args : list string) : M execOutcome :=
  fun w => (Normal (child_process (spawned w) file args),
            mkWorld (S (spawned w)) (clock w) (EvExec file args :: trace w)).

(** [await new Promise(resolve => setTimeout(resolve, delay))] *)
Definition sleep (ms : Z) : M unit :=
  fun w => (Normal tt, mkWorld (spawned w) (clock w) (EvSleep ms :: trace w)).

(** [new Date().toISOString()] *)
Definition Date_now : M string :=
  fun w => (Normal (Date_toISOString (clock w)),
            mkWorld (spawned w) (S (clock w)) (trace w)).

(** *** bird-utils.js *)

(** [path.join(__dirname, 'bird')] *)
Definition birdPath : string := path_join dirname "bird".

(** [error.message.includes('auth') || error.message.includes('cookie')] *)
Definition isAuthError (error : jsError) : bool :=
  includes (message error) "auth" || includes (message error) "cookie".

(** The [for] loop of [executeCommand] together with the [throw] that follows
    it.  [remaining] is the number of iterations left, [retries - attempt]. *)
Fixpoint executeCommand_loop (retries delay : Z) (finalArgs : list string)
  (exhausted : jsError) (remaining : nat) (attempt : Z)
  (lastError : option jsError) : M string :=
  match remaining with
  | O => throw (match lastError with Some e => e | None => exhausted end)
  | S remaining' =>
      r <- execFileAsync birdPath finalArgs ;;
      match r with
      | Stdout out => ret out
      | Rejected error =>
          if isAuthError error
          then throw (newError ("Authentication error: " ++ message error))
          else
            (if (attempt <? retries - 1)%Z then sleep delay else ret tt) ;;;
            executeCommand_loop retries delay finalArgs exhausted
              remaining' (attempt + 1)%Z (Some error)
      end
  end.

(** [const { retries = 3, delay = 1000, format = 'json' } = options] *)
Definition retries_of (options : ExecOptions.t) : Z :=
  match ExecOptions.retries options with Some r => r | None => 3%Z end.

Definition delay_of (options : ExecOptions.t) : Z :=
  match ExecOptions.delay options with Some d => d | None => 1000%Z end.

Definition format_of (options : ExecOptions.t) : string :=
  match ExecOptions.format options with Some f => f | None => "json" end.

(** [[command, ...args, ...jsonArgs]] *)
Definition finalArgs_of (command : string) (args : list string)
  (options : ExecOptions.t) : list string :=
  let jsonArgs :=
    if String.eqb (format_of options) "json" && negb (Array_includes args "--json")
    then ["--json"] else [] in
  command :: args ++ jsonArgs.

Definition executeCommand (command : string) (args : list string)
  (options : ExecOptions.t) : M string :=
  let retries := retries_of options in
  let delay := delay_of options in
  let finalArgs := finalArgs_of command args options in
  executeCommand_loop retries delay finalArgs
    (newError ("Command failed after " ++ String_of_Z retries ++ " retries: "
               ++ command ++ " " ++ join " " finalArgs))
    (Z.to_nat retries) 0%Z None.

Definition parseJSON (jsonString : string) : completion json :=
  match JSON_parse jsonString with
  | inr parsed => Normal parsed
  | inl msg => Throw (newError ("Failed to parse bird JSON output: " ++ msg))
  end.

(** [Array.isArray(parsed) ? parsed : [parsed]] *)
Definition as_array (parsed : json) : list Tweet.t :=
  match parsed with
  | JArray items => items
  | JObject o => [o]
  end.

Definition search (query : string) (limit : option Z) : M (list Tweet.t) :=
  tryCatch
    (result <- executeCommand "search"
                 ["-n"; String_of_Z (limit_or_10 limit); query] ExecOptions.json ;;
     parsed <- lift (parseJSON result) ;;
     ret (as_array parsed))
    (fun error => ret []).

Definition getMentions (limit : option Z) : M (list Tweet.t) :=
  tryCatch
    (result <- executeCommand "mentions"
                 ["-n"; String_of_Z (limit_or_10 limit)] ExecOptions.json ;;
     parsed <- lift (parseJSON result) ;;
     ret (as_array parsed))
    (fun error => ret []).

Definition getBookmarks (limit : option Z) : M (list Tweet.t) :=
  tryCatch
    (result <- executeCommand "bookmarks"
                 ["-n"; String_of_Z (limit_or_10 limit)] ExecOptions.json ;;
     parsed <- lift (parseJSON result) ;;
     ret (as_array parsed))
    (fun error => ret []).

(** [null] is [None] *)
Definition readTweet (tweetId : string) : M (option json) :=
  tryCatch
    (result <- executeCommand "read" [tweetId] ExecOptions.json ;;
     parsed <- lift (parseJSON result) ;;
     ret (Some parsed))
    (fun error => ret None).

Definition getReplies (tweetId : string) (limit : option Z) : M (list Tweet.t) :=
  tryCatch
    (result <- executeCommand "replies"
                 ["-n"; String_of_Z (limit_or_10 limit); tweetId] ExecOptions.json ;;
     parsed <- lift (parseJSON result) ;;
     ret (as_array parsed))
    (fun error => ret []).

Definition getThread (tweetId : string) : M (list Tweet.t) :=
  tryCatch
    (result <- executeCommand "thread" [tweetId] ExecOptions.json ;;
     parsed <- lift (parseJSON result) ;;
     ret (as_array parsed))
    (fun error => ret []).

(** [fs.mkdirSync(dir, { recursive: true })] *)
Definition mkdirSync (dir : string) : M unit :=
  fun w => match fs_mkdirSync dir with
           | Some e => (Throw e, w)
           | None => (Normal tt,
                      mkWorld (spawned w) (clock w) (EvMkdir dir :: trace w))
           end.

(** [fs.writeFileSync(filepath, JSON.stringify(data, null, 2))] *)
Definition writeFileSync (filepath : string) (data : Report.t) : M unit :=
  fun w => match fs_writeFileSync filepath with
           | Some e => (Throw e, w)
           | None => (Normal tt,
                      mkWorld (spawned w) (clock w) (EvWrite filepath data :: trace w))
           end.

Definition saveResults (filename : string) (data : Report.t) (brand : string)
  : M string :=
  let dir := ("brands/" ++ brand ++ "/content/06-analytics/twitter-insights")%string in
  (if negb (fs_existsSync dir) then mkdirSync dir else ret tt) ;;;
  let filepath := path_join dir filename in
  writeFileSync filepath data ;;;
  ret filepath.

(** *** The six fetch operations as one family *)

Definition fetch (op : fetchOp) : M (option json) :=
  match op with
  | Search query limit => l <- search query limit ;; ret (Some (JArray l))
  | Mentions limit => l <- getMentions limit ;; ret (Some (JArray l))
  | Bookmarks limit => l <- getBookmarks limit ;; ret (Some (JArray l))
  | Read tweetId => readTweet tweetId
  | Replies tweetId limit => l <- getReplies tweetId limit ;; ret (Some (JArray l))
  | Thread tweetId => l <- getThread tweetId ;; ret (Some (JArray l))
  end.

End Gateway.

(** *** bird-competitive-intel.js *)

(** The fields of a [CompetitiveIntelligence] instance. *)
Module CI.
Record t := mk {
  brand : string;
  config : Config.t;
  timestamp : string;
  report : Report.t }.
End CI.

Module RunOptions.
Record t := mk { competitorsOnly : option bool; influencersOnly : option bool }.
End RunOptions.

(** The fixed list [angles] of [identifyContentGaps]: keyword and weight. *)
Definition angles : list (string * string) :=
  [ ("how to", "tactical");
    ("why", "educational");
    ("case study", "proof");
    ("mistake", "contrarian");
    ("framework", "systematic") ].

Section Aggregator.
Context {rt : Runtime}.

Definition loadConfig : completion (Dict.t (option Config.t)) :=
  let configPath := path_join dirname "bird-config.json" in
  match bird_config with
  | NoSuchFile => Throw (newError ("Config file not found: " ++ configPath))
  | Unreadable error => Throw error
  | Malformed msg => Throw (mkError "SyntaxError" msg)
  | Parsed config => Normal config
  end.

(** [config[brand]] is an own entry of the parsed object or else a member of
    [Object.prototype]; such a member is truthy and has none of the fields
    [keywords], [competitors] and [influencers]. *)
Definition getBrandConfig (brand : string) : completion Config.t :=
  cbind loadConfig (fun config =>
    match Dict.get config brand with
    | Some (Some entry) => Normal entry
    | Some None => Throw (newError ("Brand not found in config: " ++ brand))
    | None =>
        if inherited brand then Normal (Config.mk None None None)
        else Throw (newError ("Brand not found in config: " ++ brand))
    end).

Definition calculateAverageEngagement {A} `{HasPublicMetrics A}
  (tweets : list A) : Engagement.t :=
  if (List.length tweets =? 0)%nat then Engagement.mk 0 0 0
  else
    let totals :=
      fold_left (fun acc t =>
        Engagement.mk
          (Engagement.likes acc + metric_or_0 PublicMetrics.like_count t)
          (Engagement.retweets acc + metric_or_0 PublicMetrics.retweet_count t)
          (Engagement.replies acc + metric_or_0 PublicMetrics.reply_count t))
        tweets (Engagement.mk 0 0 0) in
    let n := inject_Z (Z.of_nat (List.length tweets)) in
    Engagement.mk
      (Math_round (inject_Z (Engagement.likes totals) / n))
      (Math_round (inject_Z (Engagement.retweets totals) / n))
      (Math_round (inject_Z (Engagement.replies totals) / n)).

(** [(o[k] || 0)] for an object whose keys are not names of members of
    [Object.prototype] *)
Definition get_or_0 (o : Dict.t Z) (k : string) : Z :=
  match Dict.get o k with Some n => n | None => 0%Z end.

(** [String(Object.prototype[k])] for a member [k] of [Object.prototype]:
    [__proto__] is the prototype itself, [constructor] is the function
    [Object], and every other member is the function of its own name. *)
Definition prototype_text (k : string) : string :=
  if String.eqb k "__proto__" then "[object Object]"
  else Function_toString (if String.eqb k "constructor" then "Object" else k).

(** [(o[k] || 0)] as the left operand of [+], for a counting object [o] that
    started as [{}].  The read finds the own property [k], which gives way
    to 0 when it is falsy, or else the member [k] of [Object.prototype],
    which is truthy and enters [+] as its text; without either it is
    [undefined] and gives way to 0. *)
Definition Object_get_or_0 (o : Dict.t Count.t) (k : string) : Count.t :=
  match Dict.get o k with
  | Some v => Count.or_0 (Some v)
  | None => if inherited k then Count.Str (prototype_text k) else Count.Num 0
  end.

(** [o[k] = v] for a number or a string [v]: the setter of [__proto__]
    ignores such a value, so that no property is made. *)
Definition Object_set (o : Dict.t Count.t) (k : string) (v : Count.t)
  : Dict.t Count.t :=
  if String.eqb k "__proto__" then o else Dict.set o k v.

(** the body of [keywords.forEach] in [extractThemes] *)
Definition countKeyword (text : string) (themes : Dict.t Count.t) (keyword : string)
  : Dict.t Count.t :=
  if includes text (toLowerCase keyword)
  then Object_set themes keyword
         (Count.plus (Object_get_or_0 themes keyword) (Count.Num 1))
  else themes.

(** [tweets.forEach] in [extractThemes]; a post without text throws. *)
Fixpoint extractThemes_forEach (keywords : list string) (tweets : list Tweet.t)
  (themes : Dict.t Count.t) : completion (Dict.t Count.t) :=
  match tweets with
  | [] => Normal themes
  | tweet :: rest =>
      match text_or_full_text tweet with
      | None => Throw (undefinedMethod "toLowerCase")
      | Some s =>
          let text := toLowerCase s in
          extractThemes_forEach keywords rest
            (fold_left (countKeyword text) keywords themes)
      end
  end.

(** the engine's order, for an array of [{ theme, frequency }] *)
Definition engine_sort_themes (l : list Theme.t) : list Theme.t :=
  map (fun e => Theme.mk (fst e) (snd e))
    (engine_sort (map (fun t => (Theme.theme t, Theme.frequency t)) l)).

Definition extractThemes (config : Config.t) (tweets : list Tweet.t)
  : completion (list Theme.t) :=
  let keywords := or_empty (Config.keywords config) in
  cbind (extractThemes_forEach keywords tweets Dict.empty) (fun themes =>
    Normal
      (sortDescending Theme.frequency engine_sort_themes
         (map (fun e => Theme.mk (fst e) (snd e)) (Dict.entries themes)))).

(** The weighted sum is computed in doubles, left to right; [Math.round] and
    [Math.min] then give a number that is an integer. *)
Definition assessCollaborationPotential (tweets : list Tweet.t) : Collaboration.t :=
  let avgEngagement := calculateAverageEngagement tweets in
  let score :=
    Number.min 100
      (Math_round_double
         (Double.div
            (Double.add
               (Double.add
                  (Double.mul (Double.of_Z (Engagement.likes avgEngagement))
                     Double.d0_3)
                  (Double.mul (Double.of_Z (Engagement.retweets avgEngagement))
                     Double.d0_4))
               (Double.mul (Double.of_Z (Engagement.replies avgEngagement))
                  Double.d0_3))
            (Double.of_Z 10))) in
  Collaboration.mk (Number.integer score)
    (if Number.gtb score 70 then "high"
     else if Number.gtb score 40 then "medium" else "low")
    (if Number.gtb score 70
     then "Strong engagement - excellent collaboration target"
     else if Number.gtb score 40
          then "Moderate engagement - consider for partnerships"
          else "Lower engagement - monitor before outreach").

Definition calculateTrendStrength (tweets : list Tweet.t) : TrendStrength.t :=
  let avgEngagement := calculateAverageEngagement tweets in
  let strength :=
    (inject_Z (Engagement.likes avgEngagement + Engagement.retweets avgEngagement)
     / 2)%Q in
  TrendStrength.mk (Math_round strength)
    (if Qgtb strength 100 then "strong"
     else if Qgtb strength 50 then "moderate" else "weak").

(** [tweets.map(t => (t.text || t.full_text).toLowerCase())] *)
Fixpoint loweredTexts (tweets : list Tweet.t) : completion (list string) :=
  match tweets with
  | [] => Normal []
  | t :: rest =>
      match text_or_full_text t with
      | None => Throw (undefinedMethod "toLowerCase")
      | Some s => cbind (loweredTexts rest) (fun l => Normal (toLowerCase s :: l))
      end
  end.

Definition identifyContentGaps (tweets : list Tweet.t) : completion (list string) :=
  cbind (loweredTexts tweets) (fun texts =>
    let text := join " " texts in
    let found :=
      fold_left (fun (found : Dict.t bool) angle =>
                   if negb (includes text (fst angle))
                   then Dict.set found (snd angle) true
                   else found)
        angles Dict.empty in
    Normal (Dict.keys found)).

(** [new CompetitiveIntelligence(brand)] *)
Definition constructor (brand : string) : M CI.t :=
  config <- lift (getBrandConfig brand) ;;
  timestamp <- Date_now ;;
  ret (CI.mk brand config timestamp
         (Report.mk brand timestamp [] [] [] [] [] None)).

(** the [engagement] field of an element of [topTweets] *)
Definition engagement_of (t : Tweet.t) : Engagement.t :=
  Engagement.mk
    (metric_or_0 PublicMetrics.like_count t)
    (metric_or_0 PublicMetrics.retweet_count t)
    (metric_or_0 PublicMetrics.reply_count t).

Definition topTweet_of (t : Tweet.t) : TopTweet.t :=
  TopTweet.mk (text_or_full_text t) (engagement_of t) (Tweet.created_at t).

Definition trendTweet_of (t : Tweet.t) : TrendTweet.t :=
  TrendTweet.mk (text_or_full_text t) (author_of t) (engagement_of t)
    (Tweet.created_at t).

(** [this.report.competitors.push(analysis)] and its siblings *)
Definition push_competitor (self : CI.t) (analysis : Competitor.t) : CI.t :=
  let r := CI.report self in
  CI.mk (CI.brand self) (CI.config self) (CI.timestamp self)
    (Report.mk (Report.brand r) (Report.timestamp r)
       (Report.competitors r ++ [analysis]) (Report.influencers r)
       (Report.trends r) (Report.insights r) (Report.recommendations r)
       (Report.summary r)).

Definition push_influencer (self : CI.t) (analysis : Influencer.t) : CI.t :=
  let r := CI.report self in
  CI.mk (CI.brand self) (CI.config self) (CI.timestamp self)
    (Report.mk (Report.brand r) (Report.timestamp r)
       (Report.competitors r) (Report.influencers r ++ [analysis])
       (Report.trends r) (Report.insights r) (Report.recommendations r)
       (Report.summary r)).

Definition push_trend (self : CI.t) (trend : Trend.t) : CI.t :=
  let r := CI.report self in
  CI.mk (CI.brand self) (CI.config self) (CI.timestamp self)
    (Report.mk (Report.brand r) (Report.timestamp r)
       (Report.competitors r) (Report.influencers r)
       (Report.trends r ++ [trend]) (Report.insights r) (Report.recommendations r)
       (Report.summary r)).

Definition set_report (self : CI.t) (r : Report.t) : CI.t :=
  CI.mk (CI.brand self) (CI.config self) (CI.timestamp self) r.

(** one iteration of the loop of [analyzeCompetitors] *)
Definition analyzeCompetitor (self : CI.t) (competitor : string) : M CI.t :=
  tryCatch
    (let query := ("from:" ++ competitor)%string in
     tweets <- search query (Some 5%Z) ;;
     if (0 <? List.length tweets)%nat
     then
       contentThemes <- lift (extractThemes (CI.config self) tweets) ;;
       ret (push_competitor self
              (Competitor.mk competitor (List.length tweets)
                 (map topTweet_of tweets)
                 (calculateAverageEngagement tweets)
                 contentThemes))
     else ret self)
    (fun error => ret self).

(** [for (const x of xs) { ... }] over a method that updates the instance *)
Fixpoint forOf {X} (body : CI.t -> X -> M CI.t) (xs : list X) (self : CI.t)
  : M CI.t :=
  match xs with
  | [] => ret self
  | x :: rest => self' <- body self x ;; forOf body rest self'
  end.

Definition analyzeCompetitors (self : CI.t) : M CI.t :=
  let competitors := or_empty (Config.competitors (CI.config self)) in
  forOf analyzeCompetitor competitors self.

(** one iteration of the loop of [analyzeInfluencers] *)
Definition analyzeInfluencer (self : CI.t) (influencer : string) : M CI.t :=
  tryCatch
    (let query := ("from:" ++ influencer)%string in
     tweets <- search query (Some 5%Z) ;;
     if (0 <? List.length tweets)%nat
     then
       contentThemes <- lift (extractThemes (CI.config self) tweets) ;;
       ret (push_influencer self
              (Influencer.mk influencer (List.length tweets)
                 (map topTweet_of tweets)
                 (calculateAverageEngagement tweets)
                 contentThemes
                 (assessCollaborationPotential tweets)))
     else ret self)
    (fun error => ret self).

Definition analyzeInfluencers (self : CI.t) : M CI.t :=
  let influencers := or_empty (Config.influencers (CI.config self)) in
  forOf analyzeInfluencer influencers self.

(** one iteration of the loop of [identifyTrends] *)
Definition identifyTrend (self : CI.t) (keyword : string) : M CI.t :=
  tryCatch
    (tweets <- search keyword (Some 5%Z) ;;
     if (0 <? List.length tweets)%nat
     then
       contentGaps <- lift (identifyContentGaps tweets) ;;
       ret (push_trend self
              (Trend.mk keyword (List.length tweets)
                 (map trendTweet_of tweets)
                 (calculateTrendStrength tweets)
                 contentGaps))
     else ret self)
    (fun error => ret self).

Definition identifyTrends (self : CI.t) : M CI.t :=
  let keywords := or_empty (Config.keywords (CI.config self)) in
  forOf identifyTrend (firstn 3 keywords) self.

(** [this.report.insights.push(i)] *)
Definition push_insight (r : Report.t) (i : Insight) : Report.t :=
  Report.mk (Report.brand r) (Report.timestamp r) (Report.competitors r)
    (Report.influencers r) (Report.trends r) (Report.insights r ++ [i])
    (Report.recommendations r) (Report.summary r).

(** [this.report.recommendations.push(x)] *)
Definition push_recommendation (r : Report.t) (x : Recommendation) : Report.t :=
  Report.mk (Report.brand r) (Report.timestamp r) (Report.competitors r)
    (Report.influencers r) (Report.trends r) (Report.insights r)
    (Report.recommendations r ++ [x]) (Report.summary r).

(** [String(n)] for a length *)
Definition String_of_nat (n : nat) : string := String_of_Z (Z.of_nat n).

(** Insight 1 of [generateInsights] *)
Definition competitorPositioning (r : Report.t) : Report.t :=
  if (0 <? List.length (Report.competitors r))%nat
  then
    let competitorThemes :=
      fold_left (fun acc t =>
                   Object_set acc (Theme.theme t)
                     (Count.plus (Object_get_or_0 acc (Theme.theme t))
                        (Theme.frequency t)))
        (flatMap Competitor.contentThemes (Report.competitors r)) Dict.empty in
    let topTheme :=
      hd_error (sortDescending snd engine_sort (Dict.entries competitorThemes)) in
    let top0 := match topTheme with
                | Some (k, _) => if String.eqb k "" then "unknown" else k
                | None => "unknown"
                end in
    let top1 := match topTheme with
                | Some (_, v) => Count.or_0 (Some v)
                | None => Count.Num 0
                end in
    push_insight r
      (CompetitorPositioning
         ("Competitors heavily focus on " ++ dq ++ top0 ++ dq ++ " ("
          ++ Count.toString top1 ++ " mentions)")
         "Consider differentiating with other angles like frameworks, case studies, or contrarian takes")
  else r.

(** Insight 2 of [generateInsights] *)
Definition collaborationOpportunity (r : Report.t) : Report.t :=
  if (0 <? List.length (Report.influencers r))%nat
  then
    let highPotential :=
      filter (fun i =>
                (Collaboration.score (Influencer.collaborationPotential i) >? 70)%Z)
        (Report.influencers r) in
    if (0 <? List.length highPotential)%nat
    then
      push_insight r
        (CollaborationOpportunity
           (String_of_nat (List.length highPotential)
            ++ " influencer(s) with high collaboration potential")
           (map (fun i => ("@" ++ Influencer.handle i)%string) highPotential)
           "Prioritize outreach to high-potential influencers")
    else r
  else r.

(** Insight 3 of [generateInsights] *)
Definition trendOpportunity (r : Report.t) : Report.t :=
  if (0 <? List.length (Report.trends r))%nat
  then
    let strongTrends :=
      filter (fun t => String.eqb (TrendStrength.level (Trend.trendStrength t)) "strong")
        (Report.trends r) in
    if (0 <? List.length strongTrends)%nat
    then
      push_insight r
        (TrendOpportunity
           (String_of_nat (List.length strongTrends) ++ " strong trend(s) in niche")
           (map (fun t =>
                   (dq ++ Trend.keyword t ++ dq ++ " (strength: "
                    ++ String_of_Z (TrendStrength.score (Trend.trendStrength t))
                    ++ ")")%string)
              strongTrends)
           "Create content around strong trends for higher engagement")
    else r
  else r.

Definition generateInsights (r : Report.t) : Report.t :=
  trendOpportunity (collaborationOpportunity (competitorPositioning r)).

(** Recommendation 1 of [generateRecommendations] *)
Definition contentOpportunities (r : Report.t) : Report.t :=
  let gaps := flatMap Trend.contentGaps (Report.trends r) in
  let gapCounts :=
    fold_left (fun acc g => Dict.set acc g (get_or_0 acc g + 1)%Z) gaps Dict.empty in
  fold_left (fun r e =>
               let gap := fst e in
               let count := snd e in
               if (count >? 0)%Z
               then
                 push_recommendation r
                   (ContentOpportunity gap
                      (if (count >? 1)%Z then "high" else "medium")
                      ("Missing " ++ dq ++ gap ++ dq ++ " angle across "
                       ++ String_of_Z count ++ " trends"))
               else r)
    (Dict.entries gapCounts) r.

(** Recommendation 2 of [generateRecommendations] *)
Definition engagementOptimization (r : Report.t) : Report.t :=
  let avgEngagement :=
    calculateAverageEngagement
      (flatMap Competitor.topTweets (Report.competitors r)) in
  if (Engagement.replies avgEngagement >? Engagement.likes avgEngagement)%Z
  then
    push_recommendation r
      (EngagementStrategy "question-driven" "high"
         "High reply rate suggests question-based content works well")
  else r.

(** Recommendation 3 of [generateRecommendations] *)
Definition postingCadence (r : Report.t) : Report.t :=
  push_recommendation r
    (PostingStrategy "daily" "high"
       "Competitors maintain daily posting for niche relevance").

Definition generateRecommendations (r : Report.t) : Report.t :=
  postingCadence (engagementOptimization (contentOpportunities r)).

(** [this.report.summary = { ... }] *)
Definition with_summary (r : Report.t) : Report.t :=
  Report.mk (Report.brand r) (Report.timestamp r) (Report.competitors r)
    (Report.influencers r) (Report.trends r) (Report.insights r)
    (Report.recommendations r)
    (Some (Summary.mk
             (List.length (Report.competitors r))
             (List.length (Report.influencers r))
             (List.length (Report.trends r))
             (List.length (Report.insights r))
             (List.length (Report.recommendations r)))).

Definition saveReport (self : CI.t) : M CI.t :=
  iso <- Date_now ;;
  let date := split_head "T" iso in
  let filename := ("competitor-intel-" ++ date ++ ".json")%string in
  let self' := set_report self (with_summary (CI.report self)) in
  saveResults filename (CI.report self') (CI.brand self') ;;;
  ret self'.

Definition run (self : CI.t) (options : RunOptions.t) : M Report.t :=
  let competitorsOnly :=
    match RunOptions.competitorsOnly options with Some b => b | None => false end in
  let influencersOnly :=
    match RunOptions.influencersOnly options with Some b => b | None => false end in
  tryCatch
    (self1 <- (if negb influencersOnly then analyzeCompetitors self else ret self) ;;
     self2 <- (if negb competitorsOnly then analyzeInfluencers self1 else ret self1) ;;
     self3 <- identifyTrends self2 ;;
     let self4 := set_report self3 (generateInsights (CI.report self3)) in
     let self5 := set_report self4 (generateRecommendations (CI.report self4)) in
     self6 <- saveReport self5 ;;
     ret (CI.report self6))
    (fun error => throw error).

End Aggregator.

(** *** Checking the login, and the command line of the report script *)

(** [s.substring(n)] *)
Fixpoint substring_from (n : nat) (s : string) : string :=
  match n, s with
  | O, _ => s
  | S n', String _ s' => substring_from n' s'
  | S _, EmptyString => EmptyString
  end.

(** [x || d] on a string that may be missing *)
Definition string_or (x : option string) (d : string) : string :=
  match x with
  | Some s => if String.eqb s "" then d else s
  | None => d
  end.

(** What [verifyAuth] resolves to. *)
Module AuthStatus.
Record t := mk {
  authenticated : bool;
  username : option string;
  error : option string }.
End AuthStatus.

(** What [main] works out from [process.argv]. *)
Module MainArgs.
Record t := mk {
  brand : string;
  outputMode : option string;
  filter : option string;
  options : RunOptions.t }.
End MainArgs.

Section Commands.
Context {rt : Runtime}.

(** [BirdUtils.verifyAuth]; [trim] is [String.prototype.trim]. *)
Definition verifyAuth (trim : string -> string) : M AuthStatus.t :=
  r <- execFileAsync "bird" ["whoami"] ;;
  match r with
  | Stdout out => ret (AuthStatus.mk true (Some (trim out)) None)
  | Rejected error => ret (AuthStatus.mk false None (Some (message error)))
  end.

(** The first statements of [main] of bird-competitive-intel.js. *)
Definition mainArgs (argv : list string) : MainArgs.t :=
  let brand := string_or (nth_error argv 2) "ai.withjai" in
  let outputMode :=
    match find (String.prefix "--output=") argv with
    | Some arg => nth_error (split_on "=" arg) 1
    | None => None
    end in
  let filter :=
    match find (String.prefix "--") argv with
    | Some arg =>
        match nth_error (split_on "=" arg) 0 with
        | Some head => Some (substring_from 2 head)
        | None => None
        end
    | None => None
    end in
  MainArgs.mk brand outputMode filter
    (RunOptions.mk
       (Some (match filter with Some f => String.eqb f "competitors" | None => false end))
       (Some (match filter with Some f => String.eqb f "influencers" | None => false end))).

(** [main] of bird-competitive-intel.js, up to what it prints: the value is
    the exit code of the process, 1 after [process.exit(1)]. *)
Definition main (argv : list string) : M nat :=
  let args := mainArgs argv in
  tryCatch
    (intel <- constructor (MainArgs.brand args) ;;
     report <- run intel (MainArgs.options args) ;;
     ret 0%nat)
    (fun error => ret 1%nat).

End Commands.

(** ** A worked scenario

    The brand [demo] tracks the keyword [x] and the competitor [a]; the tool
    answers every search with the same single post of 100 likes, 50 retweets
    and 10 replies. *)

Definition demoPost : Tweet.t :=
  Tweet.mk (Some "X marks the spot") None (Some "a") None
    (Some "2026-01-14T08:00:00.000Z")
    (Some (PublicMetrics.mk (Some 100%N) (Some 50%N) (Some 10%N) None)).

(** the text the tool prints for [demoPost] *)
Definition demoStdout : string :=
  "[{" ++ dq ++ "text" ++ dq ++ ":" ++ dq ++ "X marks the spot" ++ dq ++ ","
  ++ dq ++ "author_handle" ++ dq ++ ":" ++ dq ++ "a" ++ dq ++ ","
  ++ dq ++ "created_at" ++ dq ++ ":" ++ dq ++ "2026-01-14T08:00:00.000Z" ++ dq ++ ","
  ++ dq ++ "public_metrics" ++ dq ++ ":{"
  ++ dq ++ "like_count" ++ dq ++ ":100,"
  ++ dq ++ "retweet_count" ++ dq ++ ":50,"
  ++ dq ++ "reply_count" ++ dq ++ ":10}}]".

(** a post that draws replies rather than likes: 1 like, 5 replies *)
Definition chattyPost : Tweet.t :=
  Tweet.mk (Some "Which X do you use?") None (Some "a") None
    (Some "2026-01-14T08:00:00.000Z")
    (Some (PublicMetrics.mk (Some 1%N) (Some 0%N) (Some 5%N) None)).

(** the text the tool prints for [chattyPost] *)
Definition chattyStdout : string :=
  "[{" ++ dq ++ "text" ++ dq ++ ":" ++ dq ++ "Which X do you use?" ++ dq ++ ","
  ++ dq ++ "author_handle" ++ dq ++ ":" ++ dq ++ "a" ++ dq ++ ","
  ++ dq ++ "created_at" ++ dq ++ ":" ++ dq ++ "2026-01-14T08:00:00.000Z" ++ dq ++ ","
  ++ dq ++ "public_metrics" ++ dq ++ ":{"
  ++ dq ++ "like_count" ++ dq ++ ":1,"
  ++ dq ++ "retweet_count" ++ dq ++ ":0,"
  ++ dq ++ "reply_count" ++ dq ++ ":5}}]".

(** a post whose text is the empty string *)
Definition blankPost : Tweet.t := Tweet.mk (Some "") None None None None None.

(** the text the tool prints for [blankPost] *)
Definition blankStdout : string :=
  "[{" ++ dq ++ "text" ++ dq ++ ":" ++ dq ++ dq ++ "}]".

(** [JSON.parse] restricted to the texts the scenarios use *)
Definition demoParse (s : string) : string + json :=
  if String.eqb s demoStdout then inr (JArray [demoPost])
  else if String.eqb s chattyStdout then inr (JArray [chattyPost])
  else if String.eqb s blankStdout then inr (JArray [blankPost])
  else if String.eqb s "{}" then inr (JObject Tweet.empty)
  else if String.eqb s "[]" then inr (JArray [])
  else inl "Unexpected token in JSON".

Definition demoConfig : Config.t :=
  Config.mk (Some ["x"]) (Some ["a"]) (Some []).

(** a host with the given configuration file, whose tool behaves as [tool]
    says *)
Definition hostOf (file : configFile)
  (tool : nat -> string -> list string -> execOutcome) : Runtime :=
  {| toLowerCase := asciiLowerCase;
     JSON_parse := demoParse;
     child_process := tool;
     dirname := "/repo/scripts/social";
     bird_config := file;
     Date_toISOString := fun _ => "2026-01-15T09:30:00.000Z";
     Function_toString :=
       fun name => ("function " ++ name ++ "() { [native code] }")%string;
     engine_sort := fun l => l;
     fs_existsSync := fun _ => false;
     fs_mkdirSync := fun _ => None;
     fs_writeFileSync := fun _ => None |}.

(** a host whose configuration file has the one brand [demo] *)
Definition hostWith (tool : nat -> string -> list string -> execOutcome) : Runtime :=
  hostOf (Parsed [("demo", Some demoConfig)]) tool.

(** the tool prints [demoStdout] for every command *)
Definition demoHost : Runtime := hostWith (fun _ _ _ => Stdout demoStdout).

(** the tool prints [chattyStdout] for every command *)
Definition chattyHost : Runtime := hostWith (fun _ _ _ => Stdout chattyStdout).

(** a post that has only the given text *)
Definition textPost (s : string) : Tweet.t := Tweet.mk (Some s) None None None None None.

(** three configured keywords, and posts that mention the first two *)
Definition themeConfig : Config.t :=
  Config.mk (Some ["AI automation"; "Claude Code"; "newsletter growth"]) None None.

Definition themeTexts : list string :=
  [ "Claude Code makes AI automation easy";
    "My claude code setup";
    "AI AUTOMATION for the win";
    "claude code tips" ].

Definition themePosts : list Tweet.t := map textPost themeTexts.


(** a post with the given like, retweet and reply counts *)
Definition countsPost (likes retweets replies : N) : Tweet.t :=
  Tweet.mk (Some "It works") None None None None
    (Some (PublicMetrics.mk (Some likes) (Some retweets) (Some replies) None)).

(** a report under construction whose only trend entry comes from [demoPost] *)
Definition demoTrendReport : Report.t :=
  Report.mk "demo" "2026-01-15T09:30:00.000Z" [] []
    [Trend.mk "x" 1 [] (TrendStrength.mk 75 "moderate") []] [] [] None.

(** the tool prints the single object [{}] *)
Definition objectHost : Runtime := hostWith (fun _ _ _ => Stdout "{}").

(** the tool always fails with the given message *)
Definition failingHost (msg : string) : Runtime :=
  hostWith (fun _ _ _ => Rejected (mkError "Error" msg)).

(** the tool fails [n] times with a transient message, then with [msg] *)
Definition flakyHost (n : nat) (msg : string) : Runtime :=
  hostWith (fun k _ _ =>
              if (k <? n)%nat then Rejected (mkError "Error" "Command failed: timeout")
              else Rejected (mkError "Error" msg)).

(** the tool fails [n] times with a transient message, then prints
    [demoStdout] *)
Definition recoveringHost (n : nat) : Runtime :=
  hostWith (fun k _ _ =>
              if (k <? n)%nat then Rejected (mkError "Error" "Command failed: timeout")
              else Stdout demoStdout).

(** the tool prints text that is not JSON *)
Definition garbledHost : Runtime := hostWith (fun _ _ _ => Stdout "<html>").

(** a report under construction with two influencer entries, one of high
    potential, and two trend entries, one of them strong *)
Definition starReport : Report.t :=
  Report.mk "demo" "2026-01-15T09:30:00.000Z"
    [Competitor.mk "a" 1 [] (Engagement.mk 0 0 0)
       [Theme.mk "x" (Count.Num 2); Theme.mk "y" (Count.Num 1)];
     Competitor.mk "b" 1 [] (Engagement.mk 0 0 0)
       [Theme.mk "y" (Count.Num 3)]]
    [Influencer.mk "star" 1 [] (Engagement.mk 3000 0 0) []
       (Collaboration.mk 90 "high" "Strong engagement - excellent collaboration target");
     Influencer.mk "quiet" 1 [] (Engagement.mk 10 0 0) []
       (Collaboration.mk 0 "low" "Lower engagement - monitor before outreach")]
    [Trend.mk "x" 1 [] (TrendStrength.mk 150 "strong") ["tactical"; "proof"];
     Trend.mk "y" 1 [] (TrendStrength.mk 20 "weak") ["proof"]]
    [] [] None.

(** The brand [mixed] tracks three keywords and a fourth, three competitor
    handles and the same three influencer handles.  The tool finds no post
    for the name [quiet], a post without text for the name [blank], and
    [demoPost] for every other name. *)
Definition mixedConfig : Config.t :=
  Config.mk (Some ["x"; "quiet"; "blank"; "late"])
    (Some ["a"; "quiet"; "blank"]) (Some ["a"; "quiet"; "blank"]).

Definition mixedTool (n : nat) (file : string) (args : list string) : execOutcome :=
  if existsb (fun arg => includes arg "quiet") args then Stdout "[]"
  else if existsb (fun arg => includes arg "blank") args then Stdout blankStdout
  else Stdout demoStdout.

Definition mixedHost : Runtime :=
  hostOf (Parsed [("mixed", Some mixedConfig)]) mixedTool.

(** the instance that [new CompetitiveIntelligence('mixed')] makes *)
Definition mixedSelf : CI.t :=
  CI.mk "mixed" mixedConfig "2026-01-15T09:30:00.000Z"
    (Report.mk "mixed" "2026-01-15T09:30:00.000Z" [] [] [] [] [] None).

(** [new CompetitiveIntelligence('demo').run()] from the initial world *)
Definition demoRun (rt : Runtime) : completion Report.t * World :=
  match @constructor rt "demo" world0 with
  | (Normal self, w) => @run rt self (RunOptions.mk None None) w
  | (Throw e, w) => (Throw e, w)
  end.

(** ** Vocabulary of the specification *)

Local Open Scope nat_scope.

Section Vocabulary.
Context {rt : Runtime}.

(** From world [w] on, the next [k] runs of the tool with [finalArgs] all fail
    with an error that is not an authentication error. *)
Definition transient_failures (w : World) (finalArgs : list string) (k : nat) : Prop :=
  forall j, (j < k)%nat ->
    exists e, child_process (spawned w + j) birdPath finalArgs = Rejected e
              /\ isAuthError e = false.

(** The normalisation the specification asks of a fetch operation: when the
    tool's output parses to a single object, a one-element list is returned. *)
Definition normalizes_single_object (op : fetchOp) : Prop :=
  forall w out w' o,
    executeCommand (commandOf op) (argsOf op) ExecOptions.json w = (Normal out, w') ->
    JSON_parse out = inr (JObject o) ->
    fetch op w = (Normal (Some (JArray [o])), w').

(** The sum of one engagement metric over a list of posts, a missing metric
    counting as 0. *)
Definition total {A} `{HasPublicMetrics A}
  (field : PublicMetrics.t -> option N) (tweets : list A) : Z :=
  fold_right Z.add 0%Z (map (metric_or_0 field) tweets).

(** The mean of one engagement metric over a non-empty list of posts. *)
Definition mean {A} `{HasPublicMetrics A}
  (field : PublicMetrics.t -> option N) (tweets : list A) : Q :=
  (inject_Z (total field tweets) / inject_Z (Z.of_nat (List.length tweets)))%Q.

(** The engagement counts of a post as the specification reads them: the
    count that the post carries under [public_metrics], and 0 for a post
    without [public_metrics] or without that count. *)
Definition countOf (count : option N) : Z :=
  match count with
  | Some n => Z.of_N n
  | None => 0%Z
  end.

Definition likesOf (t : Tweet.t) : Z :=
  match Tweet.public_metrics t with
  | Some pm => countOf (PublicMetrics.like_count pm)
  | None => 0%Z
  end.

Definition retweetsOf (t : Tweet.t) : Z :=
  match Tweet.public_metrics t with
  | Some pm => countOf (PublicMetrics.retweet_count pm)
  | None => 0%Z
  end.

Definition repliesOf (t : Tweet.t) : Z :=
  match Tweet.public_metrics t with
  | Some pm => countOf (PublicMetrics.reply_count pm)
  | None => 0%Z
  end.

(** The mean of a quantity over a non-empty list of posts. *)
Definition meanOf (quantity : Tweet.t -> Z) (tweets : list Tweet.t) : Q :=
  (inject_Z (fold_right Z.add 0%Z (map quantity tweets))
   / inject_Z (Z.of_nat (List.length tweets)))%Q.

(** [z] is the integer nearest to [q], the upper one of two equally near. *)
Definition nearest_integer (q : Q) (z : Z) : Prop :=
  (q - (1 # 2) < inject_Z z /\ inject_Z z <= q + (1 # 2))%Q.

(** The weighted engagement of the collaboration score, before rounding and
    clamping: (0.3 likes + 0.4 retweets + 0.3 replies) / 10, each operation
    rounded to a double. *)
Definition weightedEngagement (e : Engagement.t) : Double.t :=
  Double.div
    (Double.add
       (Double.add
          (Double.mul Double.d0_3 (Double.of_Z (Engagement.likes e)))
          (Double.mul Double.d0_4 (Double.of_Z (Engagement.retweets e))))
       (Double.mul Double.d0_3 (Double.of_Z (Engagement.replies e))))
    (Double.of_Z 10).

(** The same quantity in exact arithmetic. *)
Definition exactWeightedEngagement (e : Engagement.t) : Q :=
  ((inject_Z (Engagement.likes e) * (3 # 10)
    + inject_Z (Engagement.retweets e) * (4 # 10)
    + inject_Z (Engagement.replies e) * (3 # 10)) / 10)%Q.

(** round(min(100, x)) for a double [x] *)
Definition roundOfMin100 (x : Double.t) : Number.t Z :=
  match Double.value x with
  | Number.Finite q => Number.Finite (Math_round (Qmin 100 q))
  | Number.PosInfinity => Number.Finite (Math_round 100)
  | Number.NegInfinity => Number.NegInfinity
  | Number.NaN => Number.NaN
  end.

(** A double that is zero, positive or plus infinity. *)
Definition nonneg (x : Double.t) : Prop :=
  match x with
  | S754_zero false | S754_infinity false | S754_finite false _ _ => True
  | _ => False
  end.

(** The strength of a trend before rounding: (likes + retweets) / 2. *)
Definition trendStrengthOf (e : Engagement.t) : Q :=
  (inject_Z (Engagement.likes e + Engagement.retweets e) / 2)%Q.

(** The post [p] carries the given like and retweet counts. *)
Definition has_counts (p : Tweet.t) (likes retweets : N) : Prop :=
  exists pm, Tweet.public_metrics p = Some pm
             /\ PublicMetrics.like_count pm = Some likes
             /\ PublicMetrics.retweet_count pm = Some retweets.

(** The mean, over the top posts of all competitor entries, of one field of
    their [engagement]. *)
Definition topPostsMean (field : Engagement.t -> Z) (r : Report.t) : Q :=
  let posts := flatMap Competitor.topTweets (Report.competitors r) in
  (inject_Z (fold_right Z.add 0%Z (map (fun t => field (TopTweet.engagement t)) posts))
   / inject_Z (Z.of_nat (List.length posts)))%Q.

(** [r] holds a recommendation of the given type *)
Definition recommends (type : string) (r : Report.t) : bool :=
  existsb (fun x => String.eqb (recommendation_type x) type)
    (Report.recommendations r).

(** The texts of the posts, when every post has one: [texts] lists
    [t.text || t.full_text] post by post. *)
Definition texts_of (tweets : list Tweet.t) (texts : list string) : Prop :=
  map text_or_full_text tweets = map Some texts.

(** The lowercased post texts joined by single spaces. *)
Definition joinedLowerText (texts : list string) : string :=
  join " " (map toLowerCase texts).

(** The weight tags of the canonical angles whose keyword is absent from
    [text]. *)
Definition absentAngles (text : string) : list string :=
  map snd (filter (fun angle => negb (includes text (fst angle))) angles).

(** [keyword] occurs in [text], case-insensitively. *)
Definition mentions (keyword text : string) : bool :=
  includes (toLowerCase text) (toLowerCase keyword).

(** The number of post texts in which [keyword] occurs. *)
Definition postsMentioning (keyword : string) (texts : list string) : nat :=
  List.length (filter (mentions keyword) texts).

(** [keyword] occurs in at least one post text. *)
Definition occurs (keyword : string) (texts : list string) : Prop :=
  exists text, In text texts /\ mentions keyword text = true.

(** A dictionary of counts: every key once, every count positive. *)
Definition counted (d : Dict.t Z) : Prop :=
  NoDup (map fst d) /\ forall k v, Dict.get d k = Some v -> (0 < v)%Z.

(** [k] is not the name of a member of [Object.prototype]. *)
Definition plain (k : string) : Prop := ~ In k Object_prototype.

(** The number that a counter holds; a string holds none and counts as 0. *)
Definition numberOf (v : Count.t) : Z :=
  match v with
  | Count.Num n => n
  | Count.Str _ => 0%Z
  end.

(** A dictionary of numbers, seen as a counting object. *)
Definition nums (d : Dict.t Z) : Dict.t Count.t :=
  map (fun kv => (fst kv, Count.Num (snd kv))) d.

(** Counting a keyword in a dictionary of numbers: the count of [keyword]
    goes up by one when [text] has it. *)
Definition countPlain (text : string) (themes : Dict.t Z) (keyword : string)
  : Dict.t Z :=
  if includes text (toLowerCase keyword)
  then Dict.set themes keyword (get_or_0 themes keyword + 1)%Z
  else themes.

(** The effects, latest first, of [k] failed attempts of [executeCommand],
    each followed by the pause, on top of the earlier effects [tr]. *)
Fixpoint failed_attempts (finalArgs : list string) (delay : Z) (k : nat)
  (tr : list event) : list event :=
  match k with
  | O => tr
  | S k' =>
      EvSleep delay :: EvExec birdPath finalArgs
        :: failed_attempts finalArgs delay k' tr
  end.

(** Running the tool and pausing are the effects of the gateway. *)
Definition is_gateway_event (e : event) : bool :=
  match e with
  | EvExec _ _ | EvSleep _ => true
  | _ => false
  end.

(** From [w] to [w'] the tool was run at most [n] times, the clock was not
    read, and only gateway effects were added to the trace. *)
Definition gathers (n : nat) (w w' : World) : Prop :=
  clock w' = clock w
  /\ spawned w <= spawned w' <= spawned w + n
  /\ exists evs, trace w' = evs ++ trace w
                 /\ forallb is_gateway_event evs = true.

(** The rounded mean of each field over a non-empty list of engagement
    records. *)
Definition roundedMeans (es : list Engagement.t) : Engagement.t :=
  let n := inject_Z (Z.of_nat (List.length es)) in
  Engagement.mk
    (Math_round (inject_Z (fold_right Z.add 0%Z (map Engagement.likes es)) / n))
    (Math_round (inject_Z (fold_right Z.add 0%Z (map Engagement.retweets es)) / n))
    (Math_round (inject_Z (fold_right Z.add 0%Z (map Engagement.replies es)) / n)).

(** [es] holds entries for some of the names [xs], in the order of [xs], at
    most one entry per listing of a name, each entry fit for its name. *)
Inductive answers {E : Type} (P : string -> E -> Prop)
  : list string -> list E -> Prop :=
| answers_nil : answers P [] []
| answers_skip x xs es : answers P xs es -> answers P (x :: xs) es
| answers_keep x xs e es : P x e -> answers P xs es -> answers P (x :: xs) (e :: es).

(** What holds of the entry pushed for a competitor handle. *)
Definition competitor_entry (handle : string) (e : Competitor.t) : Prop :=
  Competitor.handle e = handle
  /\ 0 < Competitor.tweetsAnalyzed e
  /\ Competitor.tweetsAnalyzed e = List.length (Competitor.topTweets e)
  /\ Forall (fun t => TopTweet.text t <> None) (Competitor.topTweets e)
  /\ Competitor.averageEngagement e
     = roundedMeans (map TopTweet.engagement (Competitor.topTweets e)).

(** What holds of the entry pushed for an influencer handle. *)
Definition influencer_entry (handle : string) (e : Influencer.t) : Prop :=
  Influencer.handle e = handle
  /\ 0 < Influencer.tweetsAnalyzed e
  /\ Influencer.tweetsAnalyzed e = List.length (Influencer.topTweets e)
  /\ Forall (fun t => TopTweet.text t <> None) (Influencer.topTweets e)
  /\ Influencer.averageEngagement e
     = roundedMeans (map TopTweet.engagement (Influencer.topTweets e))
  /\ roundOfMin100 (weightedEngagement (Influencer.averageEngagement e))
     = Number.Finite (Collaboration.score (Influencer.collaborationPotential e))
  /\ (0 <= Collaboration.score (Influencer.collaborationPotential e) <= 100)%Z
  /\ (Collaboration.level (Influencer.collaborationPotential e) = "high"
      <-> (70 < Collaboration.score (Influencer.collaborationPotential e))%Z).

(** What holds of the entry pushed for a trend keyword. *)
Definition trend_entry (keyword : string) (e : Trend.t) : Prop :=
  Trend.keyword e = keyword
  /\ 0 < Trend.tweetsFound e
  /\ Trend.tweetsFound e = List.length (Trend.topTweets e)
  /\ Forall (fun t => TrendTweet.text t <> None) (Trend.topTweets e)
  /\ TrendStrength.score (Trend.trendStrength e)
     = Math_round (trendStrengthOf
                     (roundedMeans (map TrendTweet.engagement (Trend.topTweets e))))
  /\ (TrendStrength.level (Trend.trendStrength e) = "strong"
      <-> (100 < TrendStrength.score (Trend.trendStrength e))%Z)
  /\ NoDup (Trend.contentGaps e)
  /\ incl (Trend.contentGaps e) (map snd angles).

(** The posts can be analysed: there is at least one, and every one has a
    text. *)
Definition analysable (tweets : list Tweet.t) : Prop :=
  tweets <> [] /\ Forall (fun t => text_or_full_text t <> None) tweets.

(** The posts found for the names of a gathering loop, five at most asked for
    each: the first name is searched from the world [w], each later name
    from the world in which the search before it ended, and the last search
    ends in [w'].  A search runs the tool three times at most. *)
Inductive searched (query : string -> string)
  : list string -> World -> list (list Tweet.t) -> World -> Prop :=
| searched_nil w : searched query [] w [] w
| searched_cons x xs w tweets w1 found w' :
    search (query x) (Some 5%Z) w = (Normal tweets, w1) ->
    gathers 3 w w1 ->
    searched query xs w1 found w' ->
    searched query (x :: xs) w (tweets :: found) w'.

(** The entries made of what was found: a name whose posts cannot be analysed
    is skipped, every other name gets its entry, in the order of the names. *)
Inductive entries_of {E : Type} (entry : string -> list Tweet.t -> E -> Prop)
  : list string -> list (list Tweet.t) -> list E -> Prop :=
| entries_nil : entries_of entry [] [] []
| entries_skip x xs tweets found es :
    ~ analysable tweets ->
    entries_of entry xs found es ->
    entries_of entry (x :: xs) (tweets :: found) es
| entries_keep x xs tweets found e es :
    analysable tweets ->
    entry x tweets e ->
    entries_of entry xs found es ->
    entries_of entry (x :: xs) (tweets :: found) (e :: es).

(** The entry of a competitor handle, made of the posts found for it. *)
Definition competitor_analysis (config : Config.t) (handle : string)
  (tweets : list Tweet.t) (e : Competitor.t) : Prop :=
  Competitor.handle e = handle
  /\ Competitor.tweetsAnalyzed e = List.length tweets
  /\ Competitor.topTweets e = map topTweet_of tweets
  /\ Competitor.averageEngagement e = calculateAverageEngagement tweets
  /\ extractThemes config tweets = Normal (Competitor.contentThemes e).

(** The entry of an influencer handle, made of the posts found for it. *)
Definition influencer_analysis (config : Config.t) (handle : string)
  (tweets : list Tweet.t) (e : Influencer.t) : Prop :=
  Influencer.handle e = handle
  /\ Influencer.tweetsAnalyzed e = List.length tweets
  /\ Influencer.topTweets e = map topTweet_of tweets
  /\ Influencer.averageEngagement e = calculateAverageEngagement tweets
  /\ extractThemes config tweets = Normal (Influencer.contentThemes e)
  /\ Influencer.collaborationPotential e = assessCollaborationPotential tweets.

(** The entry of a keyword, made of the posts found for it. *)
Definition trend_analysis (keyword : string) (tweets : list Tweet.t) (e : Trend.t)
  : Prop :=
  Trend.keyword e = keyword
  /\ Trend.tweetsFound e = List.length tweets
  /\ Trend.topTweets e = map trendTweet_of tweets
  /\ Trend.trendStrength e = calculateTrendStrength tweets
  /\ identifyContentGaps tweets = Normal (Trend.contentGaps e).

(** The search query for a handle. *)
Definition from (handle : string) : string := ("from:" ++ handle)%string.

(** A segment of a path that normalisation leaves alone: it has no
    separator and is neither empty nor [.] nor [..]. *)
Fixpoint has_separator (s : string) : bool :=
  match s with
  | EmptyString => false
  | String c s' => Ascii.eqb c "/" || has_separator s'
  end.

Definition plainSegment (s : string) : Prop :=
  has_separator s = false /\ s <> "" /\ s <> "." /\ s <> "..".

(** The directory and the file of the report of a brand, given the clock
    reading at save time. *)
Definition reportDir (brand : string) : string :=
  ("brands/" ++ brand ++ "/content/06-analytics/twitter-insights")%string.

Definition reportPath (brand iso : string) : string :=
  path_join (reportDir brand)
    ("competitor-intel-" ++ split_head "T" iso ++ ".json")%string.

(** The flags of [run] after their defaults. *)
Definition competitorsOnly_of (options : RunOptions.t) : bool :=
  match RunOptions.competitorsOnly options with Some b => b | None => false end.

Definition influencersOnly_of (options : RunOptions.t) : bool :=
  match RunOptions.influencersOnly options with Some b => b | None => false end.

(** The handles and keywords a run looks up, given its flags. *)
Definition competitorsOf (self : CI.t) (options : RunOptions.t) : list string :=
  if influencersOnly_of options then []
  else or_empty (Config.competitors (CI.config self)).

Definition influencersOf (self : CI.t) (options : RunOptions.t) : list string :=
  if competitorsOnly_of options then []
  else or_empty (Config.influencers (CI.config self)).

Definition keywordsOf (self : CI.t) : list string :=
  firstn 3 (or_empty (Config.keywords (CI.config self))).

(** What the three gathering phases of a run find and make between the
    worlds [w] and [w3]: the selected competitor handles are searched first,
    then the selected influencer handles, then the first three keywords, and
    [newc], [newi] and [newt] are the entries of the names whose posts can be
    analysed. *)
Definition gathered (self : CI.t) (options : RunOptions.t) (w : World)
  (newc : list Competitor.t) (newi : list Influencer.t) (newt : list Trend.t)
  (w3 : World) : Prop :=
  exists foundc foundi foundt w1 w2,
    searched from (competitorsOf self options) w foundc w1
    /\ searched from (influencersOf self options) w1 foundi w2
    /\ searched (fun keyword => keyword) (keywordsOf self) w2 foundt w3
    /\ entries_of (competitor_analysis (CI.config self))
         (competitorsOf self options) foundc newc
    /\ entries_of (influencer_analysis (CI.config self))
         (influencersOf self options) foundi newi
    /\ entries_of trend_analysis (keywordsOf self) foundt newt.

(** The insights that [generateInsights] adds to those already in [r]. *)
Definition addedInsights (r : Report.t) : list Insight :=
  skipn (List.length (Report.insights r)) (Report.insights (generateInsights r)).

(** The influencer entries whose collaboration score exceeds 70, and the
    trend entries whose level is "strong". *)
Definition highPotentialOf (r : Report.t) : list Influencer.t :=
  filter (fun i => (Collaboration.score (Influencer.collaborationPotential i) >? 70)%Z)
    (Report.influencers r).

Definition strongTrendsOf (r : Report.t) : list Trend.t :=
  filter (fun t => String.eqb (TrendStrength.level (Trend.trendStrength t)) "strong")
    (Report.trends r).

(** The frequencies of theme [k] summed over a list of theme entries. *)
Definition summedFrequency (k : string) (themes : list Theme.t) : Z :=
  fold_right Z.add 0%Z
    (map (fun t => numberOf (Theme.frequency t))
       (filter (fun t => String.eqb (Theme.theme t) k) themes)).

(** Every theme of the list has a plain name and a number as its frequency,
    as the themes that [extractThemes] makes of plain keywords have. *)
Definition plainThemes (themes : list Theme.t) : Prop :=
  Forall (fun t => plain (Theme.theme t)
                   /\ exists n, Theme.frequency t = Count.Num n) themes.

(** The recommendations that [generateRecommendations] adds to those already
    in [r]. *)
Definition addedRecommendations (r : Report.t) : list Recommendation :=
  skipn (List.length (Report.recommendations r))
    (Report.recommendations (generateRecommendations r)).

End Vocabulary.

(** * Properties *)

(** ** The execution gateway *)

Section GatewayProperties.
Context {rt : Runtime}.

Lemma transient_failures_shift w w1 finalArgs k :
  spawned w1 = S (spawned w) ->
  transient_failures w finalArgs (S k) ->
  transient_failures w1 finalArgs k.
Proof.
  intros Hs H j Hj. rewrite Hs.
  replace (S (spawned w) + j) with (spawned w + S j) by lia.
  apply H. lia.
Qed.

Lemma transient_failures_head w finalArgs k :
  transient_failures w finalArgs (S k) ->
  exists e, child_process (spawned w) birdPath finalArgs = Rejected e
            /\ isAuthError e = false.
Proof.
  intros H. destruct (H 0 ltac:(lia)) as [e [He Ha]].
  rewrite Nat.add_0_r in He. eauto.
Qed.

(** One failed, non-authentication attempt: the loop goes on from a world with
    one more child process. *)
Lemma executeCommand_loop_step retries delay finalArgs exhausted remaining attempt
  lastError w e :
  child_process (spawned w) birdPath finalArgs = Rejected e ->
  isAuthError e = false ->
  exists w1,
    spawned w1 = S (spawned w)
    /\ executeCommand_loop retries delay finalArgs exhausted (S remaining) attempt
         lastError w
       = executeCommand_loop retries delay finalArgs exhausted remaining
           (attempt + 1)%Z (Some e) w1.
Proof.
  intros He Ha. cbn [executeCommand_loop]. unfold bind at 1, execFileAsync at 1.
  rewrite He, Ha.
  destruct (attempt <? retries - 1)%Z; unfold bind, sleep, ret;
    eexists; split; try reflexivity; reflexivity.
Qed.

Lemma executeCommand_loop_auth k :
  forall retries delay finalArgs exhausted remaining attempt lastError w error,
    (k < remaining)%nat ->
    transient_failures w finalArgs k ->
    child_process (spawned w + k) birdPath finalArgs = Rejected error ->
    isAuthError error = true ->
    exists w',
      executeCommand_loop retries delay finalArgs exhausted remaining attempt
        lastError w
      = (Throw (newError ("Authentication error: " ++ message error)), w')
      /\ spawned w' = spawned w + k + 1
      /\ exists tr, trace w' = EvExec birdPath finalArgs :: tr.
Proof.
  induction k as [|k IH]; intros retries delay finalArgs exhausted remaining attempt
    lastError w error Hk Htr Herr Hauth.
  - destruct remaining as [|remaining]; [lia|].
    rewrite Nat.add_0_r in Herr.
    cbn [executeCommand_loop]. unfold bind, execFileAsync.
    rewrite Herr, Hauth. unfold throw.
    eexists; split; [reflexivity|]. cbn. split; [lia|eauto].
  - destruct remaining as [|remaining]; [lia|].
    destruct (transient_failures_head _ _ _ Htr) as [e [He Ha]].
    destruct (executeCommand_loop_step retries delay finalArgs exhausted remaining
                attempt lastError w e He Ha) as [w1 [Hs Heq]].
    rewrite Heq.
    destruct (IH retries delay finalArgs exhausted remaining (attempt + 1)%Z
                (Some e) w1 error) as [w' [Hr [Hsp Htrace]]].
    + lia.
    + eapply transient_failures_shift; eauto.
    + rewrite Hs. replace (S (spawned w) + k) with (spawned w + S k) by lia. exact Herr.
    + exact Hauth.
    + exists w'. split; [exact Hr|]. split; [lia|exact Htrace].
Qed.

Lemma executeCommand_loop_exhausted n :
  forall retries delay finalArgs exhausted attempt lastError w,
    transient_failures w finalArgs (S n) ->
    exists e w',
      child_process (spawned w + n) birdPath finalArgs = Rejected e
      /\ executeCommand_loop retries delay finalArgs exhausted (S n) attempt
           lastError w = (Throw e, w')
      /\ spawned w' = spawned w + S n.
Proof.
  induction n as [|n IH]; intros retries delay finalArgs exhausted attempt lastError w Htr.
  - destruct (transient_failures_head _ _ _ Htr) as [e [He Ha]].
    destruct (executeCommand_loop_step retries delay finalArgs exhausted 0
                attempt lastError w e He Ha) as [w1 [Hs Heq]].
    exists e, w1. rewrite Nat.add_0_r. split; [exact He|].
    rewrite Heq. cbn. unfold throw. split; [reflexivity|lia].
  - destruct (transient_failures_head _ _ _ Htr) as [e [He Ha]].
    destruct (executeCommand_loop_step retries delay finalArgs exhausted (S n)
                attempt lastError w e He Ha) as [w1 [Hs Heq]].
    destruct (IH retries delay finalArgs exhausted (attempt + 1)%Z (Some e) w1)
      as [e' [w' [He' [Hr Hsp]]]].
    + eapply transient_failures_shift; eauto.
    + exists e', w'. split.
      * rewrite Hs in He'.
        replace (spawned w + S n) with (S (spawned w) + n) by lia. exact He'.
      * rewrite Heq. split; [exact Hr|lia].
Qed.

(** With no attempt allowed, the fallback error is thrown without running the
    tool. *)
Lemma executeCommand_no_attempt command args options w :
  (retries_of options <= 0)%Z ->
  executeCommand command args options w
  = (Throw (newError ("Command failed after " ++ String_of_Z (retries_of options)
                      ++ " retries: " ++ command ++ " "
                      ++ join " " (finalArgs_of command args options))), w).
Proof.
  intros H. unfold executeCommand.
  replace (Z.to_nat (retries_of options)) with 0 by lia. reflexivity.
Qed.

(** When every allowed attempt fails transiently, [executeCommand] throws the
    error of the last attempt, after exactly [retries] runs of the tool. *)
Lemma executeCommand_exhausted command args options w :
  (0 < retries_of options)%Z ->
  transient_failures w (finalArgs_of command args options)
    (Z.to_nat (retries_of options)) ->
  exists e w',
    child_process (spawned w + (Z.to_nat (retries_of options) - 1)) birdPath
      (finalArgs_of command args options) = Rejected e
    /\ executeCommand command args options w = (Throw e, w')
    /\ spawned w' = spawned w + Z.to_nat (retries_of options).
Proof.
  intros Hpos Htr. unfold executeCommand.
  destruct (Z.to_nat (retries_of options)) as [|n] eqn:En; [lia|].
  replace (S n - 1) with n by lia.
  apply executeCommand_loop_exhausted. exact Htr.
Qed.

(** C1. Whatever the command, the arguments and the options: when the attempt
    number [k] of [executeCommand] (reached because the [k] attempts before it
    failed with other errors) fails with a message that contains "auth" or
    "cookie", [executeCommand] throws "Authentication error: <message>", and the
    tool has been run exactly [k + 1] times, the failing run being the last
    effect; when [k = 0] that is exactly one attempt. *)
Theorem executeCommand_auth_error_aborts :
  forall command args options w k error,
    (Z.of_nat k < retries_of options)%Z ->
    transient_failures w (finalArgs_of command args options) k ->
    child_process (spawned w + k) birdPath (finalArgs_of command args options)
      = Rejected error ->
    includes (message error) "auth" = true
      \/ includes (message error) "cookie" = true ->
    exists w',
      executeCommand command args options w
      = (Throw (newError ("Authentication error: " ++ message error)), w')
      /\ spawned w' = spawned w + k + 1
      /\ (k = 0 -> spawned w' = spawned w + 1)
      /\ exists tr,
           trace w' = EvExec birdPath (finalArgs_of command args options) :: tr.
Proof.
  intros command args options w k error Hk Htr Herr Hmsg.
  assert (Hauth : isAuthError error = true).
  { unfold isAuthError. apply orb_true_iff. exact Hmsg. }
  destruct (executeCommand_loop_auth k (retries_of options) (delay_of options)
              (finalArgs_of command args options)
              (newError ("Command failed after " ++ String_of_Z (retries_of options)
                         ++ " retries: " ++ command ++ " "
                         ++ join " " (finalArgs_of command args options)))
              (Z.to_nat (retries_of options)) 0%Z None w error)
    as [w' [Hr [Hsp Htrace]]]; try assumption.
  - lia.
  - exists w'. split; [exact Hr|]. split; [exact Hsp|]. split; [|exact Htrace].
    intros ->. lia.
Qed.

(** C2. For each fetch wrapper: when all three attempts of its command fail
    with errors that are not authentication errors, [executeCommand] throws the
    error of the third attempt, and the wrapper catches it: it returns the
    empty list ([null] for [readTweet]) and does not throw. *)
Theorem fetch_swallows_transient_failures :
  forall op w,
    transient_failures w
      (finalArgs_of (commandOf op) (argsOf op) ExecOptions.json) 3 ->
    exists lastError w',
      child_process (spawned w + 2) birdPath
        (finalArgs_of (commandOf op) (argsOf op) ExecOptions.json)
        = Rejected lastError
      /\ executeCommand (commandOf op) (argsOf op) ExecOptions.json w
         = (Throw lastError, w')
      /\ spawned w' = spawned w + 3
      /\ match op with
         | Search query limit => search query limit w = (Normal [], w')
         | Mentions limit => getMentions limit w = (Normal [], w')
         | Bookmarks limit => getBookmarks limit w = (Normal [], w')
         | Read tweetId => readTweet tweetId w = (Normal None, w')
         | Replies tweetId limit => getReplies tweetId limit w = (Normal [], w')
         | Thread tweetId => getThread tweetId w = (Normal [], w')
         end.
Proof.
  intros op w Htr.
  destruct (executeCommand_exhausted (commandOf op) (argsOf op) ExecOptions.json w)
    as [e [w' [He [Hx Hs]]]].
  - reflexivity.
  - exact Htr.
  - exists e, w'. split; [exact He|]. split; [exact Hx|]. split; [exact Hs|].
    destruct op; cbn [commandOf argsOf] in Hx;
      unfold search, getMentions, getBookmarks, readTweet, getReplies, getThread,
        tryCatch, bind; rewrite Hx; reflexivity.
Qed.

(** C3, as amended. When the output of the tool parses to a single object,
    [search], [getMentions], [getBookmarks], [getReplies] and [getThread]
    return the one-element list that holds it; [readTweet] returns the object
    itself. *)
Theorem list_fetches_wrap_single_object :
  forall op w out w' o,
    executeCommand (commandOf op) (argsOf op) ExecOptions.json w = (Normal out, w') ->
    JSON_parse out = inr (JObject o) ->
    match op with
    | Search query limit => search query limit w = (Normal [o], w')
    | Mentions limit => getMentions limit w = (Normal [o], w')
    | Bookmarks limit => getBookmarks limit w = (Normal [o], w')
    | Read tweetId => readTweet tweetId w = (Normal (Some (JObject o)), w')
    | Replies tweetId limit => getReplies tweetId limit w = (Normal [o], w')
    | Thread tweetId => getThread tweetId w = (Normal [o], w')
    end.
Proof.
  intros op w out w' o Hx Hp.
  destruct op; cbn [commandOf argsOf] in Hx;
    unfold search, getMentions, getBookmarks, readTweet, getReplies, getThread,
      tryCatch, bind, lift, parseJSON; rewrite Hx, Hp; reflexivity.
Qed.

End GatewayProperties.

Lemma executeCommand_auth_error_aborts_witness :
  exists w',
    @executeCommand (flakyHost 1 "auth token expired") "search" ["q"]
      ExecOptions.json world0
    = (Throw (newError "Authentication error: auth token expired"), w')
    /\ spawned w' = 2.
Proof.
  destruct (@executeCommand_auth_error_aborts (flakyHost 1 "auth token expired")
              "search" ["q"] ExecOptions.json world0 1
              (mkError "Error" "auth token expired"))
    as [w' [H1 [H2 _]]].
  - reflexivity.
  - intros j Hj. destruct j; [|lia]. eexists. split; reflexivity.
  - reflexivity.
  - left. reflexivity.
  - exists w'. split; assumption.
Defined.

Lemma fetch_swallows_transient_failures_witness :
  exists w',
    @search (failingHost "Command failed: timeout") "from:a" (Some 5%Z) world0
    = (Normal [], w')
    /\ spawned w' = 3.
Proof.
  destruct (@fetch_swallows_transient_failures
              (failingHost "Command failed: timeout")
              (Search "from:a" (Some 5%Z)) world0)
    as [e [w' [_ [_ [Hs Hr]]]]].
  - intros j Hj. eexists. split; reflexivity.
  - exists w'. split; assumption.
Defined.

Lemma list_fetches_wrap_single_object_witness :
  exists w',
    @search objectHost "from:a" (Some 5%Z) world0 = (Normal [Tweet.empty], w').
Proof.
  eexists.
  apply (@list_fetches_wrap_single_object objectHost (Search "from:a" (Some 5%Z))
           world0 "{}"); reflexivity.
Defined.

(** C3, as stated, fails for [readTweet]: the tool prints the single object
    [{}] and [readTweet] returns that object, not a list that holds it. *)
Lemma readTweet_returns_bare_object :
  ~ @normalizes_single_object objectHost (Read "1").
Proof.
  intros H.
  specialize (H world0 "{}"
                (mkWorld 1 0 [EvExec "/repo/scripts/social/bird" ["read"; "1"; "--json"]])
                Tweet.empty eq_refl eq_refl).
  discriminate H.
Qed.

(** ** Rounding *)

Lemma Math_round_nearest (q : Q) : nearest_integer q (Math_round q).
Proof.
  unfold nearest_integer, Math_round.
  pose proof (Qfloor_le (q + (1 # 2))) as Hle.
  pose proof (Qlt_floor (q + (1 # 2))) as Hlt.
  rewrite inject_Z_plus in Hlt. change (inject_Z 1) with 1%Q in Hlt.
  split; lra.
Qed.

Lemma Math_round_le (x y : Q) : (x <= y)%Q -> (Math_round x <= Math_round y)%Z.
Proof.
  intros H. unfold Math_round. apply Qfloor_resp_le. lra.
Qed.

Lemma Math_round_nonneg (q : Q) : (0 <= q)%Q -> (0 <= Math_round q)%Z.
Proof.
  intros H. change 0%Z with (Math_round 0).
  apply Math_round_le. exact H.
Qed.

(** Rounding and clamping at 100 commute. *)
Lemma Math_round_Qmin_100 (y : Q) :
  Math_round (Qmin 100 y) = Z.min 100 (Math_round y).
Proof.
  assert (H100 : Math_round 100 = 100%Z) by reflexivity.
  destruct (Q.min_spec 100 y) as [[Hlt Heq] | [Hle Heq]].
  - assert (Hm : Math_round (Qmin 100 y) = Math_round 100).
    { unfold Math_round. apply Qfloor_comp. rewrite Heq. reflexivity. }
    rewrite Hm, H100.
    assert (100 <= Math_round y)%Z.
    { rewrite <- H100. apply Math_round_le. lra. }
    lia.
  - assert (Hm : Math_round (Qmin 100 y) = Math_round y).
    { unfold Math_round. apply Qfloor_comp. rewrite Heq. reflexivity. }
    rewrite Hm.
    assert (Math_round y <= 100)%Z.
    { rewrite <- H100. apply Math_round_le. exact Hle. }
    lia.
Qed.

(** Rounding a half-integer: [Math.round(m / 2)] is [(m + 1) div 2]. *)
Lemma Math_round_half (m : Z) : Math_round (inject_Z m / 2) = ((m + 1) / 2)%Z.
Proof.
  unfold Math_round. rewrite Zdiv_Qdiv. apply Qfloor_comp.
  rewrite inject_Z_plus. change (inject_Z 1) with 1%Q. change (inject_Z 2) with 2%Q.
  field.
Qed.

Lemma Qgtb_true (a b : Q) : Qgtb a b = true <-> (b < a)%Q.
Proof.
  unfold Qgtb. rewrite negb_true_iff. split.
  - intros H. apply Qnot_le_lt. intros Hle.
    apply Qle_bool_iff in Hle. congruence.
  - intros H. destruct (Qle_bool a b) eqn:E; [|reflexivity].
    apply Qle_bool_iff in E. exfalso. apply (Qlt_not_le _ _ H E).
Qed.

Lemma Qgtb_false (a b : Q) : Qgtb a b = false <-> (a <= b)%Q.
Proof.
  unfold Qgtb. rewrite negb_false_iff. apply Qle_bool_iff.
Qed.

(** ** Engagement summaries *)

Section EngagementProperties.
Context {A : Type} `{HasPublicMetrics A}.

Lemma metric_or_0_nonneg field (t : A) : (0 <= metric_or_0 field t)%Z.
Proof.
  unfold metric_or_0. destruct (public_metrics_of t) as [pm|]; [|lia].
  destruct (field pm); lia.
Qed.

Lemma total_nonneg field (tweets : list A) : (0 <= total field tweets)%Z.
Proof.
  unfold total. induction tweets as [|t l IH]; cbn; [lia|].
  pose proof (metric_or_0_nonneg field t). lia.
Qed.

(** The [reduce] of [calculateAverageEngagement] adds the three totals to
    the accumulator. *)
Lemma totals_reduce (tweets : list A) : forall acc,
  fold_left (fun acc t =>
    Engagement.mk
      (Engagement.likes acc + metric_or_0 PublicMetrics.like_count t)
      (Engagement.retweets acc + metric_or_0 PublicMetrics.retweet_count t)
      (Engagement.replies acc + metric_or_0 PublicMetrics.reply_count t))
    tweets acc
  = Engagement.mk
      (Engagement.likes acc + total PublicMetrics.like_count tweets)
      (Engagement.retweets acc + total PublicMetrics.retweet_count tweets)
      (Engagement.replies acc + total PublicMetrics.reply_count tweets).
Proof.
  induction tweets as [|t l IH]; intros acc; cbn [fold_left].
  - unfold total. cbn. destruct acc; cbn. f_equal; lia.
  - rewrite IH. unfold total. cbn. f_equal; lia.
Qed.

Lemma calculateAverageEngagement_nonempty (tweets : list A) :
  tweets <> [] ->
  calculateAverageEngagement tweets
  = Engagement.mk
      (Math_round (mean PublicMetrics.like_count tweets))
      (Math_round (mean PublicMetrics.retweet_count tweets))
      (Math_round (mean PublicMetrics.reply_count tweets)).
Proof.
  intros Hne. unfold calculateAverageEngagement.
  destruct tweets as [|t l]; [congruence|].
  cbn [List.length Nat.eqb]. rewrite totals_reduce. reflexivity.
Qed.

Lemma mean_nonneg field (tweets : list A) : tweets <> [] -> (0 <= mean field tweets)%Q.
Proof.
  intros Hne. unfold mean. apply Qle_shift_div_l.
  - change 0%Q with (inject_Z 0). rewrite <- Zlt_Qlt.
    destruct tweets; [congruence|]. cbn [List.length]. lia.
  - rewrite Qmult_0_l. change 0%Q with (inject_Z 0). rewrite <- Zle_Qle.
    apply total_nonneg.
Qed.

Lemma calculateAverageEngagement_nonneg (tweets : list A) :
  (0 <= Engagement.likes (calculateAverageEngagement tweets))%Z
  /\ (0 <= Engagement.retweets (calculateAverageEngagement tweets))%Z
  /\ (0 <= Engagement.replies (calculateAverageEngagement tweets))%Z.
Proof.
  destruct tweets as [|t l].
  - cbn. lia.
  - rewrite calculateAverageEngagement_nonempty by discriminate.
    cbn [Engagement.likes Engagement.retweets Engagement.replies].
    repeat split; apply Math_round_nonneg; apply mean_nonneg; discriminate.
Qed.

End EngagementProperties.

Lemma mean_of_posts (tweets : list Tweet.t) :
  mean PublicMetrics.like_count tweets = meanOf likesOf tweets
  /\ mean PublicMetrics.retweet_count tweets = meanOf retweetsOf tweets
  /\ mean PublicMetrics.reply_count tweets = meanOf repliesOf tweets.
Proof.
  unfold mean, meanOf, total.
  repeat split; do 3 f_equal; apply map_ext; intros t;
    unfold metric_or_0, public_metrics_of, Tweet_public_metrics,
      likesOf, retweetsOf, repliesOf, countOf; reflexivity.
Qed.

(** C9. For the empty list of posts the engagement summary is
    [{likes: 0, retweets: 0, replies: 0}]; for a non-empty list each of its
    fields is the integer nearest to the mean of that metric over the posts,
    a post counting for what it carries under [public_metrics] and for 0
    when it carries nothing. *)
Theorem calculateAverageEngagement_rounded_mean :
  forall tweets : list Tweet.t,
    (tweets = [] -> calculateAverageEngagement tweets = Engagement.mk 0 0 0)
    /\ (tweets <> [] ->
        nearest_integer (meanOf likesOf tweets)
          (Engagement.likes (calculateAverageEngagement tweets))
        /\ nearest_integer (meanOf retweetsOf tweets)
             (Engagement.retweets (calculateAverageEngagement tweets))
        /\ nearest_integer (meanOf repliesOf tweets)
             (Engagement.replies (calculateAverageEngagement tweets))).
Proof.
  intros tweets. split.
  - intros ->. reflexivity.
  - intros Hne. rewrite calculateAverageEngagement_nonempty by exact Hne.
    cbn [Engagement.likes Engagement.retweets Engagement.replies].
    destruct (mean_of_posts tweets) as [El [Er Ep]]. rewrite El, Er, Ep.
    repeat split; apply Math_round_nearest.
Qed.

(** ** Double arithmetic

    *** The sign of the results *)

Section DoubleSign.
Variables prec emax : Z.

Lemma shr_1_nonneg mrs : (0 <= shr_m mrs)%Z -> (0 <= shr_m (shr_1 mrs))%Z.
Proof.
  destruct mrs as [m r s]. cbn [shr_m]. intros H.
  destruct m as [|[p|p|]|p]; cbn; lia.
Qed.

Lemma iter_pos_invariant {A} (P : A -> Prop) (f : A -> A) :
  (forall x, P x -> P (f x)) -> forall n x, P x -> P (iter_pos f n x).
Proof.
  intros Hf. induction n as [n IH|n IH|]; intros x Hx; cbn.
  - apply IH, IH, Hf, Hx.
  - apply IH, IH, Hx.
  - apply Hf, Hx.
Qed.

Lemma shr_nonneg mrs e n :
  (0 <= shr_m mrs)%Z -> (0 <= shr_m (fst (shr mrs e n)))%Z.
Proof.
  intros H. destruct n as [|p|p]; cbn [shr fst]; try exact H.
  apply (iter_pos_invariant (fun mrs => (0 <= shr_m mrs)%Z));
    [apply shr_1_nonneg|exact H].
Qed.

Lemma shr_fexp_nonneg m e l :
  (0 <= m)%Z -> (0 <= shr_m (fst (shr_fexp prec emax m e l)))%Z.
Proof.
  intros H. unfold shr_fexp. apply shr_nonneg.
  destruct l as [|[| |]]; exact H.
Qed.

Lemma round_nearest_even_nonneg m l :
  (0 <= m)%Z -> (0 <= round_nearest_even m l)%Z.
Proof.
  intros H. destruct l as [|[| |]]; cbn; try lia.
  destruct (Z.even m); lia.
Qed.

(** Rounding a non-negative mantissa with the sign bit clear gives zero, a
    positive double or plus infinity, never NaN. *)
Lemma binary_round_aux_nonneg mx ex lx :
  (0 <= mx)%Z -> nonneg (binary_round_aux prec emax false mx ex lx).
Proof.
  intros H. unfold binary_round_aux.
  pose proof (shr_fexp_nonneg mx ex lx H) as H1.
  destruct (shr_fexp prec emax mx ex lx) as [mrs' e']. cbn [fst] in H1.
  pose proof (shr_fexp_nonneg _ e' loc_Exact
                (round_nearest_even_nonneg _ (loc_of_shr_record mrs') H1)) as H2.
  destruct (shr_fexp prec emax _ e' loc_Exact) as [mrs'' e'']. cbn [fst] in H2.
  destruct (shr_m mrs'') as [|m|m]; [exact I| |lia].
  destruct (e'' <=? emax - prec)%Z; exact I.
Qed.

Lemma binary_round_nonneg mx ex : nonneg (binary_round prec emax false mx ex).
Proof.
  unfold binary_round. destruct (shl_align _ _ _) as [mz ez].
  apply binary_round_aux_nonneg. lia.
Qed.

Lemma binary_normalize_nonneg m e :
  (0 <= m)%Z -> nonneg (binary_normalize prec emax m e false).
Proof.
  intros H. destruct m as [|m|m]; cbn [binary_normalize]; [exact I| |lia].
  apply binary_round_nonneg.
Qed.

Lemma SFmul_nonneg x m e :
  nonneg x -> nonneg (SFmul prec emax x (S754_finite false m e)).
Proof.
  destruct x as [s|s| |s mx ex]; try destruct s; cbn [nonneg SFmul xorb];
    intros H; try (exfalso; exact H); try exact I.
  apply binary_round_aux_nonneg. lia.
Qed.

Lemma SFadd_nonneg x y : nonneg x -> nonneg y -> nonneg (SFadd prec emax x y).
Proof.
  destruct x as [s|s| |s mx ex]; try destruct s;
    destruct y as [s'|s'| |s' my ey]; try destruct s';
    cbn [nonneg SFadd]; intros Hx Hy;
    try (exfalso; exact Hx); try (exfalso; exact Hy); try exact I.
  apply binary_normalize_nonneg. cbn [cond_Zopp]. lia.
Qed.

Lemma SFdiv_nonneg x m e :
  nonneg x -> nonneg (SFdiv prec emax x (S754_finite false m e)).
Proof.
  destruct x as [s|s| |s mx ex]; try destruct s; cbn [nonneg SFdiv xorb];
    intros H; try (exfalso; exact H); try exact I.
  unfold SFdiv_core_binary.
  set (s := (ex - e - _)%Z).
  set (m' := match s with
             | Z0 => Zpos mx
             | Zpos _ => Z.shiftl (Zpos mx) s
             | Zneg _ => 0%Z
             end).
  assert (Hm' : (0 <= m')%Z).
  { subst m'. destruct s; [lia| |lia]. apply Z.shiftl_nonneg. lia. }
  pose proof (Z_div_mod m' (Zpos m) ltac:(lia)) as Hdiv.
  destruct (Z.div_eucl m' (Zpos m)) as [q r].
  apply binary_round_aux_nonneg. nia.
Qed.

Lemma SFmul_comm x y : SFmul prec emax x y = SFmul prec emax y x.
Proof.
  destruct x as [s|s| |s mx ex]; try destruct s;
    destruct y as [s'|s'| |s' my ey]; try destruct s';
    cbn [SFmul xorb]; try reflexivity;
    rewrite (Pos.mul_comm mx my), (Z.add_comm ex ey); reflexivity.
Qed.

End DoubleSign.

Lemma value_nonneg x :
  nonneg x ->
  Double.value x = Number.PosInfinity
  \/ exists q, Double.value x = Number.Finite q /\ (0 <= q)%Q.
Proof.
  destruct x as [s|s| |s m e]; try destruct s; cbn [nonneg Double.value];
    intros H; try (exfalso; exact H).
  - right. exists 0%Q. split; [reflexivity|apply Qle_refl].
  - left. reflexivity.
  - right. eexists. split; [reflexivity|].
    apply Qmult_le_0_compat.
    + cbn [cond_Zopp]. change 0%Q with (inject_Z 0). rewrite <- Zle_Qle. lia.
    + apply Qpower_0_le. discriminate.
Qed.

(** The literals are the correctly rounded quotients. *)
Lemma literals_nearest :
  Double.d0_3 = Double.div (Double.of_Z 3) (Double.of_Z 10)
  /\ Double.d0_4 = Double.div (Double.of_Z 4) (Double.of_Z 10).
Proof. split; reflexivity. Qed.

(** ** Scores *)

(** The weighted engagement of non-negative averages is zero, a positive
    double or plus infinity; it is the same double whether the weights are
    written before or after the averages. *)
Lemma weightedEngagement_nonneg (e : Engagement.t) :
  (0 <= Engagement.likes e)%Z -> (0 <= Engagement.retweets e)%Z ->
  (0 <= Engagement.replies e)%Z ->
  nonneg (weightedEngagement e).
Proof.
  intros Hl Hr Hp. unfold weightedEngagement, Double.div, Double.add, Double.mul.
  change (Double.of_Z 10) with (S754_finite false 5629499534213120 (-49)).
  apply SFdiv_nonneg. apply SFadd_nonneg; [apply SFadd_nonneg|];
    rewrite SFmul_comm; apply SFmul_nonneg; apply binary_normalize_nonneg;
    assumption.
Qed.

Lemma weightedEngagement_code (e : Engagement.t) :
  Double.div
    (Double.add
       (Double.add
          (Double.mul (Double.of_Z (Engagement.likes e)) Double.d0_3)
          (Double.mul (Double.of_Z (Engagement.retweets e)) Double.d0_4))
       (Double.mul (Double.of_Z (Engagement.replies e)) Double.d0_3))
    (Double.of_Z 10)
  = weightedEngagement e.
Proof.
  unfold weightedEngagement, Double.mul.
  rewrite (SFmul_comm _ _ Double.d0_3), (SFmul_comm _ _ Double.d0_4).
  rewrite (SFmul_comm _ _ Double.d0_3 (Double.of_Z (Engagement.replies e))).
  reflexivity.
Qed.

(** Rounding and clamping a double that is not negative gives an integer
    between 0 and 100, and rounding commutes with clamping. *)
Lemma clamped_round_nonneg (x : Double.t) :
  nonneg x ->
  exists z,
    Number.min 100 (Math_round_double x) = Number.Finite z
    /\ roundOfMin100 x = Number.Finite z
    /\ (0 <= z <= 100)%Z.
Proof.
  intros Hx. unfold Math_round_double, roundOfMin100.
  destruct (value_nonneg x Hx) as [->|[q [-> Hq]]]; cbn [Number.min].
  - exists 100%Z. repeat split; lia.
  - exists (Z.min 100 (Math_round q)).
    split; [reflexivity|]. split; [rewrite Math_round_Qmin_100; reflexivity|].
    pose proof (Math_round_nonneg q Hq). lia.
Qed.

(** What [assessCollaborationPotential] returns, by cases on its score. *)
Lemma assessCollaborationPotential_cases (tweets : list Tweet.t) :
  exists z,
    assessCollaborationPotential tweets
    = Collaboration.mk z
        (if (z >? 70)%Z then "high" else if (z >? 40)%Z then "medium" else "low")
        (if (z >? 70)%Z
         then "Strong engagement - excellent collaboration target"
         else if (z >? 40)%Z
              then "Moderate engagement - consider for partnerships"
              else "Lower engagement - monitor before outreach")
    /\ roundOfMin100 (weightedEngagement (calculateAverageEngagement tweets))
       = Number.Finite z
    /\ (0 <= z <= 100)%Z.
Proof.
  destruct (calculateAverageEngagement_nonneg tweets) as [Hl [Hr Hp]].
  destruct (clamped_round_nonneg _ (weightedEngagement_nonneg _ Hl Hr Hp))
    as [z [Hcode [Hspec Hz]]].
  exists z. split; [|split; assumption].
  unfold assessCollaborationPotential. cbv zeta.
  rewrite weightedEngagement_code, Hcode. reflexivity.
Qed.


(** *** Trend strength and the trend insight *)

Section TrendProperties.
Context {rt : Runtime}.

Lemma trendStrength_score_half (e : Engagement.t) :
  Math_round (trendStrengthOf e)
  = ((Engagement.likes e + Engagement.retweets e + 1) / 2)%Z.
Proof. unfold trendStrengthOf. apply Math_round_half. Qed.

(** The level can be read off the rounded score as well: the strength is a
    whole or a half number, so it exceeds a whole bound exactly when its
    rounding does. *)
Lemma trendStrength_exceeds_iff_score (e : Engagement.t) (b : Z) :
  (inject_Z b < trendStrengthOf e)%Q <-> (b < Math_round (trendStrengthOf e))%Z.
Proof.
  rewrite trendStrength_score_half. unfold trendStrengthOf.
  set (m := (Engagement.likes e + Engagement.retweets e)%Z).
  assert (Hq : (inject_Z b < inject_Z m / 2)%Q <-> (inject_Z (2 * b) < inject_Z m)%Q).
  { rewrite inject_Z_mult. change (inject_Z 2) with 2%Q.
    generalize (inject_Z b), (inject_Z m). intros x y.
    assert (E : (y / 2 == y * (1 # 2))%Q) by (field).
    rewrite E. split; intros; lra. }
  rewrite Hq, <- Zlt_Qlt. clearbody m. clear Hq.
  split; intros; Z.div_mod_to_equations; lia.
Qed.

Lemma trendOpportunity_without_strong (r : Report.t) :
  (forall t, In t (Report.trends r) ->
             TrendStrength.level (Trend.trendStrength t) <> "strong") ->
  trendOpportunity r = r.
Proof.
  intros H. unfold trendOpportunity.
  destruct (0 <? List.length (Report.trends r)); [|reflexivity].
  replace (filter _ (Report.trends r)) with (@nil Trend.t); [reflexivity|].
  symmetry. induction (Report.trends r) as [|t l IH]; [reflexivity|].
  cbn [filter].
  destruct (String.eqb_spec (TrendStrength.level (Trend.trendStrength t)) "strong") as [E|E].
  - exfalso. apply (H t); [left; reflexivity|exact E].
  - apply IH. intros t' Ht'. apply H. right. exact Ht'.
Qed.

Lemma competitorPositioning_trends r :
  Report.trends (competitorPositioning r) = Report.trends r.
Proof. unfold competitorPositioning. destruct (0 <? _); reflexivity. Qed.

Lemma collaborationOpportunity_trends r :
  Report.trends (collaborationOpportunity r) = Report.trends r.
Proof.
  unfold collaborationOpportunity.
  destruct (0 <? _); [|reflexivity]. destruct (0 <? _); reflexivity.
Qed.

Lemma competitorPositioning_insights r i :
  In i (Report.insights (competitorPositioning r)) ->
  In i (Report.insights r) \/ insight_type i = "competitor-positioning".
Proof.
  unfold competitorPositioning. destruct (0 <? _); [|auto].
  cbn [push_insight Report.insights]. intros Hin.
  apply in_app_or in Hin. destruct Hin as [Hin|[<-|[]]]; auto.
Qed.

Lemma collaborationOpportunity_insights r i :
  In i (Report.insights (collaborationOpportunity r)) ->
  In i (Report.insights r) \/ insight_type i = "collaboration-opportunity".
Proof.
  unfold collaborationOpportunity. destruct (0 <? _); [|auto].
  destruct (0 <? _); [|auto].
  cbn [push_insight Report.insights]. intros Hin.
  apply in_app_or in Hin. destruct Hin as [Hin|[<-|[]]]; auto.
Qed.

(** No trend insight is added when no trend entry is "strong". *)
Lemma generateInsights_without_strong (r : Report.t) :
  (forall t, In t (Report.trends r) ->
             TrendStrength.level (Trend.trendStrength t) <> "strong") ->
  forall i, In i (Report.insights (generateInsights r)) ->
            insight_type i = "trend-opportunity" ->
            In i (Report.insights r).
Proof.
  intros H i Hin Hty. unfold generateInsights in Hin.
  rewrite trendOpportunity_without_strong in Hin.
  - apply collaborationOpportunity_insights in Hin.
    destruct Hin as [Hin|E]; [|rewrite E in Hty; discriminate].
    apply competitorPositioning_insights in Hin.
    destruct Hin as [Hin|E]; [exact Hin|rewrite E in Hty; discriminate].
  - rewrite collaborationOpportunity_trends, competitorPositioning_trends. exact H.
Qed.

Lemma calculateTrendStrength_100_50 (p : Tweet.t) :
  has_counts p 100 50 ->
  calculateTrendStrength [p] = TrendStrength.mk 75 "moderate".
Proof.
  intros [pm [Hpm [Hl Hr]]].
  destruct p as [tx ft ah us ca pmo]. cbn in Hpm. subst pmo.
  destruct pm as [lc rc pc qc]. cbn in Hl, Hr. subst lc rc.
  reflexivity.
Qed.

(** C6. The trend score is round((likes + retweets) / 2) of the engagement
    summary; the level is "strong" when that strength exceeds 100, "moderate"
    when it exceeds 50 but not 100, and "weak" otherwise.  A single post with
    100 likes and 50 retweets gives score 75 and level "moderate", and a report
    whose trend entries all have that strength receives no trend insight. *)
Theorem calculateTrendStrength_banding :
  forall (tweets : list Tweet.t) (p : Tweet.t) (r : Report.t),
    (TrendStrength.score (calculateTrendStrength tweets)
     = Math_round (trendStrengthOf (calculateAverageEngagement tweets))
     /\ ((100 < trendStrengthOf (calculateAverageEngagement tweets))%Q ->
         TrendStrength.level (calculateTrendStrength tweets) = "strong")
     /\ ((50 < trendStrengthOf (calculateAverageEngagement tweets))%Q ->
         (trendStrengthOf (calculateAverageEngagement tweets) <= 100)%Q ->
         TrendStrength.level (calculateTrendStrength tweets) = "moderate")
     /\ ((trendStrengthOf (calculateAverageEngagement tweets) <= 50)%Q ->
         TrendStrength.level (calculateTrendStrength tweets) = "weak"))
    /\ (has_counts p 100 50 ->
        calculateTrendStrength [p] = TrendStrength.mk 75 "moderate"
        /\ ((forall t, In t (Report.trends r) ->
                       Trend.trendStrength t = calculateTrendStrength [p]) ->
            forall i, In i (Report.insights (generateInsights r)) ->
                      insight_type i = "trend-opportunity" ->
                      In i (Report.insights r))).
Proof.
  intros tweets p r. split.
  - assert (Hlevel :
      TrendStrength.level (calculateTrendStrength tweets)
      = if Qgtb (trendStrengthOf (calculateAverageEngagement tweets)) 100
        then "strong"
        else if Qgtb (trendStrengthOf (calculateAverageEngagement tweets)) 50
             then "moderate" else "weak") by reflexivity.
    split; [reflexivity|]. rewrite Hlevel.
    repeat split.
    + intros H. apply Qgtb_true in H. rewrite H. reflexivity.
    + intros H1 H2. apply Qgtb_true in H1. apply Qgtb_false in H2.
      rewrite H1, H2. reflexivity.
    + intros H.
      assert (H' : (trendStrengthOf (calculateAverageEngagement tweets) <= 100)%Q) by lra.
      apply Qgtb_false in H, H'. rewrite H, H'. reflexivity.
  - intros Hp. pose proof (calculateTrendStrength_100_50 p Hp) as E.
    split; [exact E|].
    intros Hall. apply generateInsights_without_strong.
    intros t Ht. rewrite (Hall t Ht), E. cbn. discriminate.
Qed.

End TrendProperties.

(** ** Recommendations *)

(** An element of [topTweets] has no [public_metrics]: every metric read from
    it by [calculateAverageEngagement] is 0. *)
Lemma total_topTweets field (posts : list TopTweet.t) : total field posts = 0%Z.
Proof.
  unfold total. induction posts as [|t l IH]; [reflexivity|].
  cbn [map fold_right]. rewrite IH. reflexivity.
Qed.

Lemma calculateAverageEngagement_topTweets (posts : list TopTweet.t) :
  calculateAverageEngagement posts = Engagement.mk 0 0 0.
Proof.
  destruct posts as [|t l]; [reflexivity|].
  rewrite calculateAverageEngagement_nonempty by discriminate.
  unfold mean. rewrite !total_topTweets.
  assert (E : Math_round (inject_Z 0 / inject_Z (Z.of_nat (List.length (t :: l)))) = 0%Z).
  { change 0%Z with (Math_round 0) at 2. unfold Math_round. apply Qfloor_comp.
    unfold Qdiv. rewrite Qmult_0_l. reflexivity. }
  rewrite E. reflexivity.
Qed.

(** The comparison of recommendation 2 is therefore always 0 > 0. *)
Lemma engagementOptimization_idle (r : Report.t) : engagementOptimization r = r.
Proof.
  unfold engagementOptimization.
  rewrite calculateAverageEngagement_topTweets. reflexivity.
Qed.

(** The fixed posting-strategy recommendation is always the last one. *)
Lemma generateRecommendations_posting_last (r : Report.t) :
  Report.recommendations (generateRecommendations r)
  = Report.recommendations (contentOpportunities r)
    ++ [PostingStrategy "daily" "high"
          "Competitors maintain daily posting for niche relevance"].
Proof.
  unfold generateRecommendations. rewrite engagementOptimization_idle. reflexivity.
Qed.

Lemma contentOpportunities_types (r : Report.t) :
  recommends "engagement-strategy" (contentOpportunities r)
  = recommends "engagement-strategy" r.
Proof.
  unfold contentOpportunities.
  generalize (Dict.entries
                (fold_left (fun acc g => Dict.set acc g (get_or_0 acc g + 1)%Z)
                   (flatMap Trend.contentGaps (Report.trends r)) Dict.empty)).
  intros l. revert r. induction l as [|e l IH]; intros r; [reflexivity|].
  cbn [fold_left]. rewrite IH.
  destruct (snd e >? 0)%Z; [|reflexivity].
  unfold recommends. cbn [push_recommendation Report.recommendations].
  rewrite existsb_app. cbn. rewrite orb_false_r. reflexivity.
Qed.

(** Whatever the report, [generateRecommendations] adds no engagement-strategy
    recommendation. *)
Lemma generateRecommendations_no_engagement_strategy (r : Report.t) :
  recommends "engagement-strategy" (generateRecommendations r)
  = recommends "engagement-strategy" r.
Proof.
  unfold recommends. rewrite generateRecommendations_posting_last.
  rewrite existsb_app. cbn. rewrite orb_false_r.
  apply contentOpportunities_types.
Qed.

(** C4 at a run whose competitor posts draw more replies than likes: the mean
    reply count of the top posts (5) exceeds their mean like count (1), and
    the report holds no engagement-strategy recommendation. *)
Theorem engagement_strategy_missing :
  exists r w,
    demoRun chattyHost = (Normal r, w)
    /\ map TopTweet.engagement (flatMap Competitor.topTweets (Report.competitors r))
       = [Engagement.mk 1 0 5]
    /\ (topPostsMean Engagement.likes r < topPostsMean Engagement.replies r)%Q
    /\ recommends "engagement-strategy" r = false
    /\ recommends "posting-strategy" r = true.
Proof.
  eexists. eexists. split; [vm_compute; reflexivity|].
  split; [reflexivity|].
  split; [vm_compute; reflexivity|].
  split; vm_compute; reflexivity.
Qed.

(** ** Content gaps *)

Section ContentGapProperties.
Context {rt : Runtime}.

Lemma loweredTexts_of tweets texts :
  texts_of tweets texts ->
  loweredTexts tweets = Normal (map toLowerCase texts).
Proof.
  unfold texts_of. revert texts.
  induction tweets as [|t l IH]; intros [|x xs] H; try discriminate.
  - reflexivity.
  - cbn [map] in H. injection H as Hx Hxs.
    cbn [loweredTexts]. rewrite Hx, (IH xs Hxs). reflexivity.
Qed.

(** A post without text makes the lowering throw. *)
Lemma loweredTexts_throws tweets :
  In None (map text_or_full_text tweets) ->
  loweredTexts tweets = Throw (undefinedMethod "toLowerCase").
Proof.
  induction tweets as [|t l IH]; cbn [map In loweredTexts]; [tauto|].
  intros [E|Hin].
  - rewrite E. reflexivity.
  - destruct (text_or_full_text t); [|reflexivity].
    rewrite (IH Hin). reflexivity.
Qed.

(** The keys of [found], in the order of [angles]. *)
Lemma found_keys (text : string) :
  Dict.keys
    (fold_left (fun (found : Dict.t bool) angle =>
                  if negb (includes text (fst angle))
                  then Dict.set found (snd angle) true
                  else found)
       angles Dict.empty)
  = absentAngles text.
Proof.
  unfold absentAngles, angles. cbn [fold_left filter map fst snd].
  destruct (includes text "how to"), (includes text "why"),
    (includes text "case study"), (includes text "mistake"),
    (includes text "framework"); reflexivity.
Qed.

(** C7, as amended. For posts that all have a text, [identifyContentGaps]
    returns the weight tags of exactly the canonical angles whose keyword is
    absent from the lowercased texts joined by spaces, in the order of the
    angles: none when all five keywords occur, all five when none occurs. *)
Theorem identifyContentGaps_absent_angles :
  forall tweets texts,
    texts_of tweets texts ->
    identifyContentGaps tweets = Normal (absentAngles (joinedLowerText texts))
    /\ ((forall angle, In angle angles ->
                       includes (joinedLowerText texts) (fst angle) = true) ->
        identifyContentGaps tweets = Normal [])
    /\ ((forall angle, In angle angles ->
                       includes (joinedLowerText texts) (fst angle) = false) ->
        identifyContentGaps tweets
        = Normal ["tactical"; "educational"; "proof"; "contrarian"; "systematic"])
    /\ (forall tag, In tag (absentAngles (joinedLowerText texts)) <->
                    exists keyword, In (keyword, tag) angles
                                    /\ includes (joinedLowerText texts) keyword = false).
Proof.
  intros tweets texts Ht.
  assert (E : identifyContentGaps tweets = Normal (absentAngles (joinedLowerText texts))).
  { unfold identifyContentGaps. rewrite (loweredTexts_of _ _ Ht).
    cbn [cbind]. rewrite found_keys. reflexivity. }
  split; [exact E|]. split; [|split].
  - intros Hall. rewrite E. unfold absentAngles, angles.
    cbn [filter].
    rewrite !Hall by (unfold angles; cbn; tauto). reflexivity.
  - intros Hnone. rewrite E. unfold absentAngles, angles.
    cbn [filter].
    rewrite !Hnone by (unfold angles; cbn; tauto). reflexivity.
  - intros tag. unfold absentAngles. rewrite in_map_iff. split.
    + intros [[kw tg] [Htag Hin]]. cbn in Htag. subst tg.
      apply filter_In in Hin. destruct Hin as [Hin Hb]. cbn in Hb.
      exists kw. split; [exact Hin|]. apply negb_true_iff. exact Hb.
    + intros [kw [Hin Hb]]. exists (kw, tag). split; [reflexivity|].
      apply filter_In. split; [exact Hin|]. cbn. rewrite Hb. reflexivity.
Qed.

End ContentGapProperties.

Lemma identifyContentGaps_absent_angles_witness :
  @identifyContentGaps demoHost [demoPost; chattyPost]
  = Normal ["tactical"; "educational"; "proof"; "contrarian"; "systematic"].
Proof.
  destruct (@identifyContentGaps_absent_angles demoHost [demoPost; chattyPost]
              ["X marks the spot"; "Which X do you use?"] eq_refl)
    as [_ [_ [H _]]].
  apply H. intros angle Hin.
  repeat (destruct Hin as [<-|Hin]; [reflexivity|]). destruct Hin.
Defined.

(** C7, as stated, fails on a post whose text is empty: [identifyContentGaps]
    throws where the specification promises the five weight tags. *)
Lemma identifyContentGaps_throws_on_blank_post :
  @identifyContentGaps demoHost [blankPost] = Throw (undefinedMethod "toLowerCase")
  /\ ~ (exists gaps, @identifyContentGaps demoHost [blankPost] = Normal gaps).
Proof.
  split; [reflexivity|]. intros [gaps H]. discriminate H.
Qed.

(** ** Dictionaries and sorting *)

Lemma Array_includes_In l x : Array_includes l x = true <-> In x l.
Proof.
  unfold Array_includes. rewrite existsb_exists. split.
  - intros [y [Hy E]]. apply String.eqb_eq in E. subst. exact Hy.
  - intros H. exists x. split; [exact H|apply String.eqb_refl].
Qed.

Lemma inherited_In k : inherited k = true <-> In k Object_prototype.
Proof. apply Array_includes_In. Qed.

Lemma plain_not_inherited k : plain k -> inherited k = false.
Proof.
  intros Hp. destruct (inherited k) eqn:E; [|reflexivity].
  exfalso. apply Hp. apply inherited_In. exact E.
Qed.

Lemma plain_not_proto k : plain k -> String.eqb k "__proto__" = false.
Proof.
  intros Hp. destruct (String.eqb_spec k "__proto__") as [->|]; [|reflexivity].
  exfalso. apply Hp. cbn. tauto.
Qed.

Section DictProperties.
Context {V : Type}.

Lemma get_set_same (d : Dict.t V) k v : Dict.get (Dict.set d k v) k = Some v.
Proof.
  induction d as [|[k' v'] d IH]; cbn.
  - rewrite String.eqb_refl. reflexivity.
  - destruct (String.eqb_spec k' k) as [E|E]; cbn.
    + subst. rewrite String.eqb_refl. reflexivity.
    + destruct (String.eqb_spec k' k); [contradiction|exact IH].
Qed.

Lemma get_set_other (d : Dict.t V) k v k' :
  k' <> k -> Dict.get (Dict.set d k v) k' = Dict.get d k'.
Proof.
  intros Hne. induction d as [|[k0 v0] d IH]; cbn.
  - destruct (String.eqb_spec k k'); [congruence|reflexivity].
  - destruct (String.eqb_spec k0 k) as [E|E]; cbn.
    + subst. destruct (String.eqb_spec k k'); [congruence|reflexivity].
    + rewrite IH. reflexivity.
Qed.

Lemma in_keys_get (d : Dict.t V) k :
  In k (map fst d) <-> Dict.get d k <> None.
Proof.
  induction d as [|[k0 v0] d IH]; cbn.
  - split; [tauto|congruence].
  - destruct (String.eqb_spec k0 k) as [E|E].
    + split; [congruence|auto].
    + rewrite <- IH. split; [intros [H|H]; [contradiction|exact H]|auto].
Qed.

Lemma in_keys_set (d : Dict.t V) k v k' :
  In k' (map fst (Dict.set d k v)) <-> k' = k \/ In k' (map fst d).
Proof.
  rewrite !in_keys_get.
  destruct (string_dec k' k) as [E|E].
  - subst. rewrite get_set_same. split; [auto|congruence].
  - rewrite get_set_other by exact E. tauto.
Qed.

Lemma NoDup_keys_set (d : Dict.t V) k v :
  NoDup (map fst d) -> NoDup (map fst (Dict.set d k v)).
Proof.
  induction d as [|[k0 v0] d IH]; cbn; intros Hnd.
  - constructor; [tauto|constructor].
  - inversion Hnd as [|? ? Hnin Hnd']; subst.
    destruct (String.eqb_spec k0 k) as [E|E]; cbn.
    + constructor; assumption.
    + constructor; [|apply IH; exact Hnd'].
      rewrite in_keys_set. intros [H|H]; [congruence|contradiction].
Qed.

Lemma get_of_in (d : Dict.t V) k v :
  NoDup (map fst d) -> In (k, v) d -> Dict.get d k = Some v.
Proof.
  induction d as [|[k0 v0] d IH]; cbn; intros Hnd Hin; [tauto|].
  inversion Hnd as [|? ? Hnin Hnd']; subst.
  destruct Hin as [E|Hin].
  - injection E as -> ->. rewrite String.eqb_refl. reflexivity.
  - destruct (String.eqb_spec k0 k) as [E|E].
    + subst. exfalso. apply Hnin. apply in_map_iff. exists (k, v). auto.
    + apply IH; assumption.
Qed.

Lemma insert_index_perm (kv : string * V) l :
  Permutation (Dict.insert_index kv l) (kv :: l).
Proof.
  induction l as [|kv' l IH]; cbn; [reflexivity|].
  destruct (Dict.index_of kv <=? Dict.index_of kv')%N; [reflexivity|].
  rewrite IH. apply perm_swap.
Qed.

Lemma filter_partition_perm {X} (p : X -> bool) (l : list X) :
  Permutation (filter p l ++ filter (fun x => negb (p x)) l) l.
Proof.
  induction l as [|x l IH]; cbn; [reflexivity|].
  destruct (p x); cbn.
  - apply perm_skip. exact IH.
  - rewrite <- Permutation_middle. apply perm_skip. exact IH.
Qed.

(** [Object.entries] lists every property once. *)
Lemma entries_perm (d : Dict.t V) : Permutation (Dict.entries d) d.
Proof.
  unfold Dict.entries.
  rewrite <- (filter_partition_perm Dict.is_index d) at 3.
  apply Permutation_app_tail.
  induction (filter Dict.is_index d) as [|kv l IH]; cbn; [reflexivity|].
  rewrite insert_index_perm. apply perm_skip. exact IH.
Qed.

End DictProperties.

Section SortProperties.
Context {X : Type} (cmp : X -> X -> Z).

Lemma sort_insert_perm x l : Permutation (sort_insert cmp x l) (x :: l).
Proof.
  induction l as [|y l IH]; cbn; [reflexivity|].
  destruct (cmp x y <=? 0)%Z; [reflexivity|].
  rewrite IH. apply perm_swap.
Qed.

Lemma Array_sort_perm l : Permutation (Array_sort cmp l) l.
Proof.
  induction l as [|x l IH]; cbn; [reflexivity|].
  rewrite sort_insert_perm. apply perm_skip. exact IH.
Qed.

(** The comparator orders any two elements one way or the other. *)
Hypothesis cmp_total : forall a b, (cmp a b <= 0)%Z \/ (cmp b a <= 0)%Z.

Lemma sort_insert_sorted x l :
  Sorted (fun a b => (cmp a b <= 0)%Z) l ->
  Sorted (fun a b => (cmp a b <= 0)%Z) (sort_insert cmp x l).
Proof.
  induction l as [|y l IH]; cbn; intros Hs.
  - constructor; constructor.
  - destruct (Z.leb_spec (cmp x y) 0) as [Hle|Hgt].
    + constructor; [exact Hs|constructor; exact Hle].
    + inversion Hs as [|? ? Hs' Hhd]; subst.
      constructor; [apply IH; exact Hs'|].
      destruct l as [|z l]; cbn.
      * constructor. destruct (cmp_total y x); lia.
      * destruct (Z.leb_spec (cmp x z) 0).
        -- constructor. destruct (cmp_total y x); lia.
        -- inversion Hhd; subst. constructor. assumption.
Qed.

Lemma Array_sort_sorted l : Sorted (fun a b => (cmp a b <= 0)%Z) (Array_sort cmp l).
Proof.
  induction l as [|x l IH]; cbn; [constructor|].
  apply sort_insert_sorted. exact IH.
Qed.

End SortProperties.

Lemma sort_insert_map {A B} (f : A -> B) (cmp : B -> B -> Z) x l :
  sort_insert cmp (f x) (map f l)
  = map f (sort_insert (fun a b => cmp (f a) (f b)) x l).
Proof.
  induction l as [|y l IH]; cbn; [reflexivity|].
  destruct (cmp (f x) (f y) <=? 0)%Z; [reflexivity|].
  cbn. rewrite IH. reflexivity.
Qed.

Lemma Array_sort_map {A B} (f : A -> B) (cmp : B -> B -> Z) l :
  Array_sort cmp (map f l) = map f (Array_sort (fun a b => cmp (f a) (f b)) l).
Proof.
  induction l as [|x l IH]; [reflexivity|].
  change (sort_insert cmp (f x) (Array_sort cmp (map f l))
          = map f (sort_insert (fun a b => cmp (f a) (f b)) x
                     (Array_sort (fun a b => cmp (f a) (f b)) l))).
  rewrite IH. apply sort_insert_map.
Qed.

Lemma sort_insert_ext {A} (cmp cmp' : A -> A -> Z) x l :
  (forall a b, cmp a b = cmp' a b) -> sort_insert cmp x l = sort_insert cmp' x l.
Proof.
  intros Hext. induction l as [|y l IH]; cbn; [reflexivity|].
  rewrite Hext, IH. reflexivity.
Qed.

Lemma Array_sort_ext {A} (cmp cmp' : A -> A -> Z) l :
  (forall a b, cmp a b = cmp' a b) -> Array_sort cmp l = Array_sort cmp' l.
Proof.
  intros Hext. induction l as [|x l IH]; [reflexivity|].
  change (sort_insert cmp x (Array_sort cmp l)
          = sort_insert cmp' x (Array_sort cmp' l)).
  rewrite IH. apply sort_insert_ext. exact Hext.
Qed.

(** Sorting by descending key, when every key is a number. *)
Lemma sortDescending_nums {A B} (f : A -> B) (key : A -> Z) (keyB : B -> Count.t)
  (engine : list B -> list B) (l : list A) :
  (forall a, keyB (f a) = Count.Num (key a)) ->
  sortDescending keyB engine (map f l)
  = map f (Array_sort (fun a b => (key b - key a)%Z) l).
Proof.
  intros Hkey. unfold sortDescending.
  assert (Hall : forallb (fun a => Count.isNum (keyB a)) (map f l) = true).
  { apply forallb_forall. intros b Hb. apply in_map_iff in Hb.
    destruct Hb as [a [<- _]]. rewrite Hkey. reflexivity. }
  rewrite Hall, Array_sort_map. f_equal. apply Array_sort_ext.
  intros a b. rewrite !Hkey. reflexivity.
Qed.

(** *** Dictionaries of numbers as counting objects *)

Lemma nums_get d k : Dict.get (nums d) k = option_map Count.Num (Dict.get d k).
Proof.
  induction d as [|[k' v] d IH]; cbn; [reflexivity|].
  destruct (String.eqb k' k); [reflexivity|exact IH].
Qed.

Lemma nums_set d k v : Dict.set (nums d) k (Count.Num v) = nums (Dict.set d k v).
Proof.
  induction d as [|[k' v'] d IH]; cbn; [reflexivity|].
  destruct (String.eqb k' k); cbn; [reflexivity|].
  fold (nums d). rewrite IH. reflexivity.
Qed.

Lemma nums_insert_index kv l :
  Dict.insert_index (fst kv, Count.Num (snd kv)) (nums l)
  = nums (Dict.insert_index kv l).
Proof.
  induction l as [|kv' l IH]; cbn; [reflexivity|].
  change (Dict.index_of (fst kv, Count.Num (snd kv))) with (Dict.index_of kv).
  change (Dict.index_of (fst kv', Count.Num (snd kv'))) with (Dict.index_of kv').
  destruct (Dict.index_of kv <=? Dict.index_of kv')%N; [reflexivity|].
  cbn. fold (nums l). rewrite IH. reflexivity.
Qed.

Lemma nums_filter (p : string -> bool) d :
  filter (fun kv => p (fst kv)) (nums d) = nums (filter (fun kv => p (fst kv)) d).
Proof.
  induction d as [|kv d IH]; cbn; [reflexivity|].
  fold (nums d). rewrite IH. destruct (p (fst kv)); reflexivity.
Qed.

Lemma nums_fold_insert l :
  fold_right Dict.insert_index [] (nums l)
  = nums (fold_right Dict.insert_index [] l).
Proof.
  induction l as [|kv l IH]; [reflexivity|].
  change (Dict.insert_index (fst kv, Count.Num (snd kv))
            (fold_right Dict.insert_index [] (nums l))
          = nums (Dict.insert_index kv (fold_right Dict.insert_index [] l))).
  rewrite IH. apply nums_insert_index.
Qed.

Lemma nums_entries d : Dict.entries (nums d) = nums (Dict.entries d).
Proof.
  unfold Dict.entries.
  pose proof (nums_filter
                (fun k => match Dict.array_index k with Some _ => true | None => false end)
                d) as H1.
  pose proof (nums_filter
                (fun k => negb match Dict.array_index k with
                               | Some _ => true | None => false end)
                d) as H2.
  unfold Dict.is_index. cbv beta in H1, H2. rewrite H1, H2.
  rewrite nums_fold_insert. unfold nums. rewrite map_app. reflexivity.
Qed.

(** ** Content themes *)

Lemma Sorted_weaken {X} (R R' : X -> X -> Prop) (l : list X) :
  (forall a b, R a b -> R' a b) -> Sorted R l -> Sorted R' l.
Proof.
  intros HR. induction 1 as [|a l Hs IH Hhd]; constructor; [exact IH|].
  destruct Hhd; constructor. apply HR. assumption.
Qed.

Lemma StronglySorted_map {X Y} (f : X -> Y) (R : Y -> Y -> Prop) (l : list X) :
  StronglySorted (fun a b => R (f a) (f b)) l -> StronglySorted R (map f l).
Proof.
  induction 1 as [|a l Hs IH Hall]; cbn [map]; constructor; [exact IH|].
  apply Forall_map. exact Hall.
Qed.

Section ThemeProperties.
Context {rt : Runtime}.

Lemma counted_empty : counted Dict.empty.
Proof. split; [constructor|]. intros k v H. discriminate H. Qed.

Lemma get_or_0_nonneg d k : counted d -> (0 <= get_or_0 d k)%Z.
Proof.
  intros [_ Hpos]. unfold get_or_0.
  destruct (Dict.get d k) as [v|] eqn:E; [|lia].
  specialize (Hpos k v E). lia.
Qed.

Lemma counted_in_keys d k :
  counted d -> (In k (map fst d) <-> (0 < get_or_0 d k)%Z).
Proof.
  intros [_ Hpos]. rewrite in_keys_get. unfold get_or_0.
  destruct (Dict.get d k) as [v|] eqn:E.
  - specialize (Hpos k v E). split; [intros _; exact Hpos|congruence].
  - split; [congruence|lia].
Qed.

Lemma countPlain_counted text d kw : counted d -> counted (countPlain text d kw).
Proof.
  intros Hc. unfold countPlain.
  destruct (includes text (toLowerCase kw)); [|exact Hc].
  pose proof (get_or_0_nonneg d kw Hc) as Hnn. destruct Hc as [Hnd Hpos].
  split; [apply NoDup_keys_set; exact Hnd|].
  intros k v. destruct (string_dec k kw) as [E|E].
  - subst. rewrite get_set_same. intros H. injection H as <-. lia.
  - rewrite get_set_other by exact E. apply Hpos.
Qed.

Lemma countPlain_get text d kw k :
  get_or_0 (countPlain text d kw) k
  = (get_or_0 d k
     + if includes text (toLowerCase kw) && String.eqb kw k then 1 else 0)%Z.
Proof.
  unfold countPlain.
  destruct (includes text (toLowerCase kw)); cbn [andb]; [|lia].
  destruct (String.eqb_spec kw k) as [E|E].
  - subst. unfold get_or_0 at 1. rewrite get_set_same. reflexivity.
  - unfold get_or_0 at 1. rewrite get_set_other by congruence.
    fold (get_or_0 d k). lia.
Qed.

Lemma fold_countPlain_counted text kws : forall d,
  counted d -> counted (fold_left (countPlain text) kws d).
Proof.
  induction kws as [|kw kws IH]; intros d Hc; cbn [fold_left]; [exact Hc|].
  apply IH. apply countPlain_counted. exact Hc.
Qed.

Lemma fold_countPlain_get text kws k : forall d,
  get_or_0 (fold_left (countPlain text) kws d) k
  = (get_or_0 d k
     + if includes text (toLowerCase k)
       then Z.of_nat (count_occ string_dec kws k) else 0)%Z.
Proof.
  induction kws as [|kw kws IH]; intros d; cbn [fold_left count_occ].
  - destruct (includes text (toLowerCase k)); cbn; lia.
  - rewrite IH, countPlain_get.
    destruct (string_dec kw k) as [E|E].
    + subst. rewrite String.eqb_refl, andb_true_r.
      destruct (includes text (toLowerCase k)); lia.
    + destruct (String.eqb_spec kw k); [contradiction|].
      rewrite andb_false_r. lia.
Qed.

(** On a key that names no member of [Object.prototype], reading with
    [|| 0], adding a number and writing back is the plain update of a
    dictionary of numbers. *)
Lemma Object_update_plain d k n :
  plain k ->
  Object_set (nums d) k
    (Count.plus (Object_get_or_0 (nums d) k) (Count.Num n))
  = nums (Dict.set d k (get_or_0 d k + n)%Z).
Proof.
  intros Hp. unfold Object_set, Object_get_or_0, get_or_0.
  rewrite (plain_not_proto k Hp), nums_get, (plain_not_inherited k Hp).
  destruct (Dict.get d k) as [v|]; cbn [option_map Count.or_0 Count.truthy].
  - destruct (Z.eqb_spec v 0) as [->|_]; cbn [negb Count.plus]; apply nums_set.
  - cbn [Count.plus]. apply nums_set.
Qed.

Lemma countKeyword_plain text d kw :
  plain kw -> countKeyword text (nums d) kw = nums (countPlain text d kw).
Proof.
  intros Hp. unfold countKeyword, countPlain.
  destruct (includes text (toLowerCase kw)); [|reflexivity].
  apply Object_update_plain. exact Hp.
Qed.

Lemma fold_countKeyword_plain text kws : forall d,
  Forall plain kws ->
  fold_left (countKeyword text) kws (nums d)
  = nums (fold_left (countPlain text) kws d).
Proof.
  induction kws as [|kw kws IH]; intros d Hp; cbn [fold_left]; [reflexivity|].
  inversion Hp as [|? ? Hkw Hkws]; subst.
  rewrite countKeyword_plain by exact Hkw. apply IH. exact Hkws.
Qed.

(** What [tweets.forEach] of [extractThemes] leaves in [themes], for plain
    keywords. *)
Lemma extractThemes_forEach_counts kws tweets : forall texts d,
  texts_of tweets texts ->
  Forall plain kws ->
  counted d ->
  exists d',
    extractThemes_forEach kws tweets (nums d) = Normal (nums d')
    /\ counted d'
    /\ forall k, get_or_0 d' k
                 = (get_or_0 d k
                    + Z.of_nat (count_occ string_dec kws k * postsMentioning k texts))%Z.
Proof.
  unfold texts_of.
  induction tweets as [|t l IH]; intros [|x xs] d Ht Hp Hc; try discriminate.
  - exists d. split; [reflexivity|]. split; [exact Hc|].
    intros k. unfold postsMentioning. cbn. lia.
  - cbn [map] in Ht. injection Ht as Hx Hxs.
    cbn [extractThemes_forEach]. rewrite Hx.
    rewrite fold_countKeyword_plain by exact Hp.
    destruct (IH xs (fold_left (countPlain (toLowerCase x)) kws d) Hxs Hp
                (fold_countPlain_counted _ _ _ Hc)) as [d' [Hr [Hc' Hget]]].
    exists d'. split; [exact Hr|]. split; [exact Hc'|].
    intros k. rewrite Hget, fold_countPlain_get.
    unfold postsMentioning. cbn [filter]. unfold mentions at 2.
    destruct (includes (toLowerCase x) (toLowerCase k)); cbn [List.length]; lia.
Qed.

Lemma postsMentioning_pos k texts : (0 < postsMentioning k texts) <-> occurs k texts.
Proof.
  unfold postsMentioning, occurs. split.
  - intros H. destruct (filter (mentions k) texts) as [|x l] eqn:E; [cbn in H; lia|].
    assert (Hin : In x (filter (mentions k) texts)) by (rewrite E; left; reflexivity).
    apply filter_In in Hin. exists x. exact Hin.
  - intros [x Hx]. apply filter_In in Hx.
    destruct (filter (mentions k) texts); [destruct Hx|cbn; lia].
Qed.

(** C8, as amended. For posts that all have a text and configured keywords
    none of which names a member of [Object.prototype], [extractThemes]
    returns one entry per keyword that occurs, case-insensitively, in at
    least one post text and none for the other keywords; the frequency of an
    entry is a number, the count of the posts its keyword occurs in (once per
    listing of the keyword in the configuration); the entries are in
    descending order of frequency.  With the keywords "AI automation",
    "Claude Code" and "newsletter growth", of which only the first two occur,
    there are exactly two entries. *)
Theorem extractThemes_ranked :
  forall config tweets texts,
    texts_of tweets texts ->
    Forall plain (or_empty (Config.keywords config)) ->
    exists themes,
      extractThemes config tweets = Normal themes
      /\ NoDup (map Theme.theme themes)
      /\ (forall k, In k (map Theme.theme themes) <->
                    In k (or_empty (Config.keywords config)) /\ occurs k texts)
      /\ (forall e, In e themes ->
                    Theme.frequency e
                    = Count.Num
                        (Z.of_nat (count_occ string_dec (or_empty (Config.keywords config))
                                     (Theme.theme e)
                                   * postsMentioning (Theme.theme e) texts)))
      /\ StronglySorted
           (fun a b => (numberOf (Theme.frequency b) <= numberOf (Theme.frequency a))%Z)
           themes
      /\ (Config.keywords config
          = Some ["AI automation"; "Claude Code"; "newsletter growth"] ->
          occurs "AI automation" texts -> occurs "Claude Code" texts ->
          ~ occurs "newsletter growth" texts ->
          List.length themes = 2).
Proof.
  intros config tweets texts Ht Hplain.
  set (kws := or_empty (Config.keywords config)) in *.
  destruct (extractThemes_forEach_counts kws tweets texts Dict.empty Ht Hplain
              counted_empty)
    as [d [Hr [Hc Hget]]].
  set (cmp := fun a b : string * Z => (snd b - snd a)%Z).
  set (themeOf := fun kv : string * Z => Theme.mk (fst kv) (Count.Num (snd kv))).
  set (sorted := Array_sort cmp (Dict.entries d)).
  assert (Hx : extractThemes config tweets = Normal (map themeOf sorted)).
  { unfold extractThemes. fold kws. change (@Dict.empty Count.t) with (nums Dict.empty).
    rewrite Hr. cbn [cbind]. rewrite nums_entries. unfold nums. rewrite map_map.
    cbn [fst snd]. f_equal.
    apply (sortDescending_nums themeOf snd Theme.frequency). reflexivity. }
  assert (Hps : Permutation sorted d).
  { unfold sorted. rewrite Array_sort_perm. apply entries_perm. }
  assert (Hkeys : Permutation (map Theme.theme (map themeOf sorted)) (map fst d)).
  { rewrite map_map. cbn [themeOf Theme.theme]. apply Permutation_map. exact Hps. }
  assert (Hin : forall k, In k (map Theme.theme (map themeOf sorted)) <->
                          In k kws /\ occurs k texts).
  { intros k. split.
    - intros H. apply (Permutation_in _ Hkeys) in H.
      apply (counted_in_keys d k Hc) in H. rewrite Hget in H. cbn in H.
      assert (Hc1 : 0 < count_occ string_dec kws k) by nia.
      assert (Hc2 : 0 < postsMentioning k texts) by nia.
      split; [apply (count_occ_In string_dec); lia|apply postsMentioning_pos; exact Hc2].
    - intros [Hk Ho]. apply (Permutation_in _ (Permutation_sym Hkeys)).
      apply (counted_in_keys d k Hc). rewrite Hget. cbn.
      apply (count_occ_In string_dec) in Hk. apply postsMentioning_pos in Ho. nia. }
  assert (Hnd : NoDup (map Theme.theme (map themeOf sorted))).
  { apply (Permutation_NoDup (Permutation_sym Hkeys)). apply Hc. }
  exists (map themeOf sorted). split; [exact Hx|]. split; [exact Hnd|].
  split; [exact Hin|]. split; [|split].
  - intros e He. apply in_map_iff in He. destruct He as [[k v] [<- Hkv]].
    cbn [themeOf fst snd Theme.theme Theme.frequency].
    apply (Permutation_in _ Hps) in Hkv.
    apply get_of_in in Hkv; [|apply Hc].
    specialize (Hget k). unfold get_or_0 at 1 in Hget. rewrite Hkv in Hget.
    rewrite Hget. cbn. reflexivity.
  - assert (Hs : StronglySorted (fun a b => (snd b <= snd a)%Z) sorted).
    { apply Sorted_StronglySorted.
      + intros a b c Hab Hbc. lia.
      + apply (Sorted_weaken (fun a b => (cmp a b <= 0)%Z)).
        * intros a b H. unfold cmp in H. lia.
        * apply Array_sort_sorted. intros a b. unfold cmp. lia. }
    apply StronglySorted_map. exact Hs.
  - intros Hk H1 H2 H3.
    rewrite <- (length_map Theme.theme).
    assert (Hp : Permutation (map Theme.theme (map themeOf sorted))
                   ["AI automation"; "Claude Code"]).
    { apply NoDup_Permutation; [exact Hnd| |].
      - constructor; [cbn; intros [E|[]]; discriminate E|].
        constructor; [cbn; tauto|constructor].
      - intros k. rewrite Hin. unfold kws. rewrite Hk. cbn [or_empty In].
        split.
        + intros [[E|[E|[E|[]]]] Ho]; subst; auto.
        + intros [E|[E|[]]]; subst; auto. }
    apply Permutation_length in Hp. exact Hp.
Qed.

End ThemeProperties.

Lemma plain_spec k : inherited k = false -> plain k.
Proof.
  intros E Hin. apply inherited_In in Hin. rewrite Hin in E. discriminate E.
Qed.

Lemma extractThemes_ranked_witness :
  exists themes,
    @extractThemes demoHost themeConfig themePosts = Normal themes
    /\ List.length themes = 2
    /\ map Theme.theme themes = ["Claude Code"; "AI automation"]
    /\ StronglySorted
         (fun a b => (numberOf (Theme.frequency b) <= numberOf (Theme.frequency a))%Z)
         themes.
Proof.
  assert (Hplain : Forall plain (or_empty (Config.keywords themeConfig))).
  { repeat (constructor; [apply plain_spec; reflexivity|]). constructor. }
  destruct (@extractThemes_ranked demoHost themeConfig themePosts themeTexts eq_refl
              Hplain)
    as [themes [Hx [_ [_ [_ [Hs Hl]]]]]].
  exists themes. split; [exact Hx|]. split; [|split; [|exact Hs]].
  - apply Hl.
    + reflexivity.
    + exists "Claude Code makes AI automation easy".
      split; [left; reflexivity|reflexivity].
    + exists "My claude code setup". split; [right; left; reflexivity|reflexivity].
    + intros [text [Hin Hm]].
      repeat (destruct Hin as [<-|Hin]; [discriminate Hm|]). destruct Hin.
  - vm_compute in Hx. injection Hx as <-. reflexivity.
Defined.

(** The entries of the example, the more frequent keyword first. *)
Lemma extractThemes_example :
  @extractThemes demoHost themeConfig themePosts
  = Normal [Theme.mk "Claude Code" (Count.Num 3);
            Theme.mk "AI automation" (Count.Num 2)].
Proof. reflexivity. Qed.

(** C8, as stated, fails on a post whose text is empty: [extractThemes] throws
    and returns no entries at all. *)
Lemma extractThemes_throws_on_blank_post :
  @extractThemes demoHost themeConfig [blankPost] = Throw (undefinedMethod "toLowerCase")
  /\ ~ (exists themes, @extractThemes demoHost themeConfig [blankPost] = Normal themes).
Proof.
  split; [reflexivity|]. intros [themes H]. discriminate H.
Qed.

(** It also fails on a keyword that names a member of [Object.prototype].
    The keyword [constructor] occurs in two of the three posts below, and its
    entry has the text of the inherited function followed by one "1" per post
    as its frequency, not the number 2; the keyword [__proto__] occurs in one
    post and gets no entry. *)
Lemma extractThemes_inherited_keywords :
  @extractThemes demoHost
    (Config.mk (Some ["constructor"; "__proto__"]) None None)
    [textPost "A constructor in JS"; textPost "the __proto__ chain";
     textPost "constructor again"]
  = Normal [Theme.mk "constructor"
              (Count.Str "function Object() { [native code] }11")].
Proof. reflexivity. Qed.

(** ** The report *)

Section ReportProperties.
Context {rt : Runtime}.

Lemma saveReport_summary self w self' w' :
  saveReport self w = (Normal self', w') ->
  CI.report self' = with_summary (CI.report self)
  /\ exists path tr, trace w' = EvWrite path (CI.report self') :: tr.
Proof.
  unfold saveReport, bind, Date_now, saveResults, bind, mkdirSync, writeFileSync, ret.
  cbn [set_report CI.report CI.brand].
  destruct (negb (fs_existsSync _)).
  - destruct (fs_mkdirSync _); [discriminate|].
    destruct (fs_writeFileSync _); [discriminate|].
    intros E. injection E as <- <-. split; [reflexivity|].
    cbn [trace CI.report]. eauto.
  - destruct (fs_writeFileSync _); [discriminate|].
    intros E. injection E as <- <-. split; [reflexivity|].
    cbn [trace CI.report]. eauto.
Qed.

(** A [try] whose [catch] returns a value never throws. *)
Lemma tryCatch_ret_total {X} (c : M X) (h : jsError -> X) w :
  exists a w', tryCatch c (fun e => ret (h e)) w = (Normal a, w').
Proof.
  unfold tryCatch, ret. destruct (c w) as [[a|e] w']; eauto.
Qed.

Lemma forOf_total {X} (body : CI.t -> X -> M CI.t) (xs : list X) :
  (forall self x w, exists self' w', body self x w = (Normal self', w')) ->
  forall self w, exists self' w', forOf body xs self w = (Normal self', w').
Proof.
  intros Hb. induction xs as [|x xs IH]; intros self w; cbn [forOf].
  - unfold ret. eauto.
  - unfold bind. destruct (Hb self x w) as [s1 [w1 E]]. rewrite E. apply IH.
Qed.

(** The three gathering phases never throw: every failure inside an
    iteration is caught there. *)
Lemma analyzeCompetitors_total self w :
  exists self' w', analyzeCompetitors self w = (Normal self', w').
Proof.
  apply forOf_total. intros s x w0. unfold analyzeCompetitor.
  apply (tryCatch_ret_total _ (fun _ => s)).
Qed.

Lemma analyzeInfluencers_total self w :
  exists self' w', analyzeInfluencers self w = (Normal self', w').
Proof.
  apply forOf_total. intros s x w0. unfold analyzeInfluencer.
  apply (tryCatch_ret_total _ (fun _ => s)).
Qed.

Lemma identifyTrends_total self w :
  exists self' w', identifyTrends self w = (Normal self', w').
Proof.
  apply forOf_total. intros s x w0. unfold identifyTrend.
  apply (tryCatch_ret_total _ (fun _ => s)).
Qed.

(** A run completes whenever the directory can be made and the file written. *)
Lemma run_completes self options w :
  (forall dir, fs_mkdirSync dir = None) ->
  (forall path, fs_writeFileSync path = None) ->
  exists r w', run self options w = (Normal r, w').
Proof.
  intros Hmk Hwr. unfold run, tryCatch, bind.
  destruct (RunOptions.influencersOnly options) as [[|]|];
    destruct (RunOptions.competitorsOnly options) as [[|]|]; cbn [negb];
    repeat match goal with
      | |- context [analyzeCompetitors ?s ?w0] =>
          let E := fresh "E" in
          destruct (analyzeCompetitors_total s w0) as [? [? E]]; rewrite E
      | |- context [analyzeInfluencers ?s ?w0] =>
          let E := fresh "E" in
          destruct (analyzeInfluencers_total s w0) as [? [? E]]; rewrite E
      | |- context [identifyTrends ?s ?w0] =>
          let E := fresh "E" in
          destruct (identifyTrends_total s w0) as [? [? E]]; rewrite E
      | |- context [ret ?s ?w0] => unfold ret at 1
      end;
    unfold saveReport, bind, Date_now, saveResults, bind, mkdirSync, writeFileSync, ret;
    rewrite Hwr; destruct (negb (fs_existsSync _)); try rewrite Hmk; eauto.
Qed.

(** C10. The report that a completed run returns, which is also the report
    written to the file, carries a summary whose five fields are the lengths
    of the five sections of that same report. *)
Theorem run_summary_counts_sections :
  forall self options w r w',
    run self options w = (Normal r, w') ->
    Report.summary r
    = Some (Summary.mk
              (List.length (Report.competitors r))
              (List.length (Report.influencers r))
              (List.length (Report.trends r))
              (List.length (Report.insights r))
              (List.length (Report.recommendations r)))
    /\ exists path tr, trace w' = EvWrite path r :: tr.
Proof.
  intros self options w r w'. unfold run, tryCatch, bind.
  destruct ((if negb _ then analyzeCompetitors self else ret self) w)
    as [[self1|e1] w1]; [|unfold throw; discriminate].
  destruct ((if negb _ then analyzeInfluencers self1 else ret self1) w1)
    as [[self2|e2] w2]; [|unfold throw; discriminate].
  destruct (identifyTrends self2 w2) as [[self3|e3] w3]; [|unfold throw; discriminate].
  destruct (saveReport _ w3) as [[self6|e6] w6] eqn:Hsave; [|unfold throw; discriminate].
  unfold ret. intros E. injection E as <- <-.
  apply saveReport_summary in Hsave. destruct Hsave as [Hr Htr].
  split; [|exact Htr]. rewrite Hr. reflexivity.
Qed.

End ReportProperties.

Lemma run_summary_counts_sections_witness :
  exists r w,
    demoRun demoHost = (Normal r, w)
    /\ Report.summary r = Some (Summary.mk 1 0 1 1 6).
Proof.
  destruct (demoRun demoHost) as [[r|e] w] eqn:E; [|vm_compute in E; discriminate E].
  exists r, w. split; [reflexivity|].
  destruct (@constructor demoHost "demo" world0) as [[self|e] w0] eqn:Ec;
    [|vm_compute in Ec; discriminate Ec].
  unfold demoRun in E. rewrite Ec in E.
  destruct (@run_summary_counts_sections demoHost self (RunOptions.mk None None) w0 r w E)
    as [Hs _].
  rewrite Hs. vm_compute in Ec. injection Ec as <- <-.
  vm_compute in E. injection E as <- _. reflexivity.
Defined.

(** ** Worked instances *)

(** One post with 100 likes, 50 retweets and 10 replies and one with 1 like,
    no retweet and 5 replies: the means are 101/2, 25 and 15/2, and the
    integers nearest to them are 51, 25 and 8. *)
Lemma calculateAverageEngagement_rounded_mean_witness :
  calculateAverageEngagement (@nil Tweet.t) = Engagement.mk 0 0 0
  /\ (meanOf likesOf [demoPost; chattyPost] == 101 # 2)%Q
  /\ (meanOf retweetsOf [demoPost; chattyPost] == 25)%Q
  /\ (meanOf repliesOf [demoPost; chattyPost] == 15 # 2)%Q
  /\ calculateAverageEngagement [demoPost; chattyPost] = Engagement.mk 51 25 8.
Proof.
  split; [apply (proj1 (calculateAverageEngagement_rounded_mean [])); reflexivity|].
  split; [reflexivity|]. split; [reflexivity|]. split; [reflexivity|].
  destruct (proj2 (calculateAverageEngagement_rounded_mean [demoPost; chattyPost]))
    as [[L1 L2] [[R1 R2] [P1 P2]]]; [discriminate|].
  destruct (calculateAverageEngagement [demoPost; chattyPost]) as [l r p].
  cbn [Engagement.likes Engagement.retweets Engagement.replies] in *.
  change (meanOf likesOf [demoPost; chattyPost]) with ((101 # 1) / (2 # 1))%Q in L1, L2.
  change (meanOf retweetsOf [demoPost; chattyPost]) with ((50 # 1) / (2 # 1))%Q in R1, R2.
  change (meanOf repliesOf [demoPost; chattyPost]) with ((15 # 1) / (2 # 1))%Q in P1, P2.
  unfold Qlt in L1, R1, P1. unfold Qle in L2, R2, P2.
  cbn in L1, L2, R1, R2, P1, P2.
  f_equal; lia.
Defined.

(** Means of 50.5 likes, 25 retweets and 7.5 replies round to 51, 25 and 8. *)
Lemma calculateAverageEngagement_example :
  calculateAverageEngagement [demoPost; chattyPost] = Engagement.mk 51 25 8.
Proof. reflexivity. Qed.


(** 100 likes, 50 retweets and 10 replies weigh 5.3, which rounds to 5. *)
Lemma assessCollaborationPotential_example :
  assessCollaborationPotential [demoPost]
  = Collaboration.mk 5 "low" "Lower engagement - monitor before outreach".
Proof. reflexivity. Qed.

(** With 887 likes, 48 retweets and 399 replies the weighted engagement is
    40.5 in exact arithmetic, which would round to 41 and the level "medium";
    in doubles the sum falls just short of 405, and the score is 40 and the
    level "low".  With 1 like and 2349 replies it is the same at 70.5: the
    score is 70 and the level "medium", not "high". *)
Lemma assessCollaborationPotential_ties :
  (exactWeightedEngagement (Engagement.mk 887 48 399) == 81 # 2)%Q
  /\ Math_round (exactWeightedEngagement (Engagement.mk 887 48 399)) = 41%Z
  /\ weightedEngagement (Engagement.mk 887 48 399)
     = S754_finite false 5699868278390783 (-47)
  /\ assessCollaborationPotential [countsPost 887 48 399]
     = Collaboration.mk 40 "low" "Lower engagement - monitor before outreach"
  /\ Math_round (exactWeightedEngagement (Engagement.mk 1 0 2349)) = 71%Z
  /\ assessCollaborationPotential [countsPost 1 0 2349]
     = Collaboration.mk 70 "medium" "Moderate engagement - consider for partnerships".
Proof. repeat split. Qed.

(** Counts beyond the range of doubles make the weighted engagement
    infinite, and the score is still 100. *)
Lemma assessCollaborationPotential_overflow :
  weightedEngagement
    (calculateAverageEngagement [countsPost (2 ^ 1030) 0 0])
  = S754_infinity false
  /\ assessCollaborationPotential [countsPost (2 ^ 1030) 0 0]
     = Collaboration.mk 100 "high" "Strong engagement - excellent collaboration target".
Proof. split; vm_compute; reflexivity. Qed.

Lemma calculateTrendStrength_banding_witness :
  calculateTrendStrength [demoPost] = TrendStrength.mk 75 "moderate"
  /\ TrendStrength.level (calculateTrendStrength [demoPost]) = "moderate"
  /\ Report.insights (@generateInsights demoHost demoTrendReport) = [].
Proof.
  destruct (@calculateTrendStrength_banding demoHost [demoPost] demoPost demoTrendReport)
    as [[_ [_ [Hm _]]] Hp].
  destruct Hp as [E Hi].
  { exists (PublicMetrics.mk (Some 100%N) (Some 50%N) (Some 10%N) None).
    repeat split. }
  split; [exact E|]. split.
  - apply Hm; vm_compute; [reflexivity|discriminate].
  - destruct (Report.insights (@generateInsights demoHost demoTrendReport))
      as [|i l] eqn:Ei;
      [reflexivity|].
    exfalso. apply (Hi ltac:(intros t [<-|[]]; reflexivity) i).
    + left. reflexivity.
    + vm_compute in Ei. discriminate Ei.
Defined.

(** The run of the worked scenario: the competitor entry has the engagement
    of the post, the trend has strength 75 and level "moderate", and the only
    insight is the competitor positioning. *)
Lemma demoRun_report :
  exists r w,
    demoRun demoHost = (Normal r, w)
    /\ map Competitor.averageEngagement (Report.competitors r)
       = [Engagement.mk 100 50 10]
    /\ map Trend.trendStrength (Report.trends r) = [TrendStrength.mk 75 "moderate"]
    /\ map insight_type (Report.insights r) = ["competitor-positioning"].
Proof.
  eexists. eexists. split; [vm_compute; reflexivity|].
  repeat split.
Qed.

(** * Further properties of the code *)

(** ** The retry loop *)

Section RetryProperties.
Context {rt : Runtime}.

Lemma failed_attempts_push finalArgs delay k tr :
  failed_attempts finalArgs delay k (EvSleep delay :: EvExec birdPath finalArgs :: tr)
  = EvSleep delay :: EvExec birdPath finalArgs :: failed_attempts finalArgs delay k tr.
Proof.
  induction k as [|k IH]; cbn [failed_attempts]; [reflexivity|].
  rewrite IH. reflexivity.
Qed.

(** [k] transient failures, each followed by the pause, bring the loop to its
    attempt number [k]. *)
Lemma executeCommand_loop_retry retries delay finalArgs exhausted k :
  forall rem attempt lastError w,
    (attempt + Z.of_nat k <= retries - 1)%Z ->
    transient_failures w finalArgs k ->
    exists le,
      executeCommand_loop retries delay finalArgs exhausted (k + rem) attempt
        lastError w
      = executeCommand_loop retries delay finalArgs exhausted rem
          (attempt + Z.of_nat k)%Z le
          (mkWorld (spawned w + k) (clock w)
             (failed_attempts finalArgs delay k (trace w))).
Proof.
  induction k as [|k IH]; intros rem attempt lastError w Hle Htr.
  - exists lastError. cbn [Nat.add failed_attempts Z.of_nat].
    rewrite Z.add_0_r, Nat.add_0_r. destruct w; reflexivity.
  - destruct (transient_failures_head _ _ _ Htr) as [e [He Ha]].
    cbn [Nat.add executeCommand_loop]. unfold bind at 1, execFileAsync at 1.
    rewrite He, Ha.
    assert (Hlt : (attempt <? retries - 1)%Z = true) by (apply Z.ltb_lt; lia).
    rewrite Hlt. unfold bind at 1, sleep at 1.
    set (w2 := mkWorld _ _ _).
    destruct (IH rem (attempt + 1)%Z (Some e) w2) as [le Hr].
    + lia.
    + apply (transient_failures_shift w); [reflexivity|exact Htr].
    + exists le. rewrite Hr. subst w2. cbn [spawned clock trace].
      rewrite failed_attempts_push. cbn [failed_attempts].
      replace (attempt + 1 + Z.of_nat k)%Z with (attempt + Z.of_nat (S k))%Z by lia.
      replace (S (spawned w) + k) with (spawned w + S k) by lia.
      reflexivity.
Qed.

(** X1. An attempt that succeeds after [k] transient failures returns the
    output of that run; the tool has run [k + 1] times and the loop has paused
    [k] times, once after each failure. *)
Theorem executeCommand_succeeds_after_retries :
  forall command args options w k out,
    (Z.of_nat k < retries_of options)%Z ->
    transient_failures w (finalArgs_of command args options) k ->
    child_process (spawned w + k) birdPath (finalArgs_of command args options)
      = Stdout out ->
    executeCommand command args options w
    = (Normal out,
       mkWorld (spawned w + k + 1) (clock w)
         (EvExec birdPath (finalArgs_of command args options)
            :: failed_attempts (finalArgs_of command args options)
                 (delay_of options) k (trace w))).
Proof.
  intros command args options w k out Hk Htr Hout. unfold executeCommand.
  set (fa := finalArgs_of command args options) in *.
  replace (Z.to_nat (retries_of options))
    with (k + S (Z.to_nat (retries_of options) - S k)) by lia.
  destruct (executeCommand_loop_retry (retries_of options) (delay_of options) fa
              (newError ("Command failed after " ++ String_of_Z (retries_of options)
                         ++ " retries: " ++ command ++ " " ++ join " " fa))
              k (S (Z.to_nat (retries_of options) - S k)) 0%Z None w) as [le Hr].
  - lia.
  - exact Htr.
  - rewrite Hr. cbn [executeCommand_loop]. unfold bind, execFileAsync.
    cbn [spawned clock trace]. rewrite Hout. unfold ret.
    replace (S (spawned w + k)) with (spawned w + k + 1) by lia. reflexivity.
Qed.

(** X2. When all [retries] attempts fail transiently, the loop pauses between
    the attempts but not after the last one: [retries] runs and [retries - 1]
    pauses, and the error thrown is that of the last run. *)
Theorem executeCommand_exhausted_trace :
  forall command args options w,
    (0 < retries_of options)%Z ->
    transient_failures w (finalArgs_of command args options)
      (Z.to_nat (retries_of options)) ->
    exists e,
      child_process (spawned w + (Z.to_nat (retries_of options) - 1)) birdPath
        (finalArgs_of command args options) = Rejected e
      /\ executeCommand command args options w
         = (Throw e,
            mkWorld (spawned w + Z.to_nat (retries_of options)) (clock w)
              (EvExec birdPath (finalArgs_of command args options)
                 :: failed_attempts (finalArgs_of command args options)
                      (delay_of options) (Z.to_nat (retries_of options) - 1)
                      (trace w))).
Proof.
  intros command args options w Hpos Htr. unfold executeCommand.
  set (fa := finalArgs_of command args options) in *.
  destruct (Z.to_nat (retries_of options)) as [|n] eqn:En; [lia|].
  replace (S n - 1) with n by lia.
  destruct (Htr n ltac:(lia)) as [e [He Ha]].
  exists e. split; [exact He|].
  replace (S n) with (n + 1) at 1 by lia.
  destruct (executeCommand_loop_retry (retries_of options) (delay_of options) fa
              (newError ("Command failed after " ++ String_of_Z (retries_of options)
                         ++ " retries: " ++ command ++ " " ++ join " " fa))
              n 1 0%Z None w) as [le Hr].
  - lia.
  - intros j Hj. apply Htr. lia.
  - rewrite Hr. cbn [executeCommand_loop]. unfold bind at 1, execFileAsync at 1.
    cbn [spawned clock trace]. rewrite He, Ha.
    assert (Hge : (0 + Z.of_nat n <? retries_of options - 1)%Z = false)
      by (apply Z.ltb_ge; lia).
    rewrite Hge. unfold bind, ret, throw.
    replace (S (spawned w + n)) with (spawned w + S n) by lia. reflexivity.
Qed.

Lemma gathers_refl w : gathers 0 w w.
Proof.
  split; [reflexivity|]. split; [lia|]. exists []. split; reflexivity.
Qed.

Lemma gathers_trans n m w w1 w2 :
  gathers n w w1 -> gathers m w1 w2 -> gathers (n + m) w w2.
Proof.
  intros [Hc1 [Hs1 [e1 [Ht1 Hg1]]]] [Hc2 [Hs2 [e2 [Ht2 Hg2]]]].
  split; [congruence|]. split; [lia|].
  exists (e2 ++ e1). split.
  - rewrite Ht2, Ht1, app_assoc. reflexivity.
  - rewrite forallb_app, Hg1, Hg2. reflexivity.
Qed.

Lemma gathers_weaken n m w w' : n <= m -> gathers n w w' -> gathers m w w'.
Proof.
  intros Hle [Hc [Hs He]]. split; [exact Hc|]. split; [lia|exact He].
Qed.

Lemma executeCommand_loop_gathers retries delay finalArgs exhausted remaining :
  forall attempt lastError w,
    gathers remaining w
      (snd (executeCommand_loop retries delay finalArgs exhausted remaining attempt
              lastError w)).
Proof.
  induction remaining as [|n IH]; intros attempt lastError w.
  - cbn. apply gathers_refl.
  - cbn [executeCommand_loop]. unfold bind at 1, execFileAsync at 1.
    set (w1 := mkWorld (S (spawned w)) (clock w) (EvExec birdPath finalArgs :: trace w)).
    assert (H1 : gathers 1 w w1).
    { split; [reflexivity|]. split; [cbn; lia|].
      exists [EvExec birdPath finalArgs]. split; reflexivity. }
    destruct (child_process (spawned w) birdPath finalArgs) as [out|error].
    + cbn. apply (gathers_weaken 1); [lia|exact H1].
    + destruct (isAuthError error).
      * cbn. apply (gathers_weaken 1); [lia|exact H1].
      * destruct (attempt <? retries - 1)%Z.
        -- unfold bind at 1, sleep at 1.
           set (w2 := mkWorld (spawned w1) (clock w1) (EvSleep delay :: trace w1)).
           assert (H2 : gathers 0 w1 w2).
           { split; [reflexivity|]. split; [cbn; lia|].
             exists [EvSleep delay]. split; reflexivity. }
           apply (gathers_trans 1 n w w2); [|apply IH].
           apply (gathers_trans 1 0 w w1 w2 H1 H2).
        -- unfold bind at 1, ret at 1.
           apply (gathers_trans 1 n w w1); [exact H1|apply IH].
Qed.

Lemma executeCommand_gathers command args options w :
  gathers (Z.to_nat (retries_of options)) w
    (snd (executeCommand command args options w)).
Proof.
  unfold executeCommand. apply executeCommand_loop_gathers.
Qed.

(** X3. Whatever the tool does, [executeCommand] runs it at most [retries]
    times and, when [retries] is positive, at least once; it never reads the
    clock or touches the file system, and only adds effects on top of the
    earlier ones. *)
Theorem executeCommand_bounded :
  forall command args options w,
    gathers (Z.to_nat (retries_of options)) w
      (snd (executeCommand command args options w))
    /\ ((0 < retries_of options)%Z ->
        spawned w < spawned (snd (executeCommand command args options w))).
Proof.
  intros command args options w. split; [apply executeCommand_gathers|].
  intros Hpos. unfold executeCommand.
  destruct (Z.to_nat (retries_of options)) as [|n] eqn:En; [lia|].
  cbn [executeCommand_loop]. unfold bind at 1, execFileAsync at 1.
  set (w1 := mkWorld (S (spawned w)) (clock w) _).
  assert (H1 : spawned w < spawned w1) by (cbn; lia).
  destruct (child_process _ _ _) as [out|error]; [exact H1|].
  destruct (isAuthError error); [exact H1|].
  match goal with
  | |- _ < spawned (snd (bind ?c ?k w1)) =>
      assert (Hc : exists w2, c w1 = (Normal tt, w2) /\ spawned w2 = spawned w1)
  end.
  { destruct (_ <? _)%Z; unfold sleep, ret; eexists; split; reflexivity. }
  destruct Hc as [w2 [Hc Hs]]. unfold bind. rewrite Hc.
  pose proof (executeCommand_loop_gathers (retries_of options) (delay_of options)
                (finalArgs_of command args options)
                (newError ("Command failed after " ++ String_of_Z (retries_of options)
                           ++ " retries: " ++ command ++ " "
                           ++ join " " (finalArgs_of command args options)))
                n (0 + 1)%Z (Some error) w2) as [_ [Hb _]].
  lia.
Qed.

End RetryProperties.

Lemma executeCommand_bounded_witness :
  spawned world0
  < spawned (snd (@executeCommand (failingHost "Command failed: timeout") "search" ["q"]
                    ExecOptions.json world0)).
Proof.
  apply (@executeCommand_bounded (failingHost "Command failed: timeout") "search" ["q"]
           ExecOptions.json world0).
  reflexivity.
Defined.

(** X4. With the JSON format, the tool receives the command, then [args], and
    the flag [--json]: it is appended when [args] lacks it and not added again
    when [args] has it.  With another format the
    tool receives the command and [args] only. *)
Theorem finalArgs_json_flag :
  forall command args options,
    (format_of options = "json" ->
     (exists suffix, finalArgs_of command args options = command :: args ++ suffix)
     /\ count_occ string_dec (tl (finalArgs_of command args options)) "--json"
        = Nat.max 1 (count_occ string_dec args "--json"))
    /\ (format_of options <> "json" ->
        finalArgs_of command args options = command :: args).
Proof.
  intros command args options.
  assert (Hinc : Array_includes args "--json"
                 = negb (Nat.eqb (count_occ string_dec args "--json") 0)).
  { unfold Array_includes. induction args as [|a l IH]; [reflexivity|].
    cbn [existsb count_occ]. rewrite IH.
    destruct (string_dec a "--json") as [E|E].
    - subst. reflexivity.
    - destruct (String.eqb_spec "--json" a); [congruence|reflexivity]. }
  unfold finalArgs_of. rewrite Hinc, negb_involutive. split.
  - intros ->. cbn [String.eqb Ascii.eqb Bool.eqb andb tl].
    split; [eexists; reflexivity|].
    rewrite count_occ_app.
    destruct (Nat.eqb_spec (count_occ string_dec args "--json") 0) as [E|E].
    + rewrite E. reflexivity.
    + cbn [count_occ]. lia.
  - intros Hne. destruct (String.eqb_spec (format_of options) "json"); [contradiction|].
    cbn [andb]. rewrite app_nil_r. reflexivity.
Qed.

Lemma finalArgs_json_flag_witness :
  count_occ string_dec (tl (finalArgs_of "search" ["--json"; "q"] ExecOptions.json))
    "--json" = 1
  /\ finalArgs_of "whoami" [] (ExecOptions.mk None None (Some "text")) = ["whoami"].
Proof.
  split.
  - apply (finalArgs_json_flag "search" ["--json"; "q"] ExecOptions.json). reflexivity.
  - apply (finalArgs_json_flag "whoami" [] (ExecOptions.mk None None (Some "text"))).
    discriminate.
Defined.

Section NoAttempt.
Context {rt : Runtime}.

(** X9. With [retries] at 0 or below, [executeCommand] does not run the tool
    at all and throws "Command failed after <retries> retries: " followed by
    the command and then the full argument list, which starts with the command
    again. *)
Theorem executeCommand_without_attempts :
  forall command args options w,
    (retries_of options <= 0)%Z ->
    executeCommand command args options w
    = (Throw (newError ("Command failed after " ++ String_of_Z (retries_of options)
                        ++ " retries: " ++ command ++ " "
                        ++ join " " (command :: tl (finalArgs_of command args options)))),
       w).
Proof.
  intros command args options w H.
  rewrite (executeCommand_no_attempt command args options w H). reflexivity.
Qed.

End NoAttempt.

Lemma executeCommand_without_attempts_witness :
  @executeCommand demoHost "search" ["q"] (ExecOptions.mk (Some 0%Z) None None) world0
  = (Throw (newError "Command failed after 0 retries: search search q --json"), world0).
Proof.
  apply (@executeCommand_without_attempts demoHost "search" ["q"]
           (ExecOptions.mk (Some 0%Z) None None) world0).
  discriminate.
Defined.

Lemma executeCommand_succeeds_after_retries_witness :
  @executeCommand (recoveringHost 2) "search" ["q"] ExecOptions.json world0
  = (Normal demoStdout,
     mkWorld 3 0
       [EvExec "/repo/scripts/social/bird" ["search"; "q"; "--json"];
        EvSleep 1000;
        EvExec "/repo/scripts/social/bird" ["search"; "q"; "--json"];
        EvSleep 1000;
        EvExec "/repo/scripts/social/bird" ["search"; "q"; "--json"]]).
Proof.
  apply (@executeCommand_succeeds_after_retries (recoveringHost 2) "search" ["q"]
           ExecOptions.json world0 2 demoStdout).
  - reflexivity.
  - intros j Hj. destruct j as [|[|j]]; [| |lia]; eexists; split; reflexivity.
  - reflexivity.
Defined.

Lemma executeCommand_exhausted_trace_witness :
  exists e,
    @executeCommand (failingHost "Command failed: timeout") "search" ["q"]
      (ExecOptions.mk (Some 2%Z) (Some 50%Z) None) world0
    = (Throw e,
       mkWorld 2 0
         [EvExec "/repo/scripts/social/bird" ["search"; "q"; "--json"];
          EvSleep 50;
          EvExec "/repo/scripts/social/bird" ["search"; "q"; "--json"]]).
Proof.
  destruct (@executeCommand_exhausted_trace (failingHost "Command failed: timeout")
              "search" ["q"] (ExecOptions.mk (Some 2%Z) (Some 50%Z) None) world0)
    as [e [_ H]].
  - reflexivity.
  - intros j Hj. eexists. split; reflexivity.
  - exists e. exact H.
Defined.

(** ** The fetch wrappers *)

Section WrapperProperties.
Context {rt : Runtime}.

(** What a wrapper returns, by cases on what [executeCommand] and the parser
    do. *)
Lemma fetch_outcome op w :
  fetch op w
  = match executeCommand (commandOf op) (argsOf op) ExecOptions.json w with
    | (Normal out, w') =>
        match JSON_parse out with
        | inr parsed =>
            (Normal (Some (match op with
                           | Read _ => parsed
                           | _ => JArray (as_array parsed)
                           end)), w')
        | inl _ => (Normal (onFailure op), w')
        end
    | (Throw _, w') => (Normal (onFailure op), w')
    end.
Proof.
  destruct op; cbn [fetch commandOf argsOf onFailure];
    unfold search, getMentions, getBookmarks, readTweet, getReplies, getThread,
      tryCatch, bind, lift, parseJSON, ret;
    destruct (executeCommand _ _ _ w) as [[out|e] w']; try reflexivity;
    destruct (JSON_parse out) as [msg|parsed]; reflexivity.
Qed.

(** X5. A fetch wrapper never throws, whatever the tool prints or however it
    fails, and runs the tool at most three times. *)
Theorem fetch_never_throws :
  forall op w,
    (exists v, fst (fetch op w) = Normal v)
    /\ gathers 3 w (snd (fetch op w)).
Proof.
  intros op w. rewrite fetch_outcome.
  pose proof (executeCommand_gathers (commandOf op) (argsOf op) ExecOptions.json w) as Hg.
  change (Z.to_nat (retries_of ExecOptions.json)) with 3 in Hg.
  destruct (executeCommand _ _ _ w) as [[out|e] w']; cbn [snd] in Hg.
  - destruct (JSON_parse out); cbn [fst snd]; eauto.
  - cbn [fst snd]. eauto.
Qed.

(** X6. When [executeCommand] throws, for whatever reason, or when the output
    of the tool is not JSON, a list wrapper returns the empty list and
    [readTweet] returns [null]. *)
Theorem fetch_failure_gives_empty :
  forall op w res w',
    executeCommand (commandOf op) (argsOf op) ExecOptions.json w = (res, w') ->
    match res with
    | Throw _ => True
    | Normal out => exists msg, JSON_parse out = inl msg
    end ->
    fetch op w = (Normal (onFailure op), w').
Proof.
  intros op w res w' Hx Hres. rewrite fetch_outcome, Hx.
  destruct res as [out|e]; [|reflexivity].
  destruct Hres as [msg Hp]. rewrite Hp. reflexivity.
Qed.

(** X7. When the output of the tool parses to an array, a list wrapper returns
    that array as it is, whatever its length and the limit asked for;
    [readTweet] returns it too. *)
Theorem fetch_returns_array_unchanged :
  forall op w out w' items,
    executeCommand (commandOf op) (argsOf op) ExecOptions.json w = (Normal out, w') ->
    JSON_parse out = inr (JArray items) ->
    fetch op w = (Normal (Some (JArray items)), w').
Proof.
  intros op w out w' items Hx Hp. rewrite fetch_outcome, Hx, Hp.
  destruct op; reflexivity.
Qed.

(** X8. An authentication error does not get past a fetch wrapper: when the
    first run of the tool fails with a message that contains "auth" or
    "cookie", the wrapper returns the empty list ([null] for [readTweet])
    after that single run. *)
Theorem fetch_swallows_auth_error :
  forall op w error,
    child_process (spawned w) birdPath
      (finalArgs_of (commandOf op) (argsOf op) ExecOptions.json) = Rejected error ->
    isAuthError error = true ->
    fetch op w
    = (Normal (onFailure op),
       mkWorld (S (spawned w)) (clock w)
         (EvExec birdPath (finalArgs_of (commandOf op) (argsOf op) ExecOptions.json)
            :: trace w)).
Proof.
  intros op w error Herr Hauth. rewrite fetch_outcome.
  unfold executeCommand.
  change (Z.to_nat (retries_of ExecOptions.json)) with 3.
  cbn [executeCommand_loop]. unfold bind at 1, execFileAsync at 1.
  rewrite Herr, Hauth. reflexivity.
Qed.

End WrapperProperties.

Lemma fetch_failure_gives_empty_witness :
  exists w',
    @fetch garbledHost (Search "from:a" (Some 5%Z)) world0 = (Normal (Some (JArray [])), w')
    /\ fst (@fetch garbledHost (Read "1") world0) = Normal None.
Proof.
  eexists. split.
  - apply (@fetch_failure_gives_empty garbledHost (Search "from:a" (Some 5%Z)) world0
             (Normal "<html>")); [reflexivity|].
    exists "Unexpected token in JSON". reflexivity.
  - reflexivity.
Defined.

Lemma fetch_returns_array_unchanged_witness :
  exists w',
    @fetch demoHost (Search "from:a" (Some 0%Z)) world0
    = (Normal (Some (JArray [demoPost])), w').
Proof.
  eexists.
  apply (@fetch_returns_array_unchanged demoHost (Search "from:a" (Some 0%Z)) world0
           demoStdout); reflexivity.
Defined.

Lemma fetch_swallows_auth_error_witness :
  @fetch (failingHost "Missing auth_token cookie") (Mentions None) world0
  = (Normal (Some (JArray [])),
     mkWorld 1 0 [EvExec "/repo/scripts/social/bird" ["mentions"; "-n"; "10"; "--json"]]).
Proof.
  apply (@fetch_swallows_auth_error (failingHost "Missing auth_token cookie")
           (Mentions None) world0 (mkError "Error" "Missing auth_token cookie"));
    reflexivity.
Defined.

(** ** The gathering phases *)

Section GatheringProperties.
Context {rt : Runtime}.

Lemma search_outcome query limit w :
  exists tweets w', search query limit w = (Normal tweets, w') /\ gathers 3 w w'.
Proof.
  unfold search, tryCatch, bind, lift, ret.
  pose proof (executeCommand_gathers "search"
                ["-n"; String_of_Z (limit_or_10 limit); query] ExecOptions.json w) as Hg.
  change (Z.to_nat (retries_of ExecOptions.json)) with 3 in Hg.
  destruct (executeCommand _ _ _ w) as [[out|e] w']; cbn [snd] in Hg.
  - destruct (parseJSON out); eauto.
  - eauto.
Qed.

Lemma means_of_topTweets (tweets : list Tweet.t) :
  tweets <> [] ->
  calculateAverageEngagement tweets
  = roundedMeans (map TopTweet.engagement (map topTweet_of tweets)).
Proof.
  intros Hne. rewrite calculateAverageEngagement_nonempty by exact Hne.
  unfold roundedMeans, mean, total. rewrite !map_map, !length_map. reflexivity.
Qed.

Lemma means_of_trendTweets (tweets : list Tweet.t) :
  tweets <> [] ->
  calculateAverageEngagement tweets
  = roundedMeans (map TrendTweet.engagement (map trendTweet_of tweets)).
Proof.
  intros Hne. rewrite calculateAverageEngagement_nonempty by exact Hne.
  unfold roundedMeans, mean, total. rewrite !map_map, !length_map. reflexivity.
Qed.

Lemma extractThemes_forEach_texts kws tweets : forall d d',
  extractThemes_forEach kws tweets d = Normal d' ->
  Forall (fun t => text_or_full_text t <> None) tweets.
Proof.
  induction tweets as [|t l IH]; intros d d' H; [constructor|].
  cbn [extractThemes_forEach] in H.
  destruct (text_or_full_text t) as [s|] eqn:E; [|discriminate H].
  constructor; [congruence|]. eapply IH. exact H.
Qed.

Lemma extractThemes_texts config tweets themes :
  extractThemes config tweets = Normal themes ->
  Forall (fun t => text_or_full_text t <> None) tweets.
Proof.
  unfold extractThemes. intros H.
  destruct (extractThemes_forEach _ tweets Dict.empty) as [d|e] eqn:E;
    [|discriminate H].
  eapply extractThemes_forEach_texts. exact E.
Qed.

Lemma loweredTexts_texts tweets : forall l,
  loweredTexts tweets = Normal l ->
  Forall (fun t => text_or_full_text t <> None) tweets.
Proof.
  induction tweets as [|t ts IH]; intros l H; [constructor|].
  cbn [loweredTexts] in H.
  destruct (text_or_full_text t) as [s|] eqn:E; [|discriminate H].
  destruct (loweredTexts ts) as [l'|e]; [|discriminate H].
  constructor; [congruence|]. eapply IH. reflexivity.
Qed.

Lemma topTweets_have_text tweets :
  Forall (fun t => text_or_full_text t <> None) tweets ->
  Forall (fun t => TopTweet.text t <> None) (map topTweet_of tweets).
Proof.
  intros H. apply Forall_map. exact H.
Qed.

Lemma trendTweets_have_text tweets :
  Forall (fun t => text_or_full_text t <> None) tweets ->
  Forall (fun t => TrendTweet.text t <> None) (map trendTweet_of tweets).
Proof.
  intros H. apply Forall_map. exact H.
Qed.

Lemma collaboration_level_high tweets :
  Collaboration.level (assessCollaborationPotential tweets) = "high"
  <-> (70 < Collaboration.score (assessCollaborationPotential tweets))%Z.
Proof.
  destruct (assessCollaborationPotential_cases tweets) as [z [-> _]].
  cbn [Collaboration.level Collaboration.score].
  destruct (Z.gtb_spec z 70) as [H|H].
  - split; [intros _; exact H|reflexivity].
  - split; [|lia]. destruct (z >? 40)%Z; discriminate.
Qed.

Lemma trend_level_strong tweets :
  TrendStrength.level (calculateTrendStrength tweets) = "strong"
  <-> (100 < TrendStrength.score (calculateTrendStrength tweets))%Z.
Proof.
  unfold calculateTrendStrength. cbn [TrendStrength.level TrendStrength.score].
  fold (trendStrengthOf (calculateAverageEngagement tweets)).
  rewrite <- (trendStrength_exceeds_iff_score _ 100).
  change (inject_Z 100) with 100%Q.
  destruct (Qgtb (trendStrengthOf _) 100) eqn:E.
  - apply Qgtb_true in E. split; [intros _; exact E|reflexivity].
  - apply Qgtb_false in E. split.
    + destruct (Qgtb _ 50); discriminate.
    + intros H. exfalso. apply (Qlt_not_le _ _ H E).
Qed.

Lemma NoDup_map_filter {X Y} (g : X -> Y) (f : X -> bool) (l : list X) :
  NoDup (map g l) -> NoDup (map g (filter f l)).
Proof.
  induction l as [|x l IH]; cbn; intros H; [constructor|].
  inversion H as [|? ? Hnin Hnd]; subst.
  destruct (f x); cbn; [|apply IH; exact Hnd].
  constructor; [|apply IH; exact Hnd].
  intros Hin. apply Hnin. apply in_map_iff in Hin. destruct Hin as [y [Hy Hin]].
  apply filter_In in Hin. apply in_map_iff. exists y. tauto.
Qed.

Lemma absentAngles_tags text :
  NoDup (absentAngles text) /\ incl (absentAngles text) (map snd angles).
Proof.
  unfold absentAngles. split.
  - apply NoDup_map_filter. cbn.
    repeat (constructor; [cbn; intuition discriminate|]). constructor.
  - intros tag Hin. apply in_map_iff in Hin. destruct Hin as [a [Ha Hin]].
    apply filter_In in Hin. apply in_map_iff. exists a. tauto.
Qed.

Lemma identifyContentGaps_tags tweets gaps :
  identifyContentGaps tweets = Normal gaps ->
  Forall (fun t => text_or_full_text t <> None) tweets
  /\ NoDup gaps /\ incl gaps (map snd angles).
Proof.
  unfold identifyContentGaps. intros H.
  destruct (loweredTexts tweets) as [texts|e] eqn:E; [|discriminate H].
  cbn [cbind] in H. rewrite found_keys in H. injection H as <-.
  split; [eapply loweredTexts_texts; exact E|apply absentAngles_tags].
Qed.

(** *** When an analysis throws *)

Lemma extractThemes_forEach_total kws tweets : forall d,
  Forall (fun t => text_or_full_text t <> None) tweets ->
  exists d', extractThemes_forEach kws tweets d = Normal d'.
Proof.
  induction tweets as [|t l IH]; intros d H; cbn [extractThemes_forEach]; [eauto|].
  inversion H as [|? ? Ht Hl]; subst.
  destruct (text_or_full_text t) as [s|]; [|congruence].
  apply IH. exact Hl.
Qed.

Lemma extractThemes_total config tweets :
  Forall (fun t => text_or_full_text t <> None) tweets ->
  exists themes, extractThemes config tweets = Normal themes.
Proof.
  intros H. unfold extractThemes.
  destruct (extractThemes_forEach_total (or_empty (Config.keywords config)) tweets
              Dict.empty H) as [d ->].
  cbn [cbind]. eauto.
Qed.

Lemma loweredTexts_total tweets :
  Forall (fun t => text_or_full_text t <> None) tweets ->
  exists l, loweredTexts tweets = Normal l.
Proof.
  induction tweets as [|t ts IH]; intros H; cbn [loweredTexts]; [eauto|].
  inversion H as [|? ? Ht Hl]; subst.
  destruct (text_or_full_text t) as [s|]; [|congruence].
  destruct (IH Hl) as [l ->]. cbn [cbind]. eauto.
Qed.

Lemma identifyContentGaps_total tweets :
  Forall (fun t => text_or_full_text t <> None) tweets ->
  exists gaps, identifyContentGaps tweets = Normal gaps.
Proof.
  intros H. unfold identifyContentGaps.
  destruct (loweredTexts_total tweets H) as [l ->]. cbn [cbind]. eauto.
Qed.

Lemma length_pos_nonempty {X} (l : list X) : (0 <? List.length l) = true -> l <> [].
Proof. destruct l; [discriminate|discriminate]. Qed.

Lemma not_analysable_empty tweets : (0 <? List.length tweets) = false -> ~ analysable tweets.
Proof. destruct tweets; [|discriminate]. intros _ [H _]. congruence. Qed.

(** *** One iteration of each gathering loop *)

Lemma analyzeCompetitor_step self competitor w :
  exists tweets w1,
    search (from competitor) (Some 5%Z) w = (Normal tweets, w1)
    /\ gathers 3 w w1
    /\ ((~ analysable tweets
         /\ analyzeCompetitor self competitor w = (Normal self, w1))
        \/ (analysable tweets
            /\ exists e,
                 competitor_analysis (CI.config self) competitor tweets e
                 /\ analyzeCompetitor self competitor w
                    = (Normal (push_competitor self e), w1))).
Proof.
  unfold analyzeCompetitor, tryCatch, bind, from.
  destruct (search_outcome ("from:" ++ competitor) (Some 5%Z) w)
    as [tweets [w1 [Hs Hg]]].
  rewrite Hs. exists tweets, w1. split; [reflexivity|]. split; [exact Hg|].
  destruct (0 <? List.length tweets) eqn:Hlen;
    [|left; split; [apply not_analysable_empty; exact Hlen|reflexivity]].
  unfold lift, ret.
  destruct (extractThemes (CI.config self) tweets) as [themes|e] eqn:Ht.
  - right. split.
    + split; [apply length_pos_nonempty; exact Hlen|].
      eapply extractThemes_texts. exact Ht.
    + eexists. split; [|reflexivity].
      unfold competitor_analysis.
      cbn [Competitor.handle Competitor.tweetsAnalyzed Competitor.topTweets
             Competitor.averageEngagement Competitor.contentThemes].
      repeat split. exact Ht.
  - left. split; [|reflexivity]. intros [_ Hall].
    destruct (extractThemes_total (CI.config self) tweets Hall) as [themes E].
    rewrite E in Ht. discriminate Ht.
Qed.

Lemma analyzeInfluencer_step self influencer w :
  exists tweets w1,
    search (from influencer) (Some 5%Z) w = (Normal tweets, w1)
    /\ gathers 3 w w1
    /\ ((~ analysable tweets
         /\ analyzeInfluencer self influencer w = (Normal self, w1))
        \/ (analysable tweets
            /\ exists e,
                 influencer_analysis (CI.config self) influencer tweets e
                 /\ analyzeInfluencer self influencer w
                    = (Normal (push_influencer self e), w1))).
Proof.
  unfold analyzeInfluencer, tryCatch, bind, from.
  destruct (search_outcome ("from:" ++ influencer) (Some 5%Z) w)
    as [tweets [w1 [Hs Hg]]].
  rewrite Hs. exists tweets, w1. split; [reflexivity|]. split; [exact Hg|].
  destruct (0 <? List.length tweets) eqn:Hlen;
    [|left; split; [apply not_analysable_empty; exact Hlen|reflexivity]].
  unfold lift, ret.
  destruct (extractThemes (CI.config self) tweets) as [themes|e] eqn:Ht.
  - right. split.
    + split; [apply length_pos_nonempty; exact Hlen|].
      eapply extractThemes_texts. exact Ht.
    + eexists. split; [|reflexivity].
      unfold influencer_analysis.
      cbn [Influencer.handle Influencer.tweetsAnalyzed Influencer.topTweets
             Influencer.averageEngagement Influencer.contentThemes
             Influencer.collaborationPotential].
      repeat split. exact Ht.
  - left. split; [|reflexivity]. intros [_ Hall].
    destruct (extractThemes_total (CI.config self) tweets Hall) as [themes E].
    rewrite E in Ht. discriminate Ht.
Qed.

Lemma identifyTrend_step self keyword w :
  exists tweets w1,
    search keyword (Some 5%Z) w = (Normal tweets, w1)
    /\ gathers 3 w w1
    /\ ((~ analysable tweets
         /\ identifyTrend self keyword w = (Normal self, w1))
        \/ (analysable tweets
            /\ exists e,
                 trend_analysis keyword tweets e
                 /\ identifyTrend self keyword w = (Normal (push_trend self e), w1))).
Proof.
  unfold identifyTrend, tryCatch, bind.
  destruct (search_outcome keyword (Some 5%Z) w) as [tweets [w1 [Hs Hg]]].
  rewrite Hs. exists tweets, w1. split; [reflexivity|]. split; [exact Hg|].
  destruct (0 <? List.length tweets) eqn:Hlen;
    [|left; split; [apply not_analysable_empty; exact Hlen|reflexivity]].
  unfold lift, ret.
  destruct (identifyContentGaps tweets) as [gaps|e] eqn:Ht.
  - right. split.
    + split; [apply length_pos_nonempty; exact Hlen|].
      apply (identifyContentGaps_tags _ _ Ht).
    + eexists. split; [|reflexivity].
      unfold trend_analysis.
      cbn [Trend.keyword Trend.tweetsFound Trend.topTweets Trend.trendStrength
             Trend.contentGaps].
      repeat split. exact Ht.
  - left. split; [|reflexivity]. intros [_ Hall].
    destruct (identifyContentGaps_total tweets Hall) as [gaps E].
    rewrite E in Ht. discriminate Ht.
Qed.

(** *** The loops *)

(** A loop of guarded iterations searches for every name, in order, each
    search starting where the one before it ended; it pushes the entry of
    every name whose posts can be analysed and skips the other names. *)
Lemma forOf_gathers {E} (query : string -> string)
  (entry : Config.t -> string -> list Tweet.t -> E -> Prop)
  (push : CI.t -> E -> CI.t) (body : CI.t -> string -> M CI.t) :
  (forall self e, CI.config (push self e) = CI.config self) ->
  (forall self x w,
     exists tweets w1,
       search (query x) (Some 5%Z) w = (Normal tweets, w1)
       /\ gathers 3 w w1
       /\ ((~ analysable tweets /\ body self x w = (Normal self, w1))
           \/ (analysable tweets
               /\ exists e, entry (CI.config self) x tweets e
                            /\ body self x w = (Normal (push self e), w1)))) ->
  forall xs self w,
    exists found new w',
      forOf body xs self w = (Normal (fold_left push new self), w')
      /\ searched query xs w found w'
      /\ entries_of (entry (CI.config self)) xs found new
      /\ gathers (3 * List.length xs) w w'.
Proof.
  intros Hcfg Hb. induction xs as [|x xs IH]; intros self w.
  - exists [], [], w. cbn. split; [reflexivity|].
    split; [constructor|]. split; [constructor|apply gathers_refl].
  - cbn [forOf]. unfold bind.
    destruct (Hb self x w) as [tweets [w1 [Hs [Hg [[Hna Hx]|[Han [e [He Hx]]]]]]]];
      rewrite Hx.
    + destruct (IH self w1) as [found [new [w' [Hr [Hsd [Hen Hg']]]]]].
      exists (tweets :: found), new, w'. split; [exact Hr|].
      split; [econstructor; eassumption|].
      split; [apply entries_skip; assumption|].
      replace (3 * List.length (x :: xs)) with (3 + 3 * List.length xs)
        by (cbn [List.length]; lia).
      eapply gathers_trans; eassumption.
    + destruct (IH (push self e) w1) as [found [new [w' [Hr [Hsd [Hen Hg']]]]]].
      rewrite Hcfg in Hen.
      exists (tweets :: found), (e :: new), w'. split; [exact Hr|].
      split; [econstructor; eassumption|].
      split; [apply entries_keep; assumption|].
      replace (3 * List.length (x :: xs)) with (3 + 3 * List.length xs)
        by (cbn [List.length]; lia).
      eapply gathers_trans; eassumption.
Qed.

Lemma entries_answers {E} (entry : string -> list Tweet.t -> E -> Prop)
  (P : string -> E -> Prop) xs found es :
  (forall x tweets e, analysable tweets -> entry x tweets e -> P x e) ->
  entries_of entry xs found es -> answers P xs es.
Proof.
  intros HP. induction 1 as [|x xs tweets found es Hna Hes IH
                              |x xs tweets found e es Han He Hes IH].
  - constructor.
  - apply answers_skip. exact IH.
  - apply answers_keep; [eapply HP; eassumption|exact IH].
Qed.

Lemma entries_nil_inv {E} (entry : string -> list Tweet.t -> E -> Prop) found es :
  entries_of entry [] found es -> es = [].
Proof. intros H. inversion H. reflexivity. Qed.

(** *** What holds of an entry *)

Lemma competitor_analysis_entry config handle tweets e :
  analysable tweets -> competitor_analysis config handle tweets e ->
  competitor_entry handle e.
Proof.
  intros [Hne Hall] [Hh [Hn [Ht [Ha _]]]]. unfold competitor_entry.
  rewrite Hh, Hn, Ht, Ha, length_map.
  split; [reflexivity|]. split; [destruct tweets; [congruence|cbn; lia]|].
  split; [reflexivity|]. split; [apply topTweets_have_text; exact Hall|].
  apply means_of_topTweets. exact Hne.
Qed.

Lemma influencer_analysis_entry config handle tweets e :
  analysable tweets -> influencer_analysis config handle tweets e ->
  influencer_entry handle e.
Proof.
  intros [Hne Hall] [Hh [Hn [Ht [Ha [_ Hc]]]]]. unfold influencer_entry.
  rewrite Hh, Hn, Ht, Ha, Hc, length_map.
  split; [reflexivity|]. split; [destruct tweets; [congruence|cbn; lia]|].
  split; [reflexivity|]. split; [apply topTweets_have_text; exact Hall|].
  split; [apply means_of_topTweets; exact Hne|].
  destruct (assessCollaborationPotential_cases tweets) as [z [E [Hf Hz]]].
  split; [rewrite E; exact Hf|]. split; [rewrite E; exact Hz|].
  apply collaboration_level_high.
Qed.

Lemma trend_analysis_entry keyword tweets e :
  analysable tweets -> trend_analysis keyword tweets e -> trend_entry keyword e.
Proof.
  intros [Hne Hall] [Hk [Hn [Ht [Hs Hg]]]]. unfold trend_entry.
  destruct (identifyContentGaps_tags _ _ Hg) as [_ [Hnd Hincl]].
  rewrite Hk, Hn, Ht, Hs, length_map.
  split; [reflexivity|]. split; [destruct tweets; [congruence|cbn; lia]|].
  split; [reflexivity|]. split; [apply trendTweets_have_text; exact Hall|].
  split.
  { rewrite <- means_of_trendTweets by exact Hne. reflexivity. }
  split; [apply trend_level_strong|]. split; assumption.
Qed.

Lemma searched_cons_inv query x xs w found w' :
  searched query (x :: xs) w found w' ->
  exists tweets w1 found',
    search (query x) (Some 5%Z) w = (Normal tweets, w1)
    /\ found = tweets :: found'
    /\ searched query xs w1 found' w'.
Proof. intros H. inversion H; subst. eauto 6. Qed.

Lemma searched_nil_inv query w found w' :
  searched query [] w found w' -> found = [] /\ w' = w.
Proof. intros H. inversion H; subst. auto. Qed.

Lemma entries_keep_inv {E} (entry : string -> list Tweet.t -> E -> Prop)
  x xs tweets found es :
  entries_of entry (x :: xs) (tweets :: found) es ->
  analysable tweets ->
  exists e es', es = e :: es' /\ entry x tweets e /\ entries_of entry xs found es'.
Proof. intros H Ha. inversion H; subst; [contradiction|eauto]. Qed.

Lemma entries_skip_inv {E} (entry : string -> list Tweet.t -> E -> Prop)
  x xs tweets found es :
  entries_of entry (x :: xs) (tweets :: found) es ->
  ~ analysable tweets ->
  entries_of entry xs found es.
Proof. intros H Ha. inversion H; subst; [assumption|contradiction]. Qed.

Lemma pushed_competitors new : forall self,
  CI.brand (fold_left push_competitor new self) = CI.brand self
  /\ CI.config (fold_left push_competitor new self) = CI.config self
  /\ Report.competitors (CI.report (fold_left push_competitor new self))
     = Report.competitors (CI.report self) ++ new
  /\ Report.influencers (CI.report (fold_left push_competitor new self))
     = Report.influencers (CI.report self)
  /\ Report.trends (CI.report (fold_left push_competitor new self))
     = Report.trends (CI.report self)
  /\ Report.insights (CI.report (fold_left push_competitor new self))
     = Report.insights (CI.report self)
  /\ Report.recommendations (CI.report (fold_left push_competitor new self))
     = Report.recommendations (CI.report self).
Proof.
  induction new as [|e new IH]; intros self; cbn [fold_left].
  - rewrite app_nil_r. repeat split.
  - destruct (IH (push_competitor self e)) as [H1 [H2 [H3 [H4 [H5 [H6 H7]]]]]].
    rewrite H1, H2, H3, H4, H5, H6, H7. cbn. rewrite <- app_assoc.
    repeat split.
Qed.

Lemma pushed_influencers new : forall self,
  CI.brand (fold_left push_influencer new self) = CI.brand self
  /\ CI.config (fold_left push_influencer new self) = CI.config self
  /\ Report.competitors (CI.report (fold_left push_influencer new self))
     = Report.competitors (CI.report self)
  /\ Report.influencers (CI.report (fold_left push_influencer new self))
     = Report.influencers (CI.report self) ++ new
  /\ Report.trends (CI.report (fold_left push_influencer new self))
     = Report.trends (CI.report self)
  /\ Report.insights (CI.report (fold_left push_influencer new self))
     = Report.insights (CI.report self)
  /\ Report.recommendations (CI.report (fold_left push_influencer new self))
     = Report.recommendations (CI.report self).
Proof.
  induction new as [|e new IH]; intros self; cbn [fold_left].
  - rewrite app_nil_r. repeat split.
  - destruct (IH (push_influencer self e)) as [H1 [H2 [H3 [H4 [H5 [H6 H7]]]]]].
    rewrite H1, H2, H3, H4, H5, H6, H7. cbn. rewrite <- app_assoc.
    repeat split.
Qed.

Lemma pushed_trends new : forall self,
  CI.brand (fold_left push_trend new self) = CI.brand self
  /\ CI.config (fold_left push_trend new self) = CI.config self
  /\ Report.competitors (CI.report (fold_left push_trend new self))
     = Report.competitors (CI.report self)
  /\ Report.influencers (CI.report (fold_left push_trend new self))
     = Report.influencers (CI.report self)
  /\ Report.trends (CI.report (fold_left push_trend new self))
     = Report.trends (CI.report self) ++ new
  /\ Report.insights (CI.report (fold_left push_trend new self))
     = Report.insights (CI.report self)
  /\ Report.recommendations (CI.report (fold_left push_trend new self))
     = Report.recommendations (CI.report self).
Proof.
  induction new as [|e new IH]; intros self; cbn [fold_left].
  - rewrite app_nil_r. repeat split.
  - destruct (IH (push_trend self e)) as [H1 [H2 [H3 [H4 [H5 [H6 H7]]]]]].
    rewrite H1, H2, H3, H4, H5, H6, H7. cbn. rewrite <- app_assoc.
    repeat split.
Qed.

Lemma analyzeCompetitors_gathers self w :
  exists found new w',
    analyzeCompetitors self w = (Normal (fold_left push_competitor new self), w')
    /\ searched from (or_empty (Config.competitors (CI.config self))) w found w'
    /\ entries_of (competitor_analysis (CI.config self))
         (or_empty (Config.competitors (CI.config self))) found new
    /\ gathers (3 * List.length (or_empty (Config.competitors (CI.config self)))) w w'.
Proof.
  unfold analyzeCompetitors.
  apply (forOf_gathers from competitor_analysis push_competitor analyzeCompetitor).
  - reflexivity.
  - apply analyzeCompetitor_step.
Qed.

(** X10. [analyzeCompetitors] never throws.  It searches for the posts of
    every configured competitor handle, in the order of the configuration
    and with at most three runs of the tool per handle, and appends to the
    competitor section one entry for every handle whose posts can be
    analysed: a handle is skipped exactly when its search returns no post or
    a post without text.  The entry of a handle counts and lists the posts
    found for it, with their average engagement and their themes; the other
    sections are left alone. *)
Theorem analyzeCompetitors_appends :
  forall self w,
    exists found new self' w',
      analyzeCompetitors self w = (Normal self', w')
      /\ searched from (or_empty (Config.competitors (CI.config self))) w found w'
      /\ entries_of (competitor_analysis (CI.config self))
           (or_empty (Config.competitors (CI.config self))) found new
      /\ answers competitor_entry (or_empty (Config.competitors (CI.config self))) new
      /\ Report.competitors (CI.report self')
         = Report.competitors (CI.report self) ++ new
      /\ Report.influencers (CI.report self') = Report.influencers (CI.report self)
      /\ Report.trends (CI.report self') = Report.trends (CI.report self)
      /\ gathers (3 * List.length (or_empty (Config.competitors (CI.config self))))
           w w'.
Proof.
  intros self w.
  destruct (analyzeCompetitors_gathers self w) as [found [new [w' [Hr [Hs [He Hg]]]]]].
  exists found, new, (fold_left push_competitor new self), w'.
  destruct (pushed_competitors new self) as [_ [_ [H3 [H4 [H5 _]]]]].
  split; [exact Hr|]. split; [exact Hs|]. split; [exact He|].
  split; [eapply entries_answers; [apply competitor_analysis_entry|exact He]|].
  split; [exact H3|]. split; [exact H4|]. split; [exact H5|exact Hg].
Qed.

Lemma analyzeInfluencers_gathers self w :
  exists found new w',
    analyzeInfluencers self w = (Normal (fold_left push_influencer new self), w')
    /\ searched from (or_empty (Config.influencers (CI.config self))) w found w'
    /\ entries_of (influencer_analysis (CI.config self))
         (or_empty (Config.influencers (CI.config self))) found new
    /\ gathers (3 * List.length (or_empty (Config.influencers (CI.config self)))) w w'.
Proof.
  unfold analyzeInfluencers.
  apply (forOf_gathers from influencer_analysis push_influencer analyzeInfluencer).
  - reflexivity.
  - apply analyzeInfluencer_step.
Qed.

(** X11. [analyzeInfluencers] never throws.  It searches for the posts of
    every configured influencer handle, in the order of the configuration
    and with at most three runs of the tool per handle, and appends to the
    influencer section one entry for every handle whose posts can be
    analysed: a handle is skipped exactly when its search returns no post or
    a post without text.  Besides what a competitor entry has, the entry of a
    handle has the collaboration potential of the posts found for it: a
    score between 0 and 100 that is round(min(100, weighted engagement)) of
    its own average engagement in double arithmetic, and the level "high"
    exactly when that score exceeds 70.  The other sections are left
    alone. *)
Theorem analyzeInfluencers_appends :
  forall self w,
    exists found new self' w',
      analyzeInfluencers self w = (Normal self', w')
      /\ searched from (or_empty (Config.influencers (CI.config self))) w found w'
      /\ entries_of (influencer_analysis (CI.config self))
           (or_empty (Config.influencers (CI.config self))) found new
      /\ answers influencer_entry (or_empty (Config.influencers (CI.config self))) new
      /\ Report.influencers (CI.report self')
         = Report.influencers (CI.report self) ++ new
      /\ Report.competitors (CI.report self') = Report.competitors (CI.report self)
      /\ Report.trends (CI.report self') = Report.trends (CI.report self)
      /\ gathers (3 * List.length (or_empty (Config.influencers (CI.config self))))
           w w'.
Proof.
  intros self w.
  destruct (analyzeInfluencers_gathers self w) as [found [new [w' [Hr [Hs [He Hg]]]]]].
  exists found, new, (fold_left push_influencer new self), w'.
  destruct (pushed_influencers new self) as [_ [_ [H3 [H4 [H5 _]]]]].
  split; [exact Hr|]. split; [exact Hs|]. split; [exact He|].
  split; [eapply entries_answers; [apply influencer_analysis_entry|exact He]|].
  split; [exact H4|]. split; [exact H3|]. split; [exact H5|exact Hg].
Qed.

Lemma identifyTrends_gathers self w :
  exists found new w',
    identifyTrends self w = (Normal (fold_left push_trend new self), w')
    /\ searched (fun keyword => keyword) (keywordsOf self) w found w'
    /\ entries_of trend_analysis (keywordsOf self) found new
    /\ gathers (3 * List.length (keywordsOf self)) w w'.
Proof.
  unfold identifyTrends, keywordsOf.
  apply (forOf_gathers (fun keyword => keyword) (fun _ => trend_analysis)
           push_trend identifyTrend).
  - reflexivity.
  - apply identifyTrend_step.
Qed.

(** X12. [identifyTrends] never throws.  It searches for the first three
    configured keywords and no other, in their order and with at most nine
    runs of the tool in all, and appends to the trend section one entry for
    every one of them whose posts can be analysed: a keyword is skipped
    exactly when its search returns no post or a post without text.  The
    entry of a keyword counts and lists the posts found for it, with their
    trend strength and content gaps: the strength score is
    round((likes + retweets) / 2) of the rounded mean engagement of its own
    top posts, its level is "strong" exactly when the score exceeds 100, and
    its content gaps are distinct tags of the five canonical angles.  The
    other sections are left alone. *)
Theorem identifyTrends_appends :
  forall self w,
    exists found new self' w',
      identifyTrends self w = (Normal self', w')
      /\ searched (fun keyword => keyword) (keywordsOf self) w found w'
      /\ entries_of trend_analysis (keywordsOf self) found new
      /\ answers trend_entry (keywordsOf self) new
      /\ Report.trends (CI.report self') = Report.trends (CI.report self) ++ new
      /\ Report.competitors (CI.report self') = Report.competitors (CI.report self)
      /\ Report.influencers (CI.report self') = Report.influencers (CI.report self)
      /\ gathers 9 w w'.
Proof.
  intros self w.
  destruct (identifyTrends_gathers self w) as [found [new [w' [Hr [Hs [He Hg]]]]]].
  exists found, new, (fold_left push_trend new self), w'.
  destruct (pushed_trends new self) as [_ [_ [H3 [H4 [H5 _]]]]].
  split; [exact Hr|]. split; [exact Hs|]. split; [exact He|].
  split; [eapply entries_answers; [apply trend_analysis_entry|exact He]|].
  split; [exact H5|]. split; [exact H3|]. split; [exact H4|].
  eapply gathers_weaken; [|exact Hg]. unfold keywordsOf.
  pose proof (firstn_le_length 3 (or_empty (Config.keywords (CI.config self)))). lia.
Qed.

End GatheringProperties.

(** ** Paths *)

Lemma split_on_plain s : has_separator s = false -> split_on "/" s = [s].
Proof.
  induction s as [|c s IH]; cbn; [reflexivity|].
  intros H. apply orb_false_iff in H. destruct H as [Hc Hs].
  rewrite Hc, (IH Hs). reflexivity.
Qed.

Lemma split_on_app a b :
  has_separator a = false ->
  split_on "/" (a ++ String "/" b)%string = a :: split_on "/" b.
Proof.
  induction a as [|c a IH]; cbn; [reflexivity|].
  intros H. apply orb_false_iff in H. destruct H as [Hc Hs].
  rewrite Hc, (IH Hs). reflexivity.
Qed.

Lemma split_on_concat segs :
  segs <> [] ->
  Forall (fun s => has_separator s = false) segs ->
  split_on "/" (String.concat "/" segs) = segs.
Proof.
  induction segs as [|a segs IH]; [congruence|]. intros _ H.
  inversion H as [|? ? Ha Hs]; subst.
  destruct segs as [|b segs].
  - apply split_on_plain. exact Ha.
  - change (String.concat "/" (a :: b :: segs))
      with (a ++ String "/" (String.concat "/" (b :: segs)))%string.
    rewrite split_on_app by exact Ha. f_equal. apply IH; [discriminate|exact Hs].
Qed.

Lemma normalizeString_plain allowAboveRoot segs : forall res,
  Forall (fun s => s <> "" /\ s <> "." /\ s <> "..") segs ->
  normalizeString allowAboveRoot segs res = rev res ++ segs.
Proof.
  induction segs as [|s segs IH]; intros res H; cbn [normalizeString].
  - rewrite app_nil_r. reflexivity.
  - inversion H as [|? ? [H1 [H2 H3]] Hs]; subst.
    apply String.eqb_neq in H1, H2, H3. rewrite H1, H2, H3. cbn [orb].
    rewrite IH by exact Hs. cbn [rev]. rewrite <- app_assoc. reflexivity.
Qed.

Lemma endsWith_append a b d : b <> "" -> endsWith (a ++ b)%string d = endsWith b d.
Proof.
  intros Hb. induction a as [|x a IH]; [reflexivity|].
  cbn [append]. cbn [endsWith].
  destruct (a ++ b)%string as [|y r] eqn:E.
  - destruct a; [cbn in E; congruence|discriminate E].
  - exact IH.
Qed.

Lemma has_separator_append a b :
  has_separator (a ++ b)%string = has_separator a || has_separator b.
Proof.
  induction a as [|x a IH]; cbn; [reflexivity|]. rewrite IH, orb_assoc. reflexivity.
Qed.

Lemma endsWith_plain s : has_separator s = false -> endsWith s "/" = false.
Proof.
  induction s as [|c s IH]; [reflexivity|]. cbn [has_separator].
  intros H. apply orb_false_iff in H. destruct H as [Hc Hs].
  cbn [endsWith]. destruct s; [exact Hc|apply IH; exact Hs].
Qed.

Lemma concat_nonempty segs first rest :
  segs = first :: rest -> first <> "" -> String.concat "/" segs <> "".
Proof.
  intros -> Hf. destruct rest; cbn [String.concat]; [exact Hf|].
  destruct first; [congruence|discriminate].
Qed.

Lemma endsWith_concat segs :
  segs <> [] -> Forall plainSegment segs ->
  endsWith (String.concat "/" segs) "/" = false.
Proof.
  induction segs as [|a segs IH]; [congruence|]. intros _ H.
  inversion H as [|? ? [Ha [Hne _]] Hs]; subst.
  destruct segs as [|b segs].
  - apply endsWith_plain. exact Ha.
  - change (String.concat "/" (a :: b :: segs))
      with (a ++ String "/" (String.concat "/" (b :: segs)))%string.
    rewrite endsWith_append by discriminate.
    change (String "/" (String.concat "/" (b :: segs)))
      with ("/" ++ String.concat "/" (b :: segs))%string.
    rewrite endsWith_append.
    + apply IH; [discriminate|exact Hs].
    + inversion Hs as [|? ? [_ [Hb _]] _]; subst.
      eapply concat_nonempty; [reflexivity|exact Hb].
Qed.

Lemma prefix_concat segs :
  segs <> [] -> Forall plainSegment segs ->
  String.prefix "/" (String.concat "/" segs) = false.
Proof.
  destruct segs as [|a segs]; [congruence|]. intros _ H.
  inversion H as [|? ? [Ha [Hne _]] Hs]; subst.
  destruct a as [|c a]; [congruence|].
  cbn [has_separator] in Ha. apply orb_false_iff in Ha. destruct Ha as [Hc _].
  assert (E : exists r, String.concat "/" (String c a :: segs) = String c r).
  { destruct segs; cbn [String.concat append]; eauto. }
  destruct E as [r ->]. cbn [String.prefix].
  destruct (ascii_dec "/" c) as [<-|_]; [discriminate Hc|reflexivity].
Qed.

Lemma append_assoc (a b c : string) : ((a ++ b) ++ c = a ++ (b ++ c))%string.
Proof. induction a as [|x a IH]; cbn; [reflexivity|]. rewrite IH. reflexivity. Qed.

Lemma append_nil_r (s : string) : (s ++ "")%string = s.
Proof. induction s as [|c s IH]; cbn; [reflexivity|]. rewrite IH. reflexivity. Qed.

(** A path whose segments are plain is its own normal form. *)
Lemma path_normalize_plain segs :
  segs <> [] -> Forall plainSegment segs ->
  path_normalize (String.concat "/" segs) = String.concat "/" segs.
Proof.
  intros Hne H. unfold path_normalize.
  assert (Hnonempty : String.concat "/" segs <> "").
  { destruct segs as [|a rest]; [congruence|].
    inversion H as [|? ? [_ [Ha _]] _]; subst.
    eapply concat_nonempty; [reflexivity|exact Ha]. }
  apply String.eqb_neq in Hnonempty. rewrite Hnonempty.
  rewrite (prefix_concat segs Hne H), (endsWith_concat segs Hne H). cbn [negb].
  rewrite split_on_concat.
  - rewrite normalizeString_plain.
    + cbn [rev app]. unfold join. rewrite Hnonempty. cbn [append].
      apply append_nil_r.
    + eapply Forall_impl; [|exact H]. intros s [_ Hs]. exact Hs.
  - exact Hne.
  - eapply Forall_impl; [|exact H]. intros s [Hs _]. exact Hs.
Qed.

(** the path of the report for a brand and a date that are plain segments *)
Lemma reportPath_plain brand iso :
  plainSegment brand ->
  has_separator (split_head "T" iso) = false ->
  reportPath brand iso
  = ("brands/" ++ brand ++ "/content/06-analytics/twitter-insights/competitor-intel-"
    ++ split_head "T" iso ++ ".json")%string.
Proof.
  intros Hbrand Hdate.
  set (date := split_head "T" iso) in *.
  set (file := ("competitor-intel-" ++ date ++ ".json")%string).
  set (segs := ["brands"; brand; "content"; "06-analytics"; "twitter-insights"; file]).
  assert (Hplain : Forall plainSegment segs).
  { unfold segs.
    constructor; [repeat split; discriminate|].
    constructor; [exact Hbrand|].
    constructor; [repeat split; discriminate|].
    constructor; [repeat split; discriminate|].
    constructor; [repeat split; discriminate|].
    constructor; [|constructor].
    unfold file. repeat split; try discriminate.
    rewrite !has_separator_append, Hdate. reflexivity. }
  pose proof (path_normalize_plain segs ltac:(discriminate) Hplain) as Hn.
  assert (Hnonempty : String.concat "/" segs <> "") by discriminate.
  apply String.eqb_neq in Hnonempty.
  assert (Hjoined : join "/" (filter (fun arg => negb (String.eqb arg ""))
                                [reportDir brand;
                                 ("competitor-intel-" ++ date ++ ".json")%string])
                    = String.concat "/" segs).
  { unfold reportDir. cbn [filter String.eqb append negb]. unfold join.
    cbn [String.concat]. cbn [append]. rewrite append_assoc. reflexivity. }
  unfold reportPath, path_join. fold date. rewrite Hjoined, Hnonempty, Hn.
  cbn [String.concat]. cbn [append]. reflexivity.
Qed.

(** ** Saving and the whole run *)

Section RunProperties.
Context {rt : Runtime}.

Lemma generateInsights_frame r :
  Report.brand (generateInsights r) = Report.brand r
  /\ Report.competitors (generateInsights r) = Report.competitors r
  /\ Report.influencers (generateInsights r) = Report.influencers r
  /\ Report.trends (generateInsights r) = Report.trends r
  /\ Report.recommendations (generateInsights r) = Report.recommendations r.
Proof.
  unfold generateInsights, trendOpportunity, collaborationOpportunity,
    competitorPositioning.
  repeat match goal with
         | |- context [if ?b then _ else _] => destruct b
         end; repeat split.
Qed.

Lemma contentOpportunities_frame r :
  Report.brand (contentOpportunities r) = Report.brand r
  /\ Report.competitors (contentOpportunities r) = Report.competitors r
  /\ Report.influencers (contentOpportunities r) = Report.influencers r
  /\ Report.trends (contentOpportunities r) = Report.trends r
  /\ Report.insights (contentOpportunities r) = Report.insights r.
Proof.
  unfold contentOpportunities.
  match goal with
  | |- context [fold_left ?f ?l r] => set (step := f); generalize l
  end.
  intros l. revert r. induction l as [|e l IH]; intros r; cbn [fold_left];
    [repeat split|].
  destruct (IH (step r e)) as [H1 [H2 [H3 [H4 H5]]]].
  rewrite H1, H2, H3, H4, H5. subst step. cbn beta.
  destruct (snd e >? 0)%Z; repeat split.
Qed.

Lemma generateRecommendations_frame r :
  Report.brand (generateRecommendations r) = Report.brand r
  /\ Report.competitors (generateRecommendations r) = Report.competitors r
  /\ Report.influencers (generateRecommendations r) = Report.influencers r
  /\ Report.trends (generateRecommendations r) = Report.trends r
  /\ Report.insights (generateRecommendations r) = Report.insights r.
Proof.
  unfold generateRecommendations. rewrite engagementOptimization_idle.
  destruct (contentOpportunities_frame r) as [H1 [H2 [H3 [H4 H5]]]].
  cbn. repeat split; assumption.
Qed.

(** [saveReport], by cases on what the file system does. *)
Lemma saveReport_cases self w :
  saveReport self w
  = let dir := reportDir (CI.brand self) in
    let path := reportPath (CI.brand self) (Date_toISOString (clock w)) in
    let data := with_summary (CI.report self) in
    let w1 := mkWorld (spawned w) (S (clock w)) (trace w) in
    if fs_existsSync dir
    then match fs_writeFileSync path with
         | Some e => (Throw e, w1)
         | None => (Normal (set_report self data),
                    mkWorld (spawned w) (S (clock w)) (EvWrite path data :: trace w))
         end
    else match fs_mkdirSync dir with
         | Some e => (Throw e, w1)
         | None =>
             match fs_writeFileSync path with
             | Some e =>
                 (Throw e, mkWorld (spawned w) (S (clock w)) (EvMkdir dir :: trace w))
             | None =>
                 (Normal (set_report self data),
                  mkWorld (spawned w) (S (clock w))
                    (EvWrite path data :: EvMkdir dir :: trace w))
             end
         end.
Proof.
  unfold saveReport, bind, Date_now, saveResults, bind, mkdirSync, writeFileSync, ret,
    reportPath, reportDir.
  cbn [set_report CI.report CI.brand spawned clock trace].
  destruct (fs_existsSync _); cbn [negb].
  - destruct (fs_writeFileSync _); reflexivity.
  - destruct (fs_mkdirSync _); [reflexivity|].
    cbn [spawned clock trace]. destruct (fs_writeFileSync _); reflexivity.
Qed.

(** X13. A report that is saved goes to the file that [path.join] makes of
    the directory brands/<brand>/content/06-analytics/twitter-insights and
    the name competitor-intel-<date>.json, the date being the clock reading
    up to its first "T"; [path.join] normalises, and when the brand and the
    date are plain segments (no separator, not empty, not "." or "..") the
    file is literally
    brands/<brand>/content/06-analytics/twitter-insights/competitor-intel-<date>.json.
    What is written is the report with its summary; the directory, under its
    name as it is spelt, is made first exactly when it does not exist. *)
Theorem saveReport_writes_dated_file :
  forall self w self' w',
    saveReport self w = (Normal self', w') ->
    CI.report self' = with_summary (CI.report self)
    /\ trace w'
       = EvWrite (reportPath (CI.brand self) (Date_toISOString (clock w)))
           (with_summary (CI.report self))
         :: (if fs_existsSync (reportDir (CI.brand self)) then []
             else [EvMkdir (reportDir (CI.brand self))])
         ++ trace w
    /\ (plainSegment (CI.brand self) ->
        has_separator (split_head "T" (Date_toISOString (clock w))) = false ->
        reportPath (CI.brand self) (Date_toISOString (clock w))
        = ("brands/" ++ CI.brand self
           ++ "/content/06-analytics/twitter-insights/competitor-intel-"
           ++ split_head "T" (Date_toISOString (clock w)) ++ ".json")%string).
Proof.
  intros self w self' w'. rewrite saveReport_cases. cbv zeta.
  intros E. split; [|split; [|apply reportPath_plain]].
  - destruct (fs_existsSync _).
    + destruct (fs_writeFileSync _); [discriminate|].
      injection E as <- <-. reflexivity.
    + destruct (fs_mkdirSync _); [discriminate|].
      destruct (fs_writeFileSync _); [discriminate|].
      injection E as <- <-. reflexivity.
  - destruct (fs_existsSync _).
    + destruct (fs_writeFileSync _); [discriminate|].
      injection E as <- <-. reflexivity.
    + destruct (fs_mkdirSync _); [discriminate|].
      destruct (fs_writeFileSync _); [discriminate|].
      injection E as <- <-. reflexivity.
Qed.

Lemma optional_competitors self options w :
  exists found new w1,
    (if negb (influencersOnly_of options) then analyzeCompetitors self else ret self) w
    = (Normal (fold_left push_competitor new self), w1)
    /\ searched from (competitorsOf self options) w found w1
    /\ entries_of (competitor_analysis (CI.config self))
         (competitorsOf self options) found new
    /\ gathers (3 * List.length (competitorsOf self options)) w w1.
Proof.
  unfold competitorsOf. destruct (influencersOnly_of options); cbn [negb].
  - exists [], [], w. split; [reflexivity|]. split; [constructor|].
    split; [constructor|apply gathers_refl].
  - apply analyzeCompetitors_gathers.
Qed.

Lemma optional_influencers self options w :
  exists found new w1,
    (if negb (competitorsOnly_of options) then analyzeInfluencers self else ret self) w
    = (Normal (fold_left push_influencer new self), w1)
    /\ searched from (influencersOf self options) w found w1
    /\ entries_of (influencer_analysis (CI.config self))
         (influencersOf self options) found new
    /\ gathers (3 * List.length (influencersOf self options)) w w1.
Proof.
  unfold influencersOf. destruct (competitorsOnly_of options); cbn [negb].
  - exists [], [], w. split; [reflexivity|]. split; [constructor|].
    split; [constructor|apply gathers_refl].
  - apply analyzeInfluencers_gathers.
Qed.

(** A run is its three gathering phases, which push entries and cannot fail,
    followed by the two derivations and the save. *)
Lemma run_shape self options w :
  exists newc newi newt w3,
    gathered self options w newc newi newt w3
    /\ gathers (3 * (List.length (competitorsOf self options)
                     + List.length (influencersOf self options)
                     + List.length (keywordsOf self))) w w3
    /\ run self options w
       = match saveReport
                 (set_report
                    (fold_left push_trend newt
                       (fold_left push_influencer newi
                          (fold_left push_competitor newc self)))
                    (generateRecommendations
                       (generateInsights
                          (CI.report
                             (fold_left push_trend newt
                                (fold_left push_influencer newi
                                   (fold_left push_competitor newc self)))))))
                 w3 with
         | (Normal self6, w6) => (Normal (CI.report self6), w6)
         | (Throw e, w6) => (Throw e, w6)
         end.
Proof.
  unfold run, tryCatch, bind.
  change (match RunOptions.influencersOnly options with
          | Some b => b | None => false end) with (influencersOnly_of options).
  change (match RunOptions.competitorsOnly options with
          | Some b => b | None => false end) with (competitorsOnly_of options).
  destruct (optional_competitors self options w)
    as [foundc [newc [w1 [E1 [S1 [A1 G1]]]]]].
  rewrite E1.
  set (self1 := fold_left push_competitor newc self).
  destruct (pushed_competitors newc self) as [_ [C1 _]]. fold self1 in C1.
  destruct (optional_influencers self1 options w1)
    as [foundi [newi [w2 [E2 [S2 [A2 G2]]]]]].
  rewrite E2.
  set (self2 := fold_left push_influencer newi self1).
  destruct (pushed_influencers newi self1) as [_ [C2 _]]. fold self2 in C2.
  destruct (identifyTrends_gathers self2 w2) as [foundt [newt [w3 [E3 [S3 [A3 G3]]]]]].
  rewrite E3.
  exists newc, newi, newt, w3.
  unfold influencersOf in S2, A2, G2. rewrite C1 in S2, A2, G2.
  fold (influencersOf self options) in S2, A2, G2.
  unfold keywordsOf in S3, A3, G3. rewrite C2, C1 in S3, A3, G3.
  fold (keywordsOf self) in S3, A3, G3.
  split; [|split].
  - exists foundc, foundi, foundt, w1, w2. repeat split; assumption.
  - replace (3 * (List.length (competitorsOf self options)
                  + List.length (influencersOf self options)
                  + List.length (keywordsOf self)))
      with (3 * List.length (competitorsOf self options)
            + 3 * List.length (influencersOf self options)
            + 3 * List.length (keywordsOf self)) by lia.
    eapply gathers_trans; [eapply gathers_trans|]; eassumption.
  - cbn [set_report CI.report CI.brand CI.config CI.timestamp].
    destruct (saveReport _ w3) as [[self6|e] w6]; reflexivity.
Qed.

Lemma run_state_frame newc newi newt self :
  let self3 := fold_left push_trend newt
                 (fold_left push_influencer newi
                    (fold_left push_competitor newc self)) in
  CI.brand self3 = CI.brand self
  /\ Report.competitors (CI.report self3)
     = Report.competitors (CI.report self) ++ newc
  /\ Report.influencers (CI.report self3)
     = Report.influencers (CI.report self) ++ newi
  /\ Report.trends (CI.report self3) = Report.trends (CI.report self) ++ newt.
Proof.
  cbv zeta.
  destruct (pushed_competitors newc self) as [B1 [_ [C1 [I1 [T1 _]]]]].
  destruct (pushed_influencers newi (fold_left push_competitor newc self))
    as [B2 [_ [C2 [I2 [T2 _]]]]].
  destruct (pushed_trends newt
              (fold_left push_influencer newi (fold_left push_competitor newc self)))
    as [B3 [_ [C3 [I3 [T3 _]]]]].
  rewrite B3, B2, B1, C3, C2, C1, I3, I2, I1, T3, T2, T1. repeat split.
Qed.

(** X14. A run starts at most three child processes per competitor handle,
    per influencer handle and per keyword among the first three, counting
    only the handles its flags select; it never goes back on the number
    already started. *)
Theorem run_tool_budget :
  forall self options w,
    spawned w <= spawned (snd (run self options w))
    /\ spawned (snd (run self options w))
       <= spawned w
          + 3 * (List.length (competitorsOf self options)
                 + List.length (influencersOf self options)
                 + List.length (keywordsOf self)).
Proof.
  intros self options w.
  destruct (run_shape self options w) as [newc [newi [newt [w3 [_ [Hg Hr]]]]]].
  rewrite Hr, saveReport_cases. cbv zeta.
  destruct Hg as [_ [Hs _]].
  destruct (fs_existsSync _).
  - destruct (fs_writeFileSync _); cbn [snd spawned]; lia.
  - destruct (fs_mkdirSync _); [cbn [snd spawned]; lia|].
    destruct (fs_writeFileSync _); cbn [snd spawned]; lia.
Qed.

(** X15. A run fails exactly when the report cannot be saved, and then with
    the error of the file system: the error of making the directory when the
    directory is missing and cannot be made, otherwise the error of writing
    the file.  Nothing that happens while gathering makes the run fail. *)
Theorem run_fails_only_on_save :
  forall self options w,
    match fst (run self options w) with
    | Normal _ =>
        (fs_existsSync (reportDir (CI.brand self)) = true
         \/ fs_mkdirSync (reportDir (CI.brand self)) = None)
        /\ fs_writeFileSync
             (reportPath (CI.brand self) (Date_toISOString (clock w))) = None
    | Throw e =>
        (fs_existsSync (reportDir (CI.brand self)) = false
         /\ fs_mkdirSync (reportDir (CI.brand self)) = Some e)
        \/ ((fs_existsSync (reportDir (CI.brand self)) = true
             \/ fs_mkdirSync (reportDir (CI.brand self)) = None)
            /\ fs_writeFileSync
                 (reportPath (CI.brand self) (Date_toISOString (clock w))) = Some e)
    end.
Proof.
  intros self options w.
  destruct (run_shape self options w) as [newc [newi [newt [w3 [_ [Hg Hr]]]]]].
  rewrite Hr, saveReport_cases. cbv zeta.
  destruct (run_state_frame newc newi newt self) as [Hb _].
  cbn [set_report CI.brand]. rewrite Hb.
  destruct Hg as [Hc _]. rewrite Hc.
  destruct (fs_existsSync _) eqn:Ex.
  - destruct (fs_writeFileSync _) eqn:Ew; cbn [fst]; auto.
  - destruct (fs_mkdirSync _) eqn:Em; cbn [fst]; [auto|].
    destruct (fs_writeFileSync _) eqn:Ew; cbn [fst]; auto.
Qed.

(** X16. The report of a completed run extends each of the three sections
    of the instance by the entries that the gathering phases make: the
    competitor handles are searched first (none with [influencersOnly]), then
    the influencer handles (none with [competitorsOnly]), then the first three
    keywords, every search starting where the one before it ended, and a
    name gets an entry exactly when its search returns posts that all have a
    text.  [generateInsights] and [generateRecommendations], which run after
    the gathering, change none of the three sections of any report. *)
Theorem run_report_sections :
  forall self options w r w',
    run self options w = (Normal r, w') ->
    (exists newc newi newt w3,
       gathered self options w newc newi newt w3
       /\ Report.competitors r = Report.competitors (CI.report self) ++ newc
       /\ Report.influencers r = Report.influencers (CI.report self) ++ newi
       /\ Report.trends r = Report.trends (CI.report self) ++ newt
       /\ (competitorsOnly_of options = true -> newi = [])
       /\ (influencersOnly_of options = true -> newc = []))
    /\ (forall r0,
          Report.competitors (generateRecommendations (generateInsights r0))
          = Report.competitors r0
          /\ Report.influencers (generateRecommendations (generateInsights r0))
             = Report.influencers r0
          /\ Report.trends (generateRecommendations (generateInsights r0))
             = Report.trends r0).
Proof.
  intros self options w r w' Hrun.
  assert (Hframe : forall r0,
            Report.competitors (generateRecommendations (generateInsights r0))
            = Report.competitors r0
            /\ Report.influencers (generateRecommendations (generateInsights r0))
               = Report.influencers r0
            /\ Report.trends (generateRecommendations (generateInsights r0))
               = Report.trends r0).
  { intros r0.
    destruct (generateInsights_frame r0) as [_ [Gc [Gi [Gt _]]]].
    destruct (generateRecommendations_frame (generateInsights r0))
      as [_ [Rc [Ri [Rt _]]]].
    rewrite Rc, Ri, Rt, Gc, Gi, Gt. repeat split. }
  split; [|exact Hframe].
  destruct (run_shape self options w) as [newc [newi [newt [w3 [Hgd [_ Hr]]]]]].
  rewrite Hr, saveReport_cases in Hrun. cbv zeta in Hrun.
  destruct (run_state_frame newc newi newt self) as [_ [Hc [Hi Ht]]].
  set (self3 := fold_left push_trend newt _) in *.
  destruct (Hframe (CI.report self3)) as [Fc [Fi Ft]].
  assert (Hrep : r = with_summary
                       (generateRecommendations (generateInsights (CI.report self3)))).
  { cbn [set_report CI.report CI.brand] in Hrun.
    destruct (fs_existsSync _).
    - destruct (fs_writeFileSync _); [discriminate Hrun|].
      injection Hrun as <- _. reflexivity.
    - destruct (fs_mkdirSync _); [discriminate Hrun|].
      destruct (fs_writeFileSync _); [discriminate Hrun|].
      injection Hrun as <- _. reflexivity. }
  exists newc, newi, newt, w3.
  split; [exact Hgd|].
  rewrite Hrep. cbn [with_summary Report.competitors Report.influencers Report.trends].
  rewrite Fc, Fi, Ft.
  split; [exact Hc|]. split; [exact Hi|]. split; [exact Ht|].
  destruct Hgd as [foundc [foundi [foundt [w1 [w2 [_ [_ [_ [A1 [A2 _]]]]]]]]]].
  split.
  - intros Hf. unfold influencersOf in A2. rewrite Hf in A2.
    apply entries_nil_inv in A2. exact A2.
  - intros Hf. unfold competitorsOf in A1. rewrite Hf in A1.
    apply entries_nil_inv in A1. exact A1.
Qed.

End RunProperties.

Lemma saveReport_writes_dated_file_witness :
  exists self self' w',
    @saveReport demoHost self world0 = (Normal self', w')
    /\ trace w'
       = [EvWrite
            "brands/demo/content/06-analytics/twitter-insights/competitor-intel-2026-01-15.json"
            (CI.report self');
          EvMkdir "brands/demo/content/06-analytics/twitter-insights"].
Proof.
  set (self := CI.mk "demo" demoConfig "2026-01-15T09:30:00.000Z"
                 (Report.mk "demo" "2026-01-15T09:30:00.000Z" [] [] [] [] [] None)).
  destruct (@saveReport demoHost self world0) as [[self'|e] w'] eqn:E;
    [|vm_compute in E; discriminate E].
  exists self, self', w'. split; [exact E|].
  destruct (@saveReport_writes_dated_file demoHost self world0 self' w' E)
    as [Hr [Ht Hp]].
  rewrite Ht, Hr, Hp.
  - reflexivity.
  - repeat split; discriminate.
  - reflexivity.
Defined.

(** [path.join] normalises the path of the file, not the directory that is
    made: for the brand [x/../y] the directory made is
    brands/x/../y/content/06-analytics/twitter-insights and the file written
    is under brands/y. *)
Lemma saveReport_normalises_path :
  exists r,
    snd (@saveReport demoHost
           (CI.mk "x/../y" demoConfig "2026-01-15T09:30:00.000Z"
              (Report.mk "x/../y" "2026-01-15T09:30:00.000Z" [] [] [] [] [] None))
           world0)
    = mkWorld 0 1
        [EvWrite
           "brands/y/content/06-analytics/twitter-insights/competitor-intel-2026-01-15.json"
           r;
         EvMkdir "brands/x/../y/content/06-analytics/twitter-insights"].
Proof. eexists. vm_compute. reflexivity. Qed.

Lemma analysable_demoPost : analysable [demoPost].
Proof. split; [discriminate|]. constructor; [discriminate|constructor]. Qed.

Lemma not_analysable_nil : ~ analysable [].
Proof. intros [H _]. apply H. reflexivity. Qed.

Lemma not_analysable_blankPost : ~ analysable [blankPost].
Proof.
  intros [_ H]. inversion H as [|? ? Ht _]; subst. apply Ht. reflexivity.
Qed.

(** What the searches of a loop over the three names of [mixedConfig] find,
    wherever they start. *)
Lemma mixed_searched query x w found w' :
  (query = from \/ query = (fun keyword => keyword)) ->
  @searched mixedHost query [x; "quiet"; "blank"] w found w' ->
  (x = "a" \/ x = "x") ->
  found = [[demoPost]; []; [blankPost]] /\ spawned w' = 3 + spawned w.
Proof.
  intros Hq Hs Hx.
  apply searched_cons_inv in Hs. destruct Hs as [t1 [w1 [f1 [H1 [-> Hs]]]]].
  apply searched_cons_inv in Hs. destruct Hs as [t2 [w2 [f2 [H2 [-> Hs]]]]].
  apply searched_cons_inv in Hs. destruct Hs as [t3 [w3 [f3 [H3 [-> Hs]]]]].
  apply searched_nil_inv in Hs. destruct Hs as [-> ->].
  destruct w as [n c tr].
  destruct Hq as [-> | ->]; destruct Hx as [-> | ->];
    vm_compute in H1; injection H1 as <- <-;
    vm_compute in H2; injection H2 as <- <-;
    vm_compute in H3; injection H3 as <- <-;
    split; reflexivity.
Qed.

Lemma analyzeCompetitors_appends_witness :
  exists self' w' e,
    @analyzeCompetitors mixedHost mixedSelf world0 = (Normal self', w')
    /\ Report.competitors (CI.report self') = [e]
    /\ Competitor.handle e = "a"
    /\ Competitor.tweetsAnalyzed e = 1
    /\ spawned w' = 3.
Proof.
  destruct (@analyzeCompetitors_appends mixedHost mixedSelf world0)
    as [found [new [self' [w' [Hrun [Hs [He [_ [Hc _]]]]]]]]].
  change (or_empty (Config.competitors (CI.config mixedSelf)))
    with ["a"; "quiet"; "blank"] in Hs, He.
  destruct (mixed_searched from "a" world0 found w' (or_introl eq_refl) Hs
              (or_introl eq_refl)) as [-> Hw].
  apply entries_keep_inv in He; [|exact analysable_demoPost].
  destruct He as [e [new' [-> [[Hh [Hn _]] He]]]].
  apply entries_skip_inv in He; [|exact not_analysable_nil].
  apply entries_skip_inv in He; [|exact not_analysable_blankPost].
  apply entries_nil_inv in He. subst new'.
  exists self', w', e. split; [exact Hrun|]. split; [exact Hc|].
  split; [exact Hh|]. split; [exact Hn|exact Hw].
Defined.

Lemma analyzeInfluencers_appends_witness :
  exists self' w' e,
    @analyzeInfluencers mixedHost mixedSelf world0 = (Normal self', w')
    /\ Report.influencers (CI.report self') = [e]
    /\ Influencer.handle e = "a"
    /\ Influencer.collaborationPotential e
       = Collaboration.mk 5 "low" "Lower engagement - monitor before outreach"
    /\ spawned w' = 3.
Proof.
  destruct (@analyzeInfluencers_appends mixedHost mixedSelf world0)
    as [found [new [self' [w' [Hrun [Hs [He [_ [Hc _]]]]]]]]].
  change (or_empty (Config.influencers (CI.config mixedSelf)))
    with ["a"; "quiet"; "blank"] in Hs, He.
  destruct (mixed_searched from "a" world0 found w' (or_introl eq_refl) Hs
              (or_introl eq_refl)) as [-> Hw].
  apply entries_keep_inv in He; [|exact analysable_demoPost].
  destruct He as [e [new' [-> [[Hh [_ [_ [_ [_ Hp]]]]] He]]]].
  apply entries_skip_inv in He; [|exact not_analysable_nil].
  apply entries_skip_inv in He; [|exact not_analysable_blankPost].
  apply entries_nil_inv in He. subst new'.
  exists self', w', e. split; [exact Hrun|]. split; [exact Hc|].
  split; [exact Hh|]. split; [rewrite Hp; reflexivity|exact Hw].
Defined.

Lemma identifyTrends_appends_witness :
  exists self' w' e,
    @identifyTrends mixedHost mixedSelf world0 = (Normal self', w')
    /\ Report.trends (CI.report self') = [e]
    /\ Trend.keyword e = "x"
    /\ Trend.trendStrength e = TrendStrength.mk 75 "moderate"
    /\ spawned w' = 3.
Proof.
  destruct (@identifyTrends_appends mixedHost mixedSelf world0)
    as [found [new [self' [w' [Hrun [Hs [He [_ [Hc _]]]]]]]]].
  change (keywordsOf mixedSelf) with ["x"; "quiet"; "blank"] in Hs, He.
  destruct (mixed_searched (fun keyword => keyword) "x" world0 found w'
              (or_intror eq_refl) Hs (or_intror eq_refl)) as [-> Hw].
  apply entries_keep_inv in He; [|exact analysable_demoPost].
  destruct He as [e [new' [-> [[Hk [_ [_ [Hst _]]]] He]]]].
  apply entries_skip_inv in He; [|exact not_analysable_nil].
  apply entries_skip_inv in He; [|exact not_analysable_blankPost].
  apply entries_nil_inv in He. subst new'.
  exists self', w', e. split; [exact Hrun|]. split; [exact Hc|].
  split; [exact Hk|]. split; [rewrite Hst; reflexivity|exact Hw].
Defined.

Lemma run_report_sections_witness :
  exists r w' c i t,
    @run mixedHost mixedSelf (RunOptions.mk None None) world0 = (Normal r, w')
    /\ Report.competitors r = [c] /\ Competitor.handle c = "a"
    /\ Report.influencers r = [i] /\ Influencer.handle i = "a"
    /\ Report.trends r = [t] /\ Trend.keyword t = "x".
Proof.
  destruct (@run mixedHost mixedSelf (RunOptions.mk None None) world0)
    as [[r|e] w'] eqn:E; [|vm_compute in E; discriminate E].
  destruct (@run_report_sections mixedHost mixedSelf (RunOptions.mk None None)
              world0 r w' E)
    as [[newc [newi [newt [w3 [Hgd [Hc [Hi [Ht _]]]]]]]] _].
  destruct Hgd as [foundc [foundi [foundt [w1 [w2 [S1 [S2 [S3 [A1 [A2 A3]]]]]]]]]].
  change (competitorsOf mixedSelf (RunOptions.mk None None))
    with ["a"; "quiet"; "blank"] in S1, A1.
  change (influencersOf mixedSelf (RunOptions.mk None None))
    with ["a"; "quiet"; "blank"] in S2, A2.
  change (keywordsOf mixedSelf) with ["x"; "quiet"; "blank"] in S3, A3.
  destruct (mixed_searched from "a" world0 foundc w1 (or_introl eq_refl) S1
              (or_introl eq_refl)) as [-> _].
  destruct (mixed_searched from "a" w1 foundi w2 (or_introl eq_refl) S2
              (or_introl eq_refl)) as [-> _].
  destruct (mixed_searched (fun keyword => keyword) "x" w2 foundt w3
              (or_intror eq_refl) S3 (or_intror eq_refl)) as [-> _].
  apply entries_keep_inv in A1; [|exact analysable_demoPost].
  destruct A1 as [c [newc' [-> [[Hhc _] A1]]]].
  apply entries_skip_inv in A1; [|exact not_analysable_nil].
  apply entries_skip_inv in A1; [|exact not_analysable_blankPost].
  apply entries_nil_inv in A1. subst newc'.
  apply entries_keep_inv in A2; [|exact analysable_demoPost].
  destruct A2 as [i [newi' [-> [[Hhi _] A2]]]].
  apply entries_skip_inv in A2; [|exact not_analysable_nil].
  apply entries_skip_inv in A2; [|exact not_analysable_blankPost].
  apply entries_nil_inv in A2. subst newi'.
  apply entries_keep_inv in A3; [|exact analysable_demoPost].
  destruct A3 as [t [newt' [-> [[Hkt _] A3]]]].
  apply entries_skip_inv in A3; [|exact not_analysable_nil].
  apply entries_skip_inv in A3; [|exact not_analysable_blankPost].
  apply entries_nil_inv in A3. subst newt'.
  exists r, w', c, i, t. split; [reflexivity|].
  split; [exact Hc|]. split; [exact Hhc|]. split; [exact Hi|].
  split; [exact Hhi|]. split; [exact Ht|exact Hkt].
Defined.

(** ** Insights *)

Lemma skipn_length_app {X} (l l' : list X) : skipn (List.length l) (l ++ l') = l'.
Proof. induction l as [|x l IH]; [reflexivity|exact IH]. Qed.

Lemma filter_nonempty_existsb {X} (f : X -> bool) (l : list X) :
  (0 <? List.length (filter f l)) = existsb f l.
Proof.
  induction l as [|x l IH]; [reflexivity|]. cbn [filter existsb].
  destruct (f x); [reflexivity|exact IH].
Qed.

Lemma existsb_nonempty {X} (f : X -> bool) (l : list X) :
  existsb f l = true -> (0 <? List.length l) = true.
Proof. destruct l; [discriminate|reflexivity]. Qed.

Section InsightProperties.
Context {rt : Runtime}.

(** The insights after [generateInsights], piece by piece. *)
Lemma generateInsights_pieces (r : Report.t) :
  exists positioning,
    Report.insights (competitorPositioning r)
    = Report.insights r
      ++ (if 0 <? List.length (Report.competitors r)
          then [CompetitorPositioning positioning
                  "Consider differentiating with other angles like frameworks, case studies, or contrarian takes"]
          else [])
    /\ Report.insights (generateInsights r)
    = Report.insights r
      ++ (if 0 <? List.length (Report.competitors r)
          then [CompetitorPositioning positioning
                  "Consider differentiating with other angles like frameworks, case studies, or contrarian takes"]
          else [])
      ++ (if existsb (fun i =>
                        (Collaboration.score (Influencer.collaborationPotential i) >? 70)%Z)
               (Report.influencers r)
          then [CollaborationOpportunity
                  (String_of_nat (List.length (highPotentialOf r))
                   ++ " influencer(s) with high collaboration potential")
                  (map (fun i => ("@" ++ Influencer.handle i)%string) (highPotentialOf r))
                  "Prioritize outreach to high-potential influencers"]
          else [])
      ++ (if existsb (fun t =>
                        String.eqb (TrendStrength.level (Trend.trendStrength t)) "strong")
               (Report.trends r)
          then [TrendOpportunity
                  (String_of_nat (List.length (strongTrendsOf r))
                   ++ " strong trend(s) in niche")
                  (map (fun t =>
                          (dq ++ Trend.keyword t ++ dq ++ " (strength: "
                           ++ String_of_Z (TrendStrength.score (Trend.trendStrength t))
                           ++ ")")%string)
                     (strongTrendsOf r))
                  "Create content around strong trends for higher engagement"]
          else []).
Proof.
  unfold generateInsights.
  set (r1 := competitorPositioning r).
  set (r2 := collaborationOpportunity r1).
  assert (H1 : exists positioning,
             Report.insights r1
             = Report.insights r
               ++ (if 0 <? List.length (Report.competitors r)
                   then [CompetitorPositioning positioning
                           "Consider differentiating with other angles like frameworks, case studies, or contrarian takes"]
                   else [])
             /\ Report.influencers r1 = Report.influencers r
             /\ Report.trends r1 = Report.trends r).
  { subst r1. unfold competitorPositioning.
    destruct (0 <? List.length (Report.competitors r)).
    - eexists. cbn. repeat split.
    - exists "". rewrite app_nil_r. repeat split. }
  destruct H1 as [positioning [I1 [F1 T1]]].
  assert (H2 : Report.insights r2
               = Report.insights r1
                 ++ (if existsb (fun i =>
                                   (Collaboration.score
                                      (Influencer.collaborationPotential i) >? 70)%Z)
                          (Report.influencers r)
                     then [CollaborationOpportunity
                             (String_of_nat (List.length (highPotentialOf r))
                              ++ " influencer(s) with high collaboration potential")
                             (map (fun i => ("@" ++ Influencer.handle i)%string)
                                (highPotentialOf r))
                             "Prioritize outreach to high-potential influencers"]
                     else [])
               /\ Report.trends r2 = Report.trends r).
  { subst r2. unfold collaborationOpportunity, highPotentialOf. rewrite F1.
    rewrite filter_nonempty_existsb.
    destruct (existsb _ (Report.influencers r)) eqn:Ex.
    - rewrite (existsb_nonempty _ _ Ex). cbn. split; [reflexivity|exact T1].
    - rewrite app_nil_r.
      destruct (0 <? List.length (Report.influencers r)); split;
        (reflexivity || exact T1). }
  destruct H2 as [I2 T2].
  exists positioning. split; [exact I1|].
  unfold trendOpportunity, strongTrendsOf. rewrite T2.
  rewrite filter_nonempty_existsb.
  destruct (existsb _ (Report.trends r)) eqn:Ex.
  - rewrite (existsb_nonempty _ _ Ex). cbn [push_insight Report.insights].
    rewrite I2, I1, <- !app_assoc. reflexivity.
  - rewrite app_nil_r.
    destruct (0 <? List.length (Report.trends r));
      rewrite I2, I1, <- !app_assoc; reflexivity.
Qed.

(** X17. [generateInsights] keeps the insights that are there and adds at most
    one insight of each type, in a fixed order: the competitor positioning
    when there is a competitor entry, the collaboration opportunity when some
    influencer entry scores above 70, the trend opportunity when some trend
    entry has level "strong". *)
Theorem generateInsights_adds_by_type :
  forall r,
    Report.insights (generateInsights r) = Report.insights r ++ addedInsights r
    /\ map insight_type (addedInsights r)
       = (if 0 <? List.length (Report.competitors r)
          then ["competitor-positioning"] else [])
         ++ (if existsb (fun i =>
                           (Collaboration.score (Influencer.collaborationPotential i)
                            >? 70)%Z)
                  (Report.influencers r)
             then ["collaboration-opportunity"] else [])
         ++ (if existsb (fun t =>
                           String.eqb (TrendStrength.level (Trend.trendStrength t))
                             "strong")
                  (Report.trends r)
             then ["trend-opportunity"] else []).
Proof.
  intros r. destruct (generateInsights_pieces r) as [positioning [_ H]].
  unfold addedInsights. rewrite H, skipn_length_app. split; [reflexivity|].
  rewrite !map_app.
  destruct (0 <? _); destruct (existsb _ (Report.influencers r));
    destruct (existsb _ (Report.trends r)); reflexivity.
Qed.

(** X18. The collaboration opportunity that [generateInsights] adds lists,
    with an "@" before each, the handles of exactly the influencer entries
    that score above 70, in the order of the report, and its description
    starts with their number; the trend opportunity lists exactly the trend
    entries of level "strong", each as its quoted keyword and score. *)
Theorem generateInsights_lists_targets :
  forall r,
    (forall description targets actionable,
       In (CollaborationOpportunity description targets actionable) (addedInsights r) ->
       targets = map (fun i => ("@" ++ Influencer.handle i)%string) (highPotentialOf r)
       /\ highPotentialOf r <> []
       /\ description
          = (String_of_nat (List.length (highPotentialOf r))
             ++ " influencer(s) with high collaboration potential")%string)
    /\ (forall description trends actionable,
          In (TrendOpportunity description trends actionable) (addedInsights r) ->
          trends = map (fun t =>
                          (dq ++ Trend.keyword t ++ dq ++ " (strength: "
                           ++ String_of_Z (TrendStrength.score (Trend.trendStrength t))
                           ++ ")")%string)
                     (strongTrendsOf r)
          /\ strongTrendsOf r <> []
          /\ description
             = (String_of_nat (List.length (strongTrendsOf r))
                ++ " strong trend(s) in niche")%string).
Proof.
  intros r. destruct (generateInsights_pieces r) as [positioning [_ H]].
  unfold addedInsights. rewrite H, skipn_length_app.
  assert (Hhigh : existsb (fun i =>
                             (Collaboration.score (Influencer.collaborationPotential i)
                              >? 70)%Z) (Report.influencers r) = true ->
                  highPotentialOf r <> []).
  { intros Ex Hnil. unfold highPotentialOf in Hnil.
    rewrite <- filter_nonempty_existsb, Hnil in Ex. discriminate Ex. }
  assert (Hstrong : existsb (fun t =>
                               String.eqb (TrendStrength.level (Trend.trendStrength t))
                                 "strong") (Report.trends r) = true ->
                    strongTrendsOf r <> []).
  { intros Ex Hnil. unfold strongTrendsOf in Hnil.
    rewrite <- filter_nonempty_existsb, Hnil in Ex. discriminate Ex. }
  split.
  - intros d targets a Hin.
    apply in_app_or in Hin. destruct Hin as [Hin|Hin].
    { destruct (0 <? _); [destruct Hin as [E|[]]; discriminate E|destruct Hin]. }
    apply in_app_or in Hin. destruct Hin as [Hin|Hin].
    + destruct (existsb _ (Report.influencers r)) eqn:Ex; [|destruct Hin].
      destruct Hin as [E|[]]. injection E as <- <- _.
      split; [reflexivity|]. split; [apply Hhigh; reflexivity|reflexivity].
    + destruct (existsb _ (Report.trends r)); [|destruct Hin].
      destruct Hin as [E|[]]. discriminate E.
  - intros d ts a Hin.
    apply in_app_or in Hin. destruct Hin as [Hin|Hin].
    { destruct (0 <? _); [destruct Hin as [E|[]]; discriminate E|destruct Hin]. }
    apply in_app_or in Hin. destruct Hin as [Hin|Hin].
    + destruct (existsb _ (Report.influencers r)); [|destruct Hin].
      destruct Hin as [E|[]]. discriminate E.
    + destruct (existsb _ (Report.trends r)) eqn:Ex; [|destruct Hin].
      destruct Hin as [E|[]]. injection E as <- <- _.
      split; [reflexivity|]. split; [apply Hstrong; reflexivity|reflexivity].
Qed.

(** *** The most frequent theme *)

Lemma themeSums_get (themes : list Theme.t) : forall (d : Dict.t Z) k,
  get_or_0
    (fold_left (fun acc t =>
                  Dict.set acc (Theme.theme t)
                    (get_or_0 acc (Theme.theme t) + numberOf (Theme.frequency t))%Z)
       themes d) k
  = (get_or_0 d k + summedFrequency k themes)%Z.
Proof.
  unfold summedFrequency.
  induction themes as [|t l IH]; intros d k; cbn [fold_left filter].
  - cbn. lia.
  - rewrite IH.
    destruct (String.eqb_spec (Theme.theme t) k) as [E|E].
    + subst. unfold get_or_0 at 1. rewrite get_set_same. cbn [map fold_right]. lia.
    + unfold get_or_0 at 1. rewrite get_set_other by congruence.
      fold (get_or_0 d k). reflexivity.
Qed.

Lemma themeSums_keys (themes : list Theme.t) : forall (d : Dict.t Z),
  NoDup (map fst d) ->
  NoDup (map fst
           (fold_left (fun acc t =>
                         Dict.set acc (Theme.theme t)
                           (get_or_0 acc (Theme.theme t)
                            + numberOf (Theme.frequency t))%Z)
              themes d))
  /\ forall k,
       In k (map fst
               (fold_left (fun acc t =>
                             Dict.set acc (Theme.theme t)
                               (get_or_0 acc (Theme.theme t)
                                + numberOf (Theme.frequency t))%Z)
                  themes d))
       <-> In k (map fst d) \/ In k (map Theme.theme themes).
Proof.
  induction themes as [|t l IH]; intros d Hnd; cbn [fold_left map In].
  - split; [exact Hnd|]. intros k. tauto.
  - destruct (IH (Dict.set d (Theme.theme t)
                    (get_or_0 d (Theme.theme t) + numberOf (Theme.frequency t))%Z))
      as [Hnd' Hin]; [apply NoDup_keys_set; exact Hnd|].
    split; [exact Hnd'|]. intros k. rewrite Hin, in_keys_set. intuition congruence.
Qed.

(** Summing plain themes in the counting object is summing numbers. *)
Lemma themeSums_plain (themes : list Theme.t) : forall (d : Dict.t Z),
  plainThemes themes ->
  fold_left (fun acc t =>
               Object_set acc (Theme.theme t)
                 (Count.plus (Object_get_or_0 acc (Theme.theme t))
                    (Theme.frequency t)))
    themes (nums d)
  = nums (fold_left (fun acc t =>
                       Dict.set acc (Theme.theme t)
                         (get_or_0 acc (Theme.theme t)
                          + numberOf (Theme.frequency t))%Z)
            themes d).
Proof.
  induction themes as [|t l IH]; intros d Hp; cbn [fold_left]; [reflexivity|].
  inversion Hp as [|? ? [Hk [n Hn]] Hl]; subst.
  rewrite Hn. cbn [numberOf]. rewrite (Object_update_plain d _ n Hk).
  apply IH. exact Hl.
Qed.

(** The first element of a sorted array comes before every element. *)
Lemma Array_sort_hd {X} (cmp : X -> X -> Z) (l : list X) x :
  (forall a b, (cmp a b <= 0)%Z \/ (cmp b a <= 0)%Z) ->
  (forall a b c, (cmp a b <= 0)%Z -> (cmp b c <= 0)%Z -> (cmp a c <= 0)%Z) ->
  hd_error (Array_sort cmp l) = Some x ->
  In x l /\ forall y, In y l -> (cmp x y <= 0)%Z.
Proof.
  intros Htot Htrans Hhd.
  pose proof (Array_sort_sorted cmp Htot l) as Hs.
  apply Sorted_StronglySorted in Hs; [|exact Htrans].
  pose proof (Array_sort_perm cmp l) as Hp.
  destruct (Array_sort cmp l) as [|z zs]; [discriminate Hhd|].
  injection Hhd as ->.
  split; [apply (Permutation_in _ Hp); left; reflexivity|].
  intros y Hy. apply (Permutation_in _ (Permutation_sym Hp)) in Hy.
  inversion Hs as [|? ? _ Hall]; subst.
  destruct Hy as [<-|Hy].
  - destruct (Htot x x); assumption.
  - rewrite Forall_forall in Hall. apply Hall. exact Hy.
Qed.

Lemma Array_sort_nil_iff {X} (cmp : X -> X -> Z) (l : list X) :
  hd_error (Array_sort cmp l) = None -> l = [].
Proof.
  intros H. pose proof (Array_sort_perm cmp l) as Hp.
  destruct (Array_sort cmp l); [|discriminate H].
  apply Permutation_nil in Hp. exact Hp.
Qed.

(** X19. When there is a competitor entry and the themes of the competitor
    entries have plain names (none names a member of [Object.prototype]) and
    numbers as frequencies, the first insight added is the competitor
    positioning, and it names a theme whose frequency, summed over the theme
    lists of all competitor entries, is the largest, with that sum as its
    number of mentions; without any theme (or for the empty keyword) it names
    "unknown". *)
Theorem competitorPositioning_names_top_theme :
  forall r,
    Report.competitors r <> [] ->
    plainThemes (flatMap Competitor.contentThemes (Report.competitors r)) ->
    exists k n,
      hd_error (addedInsights r)
      = Some (CompetitorPositioning
                ("Competitors heavily focus on " ++ dq ++ k ++ dq ++ " ("
                 ++ String_of_Z n ++ " mentions)")
                "Consider differentiating with other angles like frameworks, case studies, or contrarian takes")
      /\ ((flatMap Competitor.contentThemes (Report.competitors r) = []
           /\ k = "unknown" /\ n = 0%Z)
          \/ exists k0,
               In k0 (map Theme.theme
                        (flatMap Competitor.contentThemes (Report.competitors r)))
               /\ k = (if String.eqb k0 "" then "unknown" else k0)
               /\ n = summedFrequency k0
                        (flatMap Competitor.contentThemes (Report.competitors r))
               /\ forall k',
                    In k' (map Theme.theme
                             (flatMap Competitor.contentThemes (Report.competitors r))) ->
                    (summedFrequency k'
                       (flatMap Competitor.contentThemes (Report.competitors r))
                     <= n)%Z).
Proof.
  intros r Hne Hplain.
  assert (Hlen : (0 <? List.length (Report.competitors r)) = true).
  { destruct (Report.competitors r); [congruence|reflexivity]. }
  destruct (generateInsights_pieces r) as [positioning [Hcp Hall]].
  rewrite Hlen in Hcp, Hall.
  assert (Hhd : hd_error (addedInsights r)
                = Some (CompetitorPositioning positioning
                          "Consider differentiating with other angles like frameworks, case studies, or contrarian takes")).
  { unfold addedInsights. rewrite Hall, skipn_length_app. reflexivity. }
  set (themes := flatMap Competitor.contentThemes (Report.competitors r)) in *.
  set (d := fold_left (fun acc t =>
                         Dict.set acc (Theme.theme t)
                           (get_or_0 acc (Theme.theme t)
                            + numberOf (Theme.frequency t))%Z)
              themes Dict.empty).
  set (cmp := fun a b : string * Z => (snd b - snd a)%Z).
  assert (Hdesc : positioning
                  = ("Competitors heavily focus on " ++ dq
                     ++ match hd_error (Array_sort cmp (Dict.entries d)) with
                        | Some (k, _) => if String.eqb k "" then "unknown" else k
                        | None => "unknown"
                        end
                     ++ dq ++ " ("
                     ++ String_of_Z match hd_error (Array_sort cmp (Dict.entries d)) with
                                    | Some (_, n) => n
                                    | None => 0%Z
                                    end
                     ++ " mentions)")%string).
  { unfold competitorPositioning in Hcp. rewrite Hlen in Hcp.
    cbn [push_insight Report.insights] in Hcp.
    apply app_inv_head in Hcp. injection Hcp as Hcp. rewrite <- Hcp.
    fold themes. change (@Dict.empty Count.t) with (nums Dict.empty).
    rewrite (themeSums_plain themes Dict.empty Hplain). fold d.
    rewrite nums_entries. unfold nums.
    rewrite (sortDescending_nums (fun kv : string * Z => (fst kv, Count.Num (snd kv)))
               snd snd engine_sort (Dict.entries d)) by reflexivity.
    fold cmp. destruct (Array_sort cmp (Dict.entries d)) as [|[k0 n0] l];
      cbn [map hd_error fst snd]; [reflexivity|].
    cbn [Count.or_0 Count.truthy].
    destruct (Z.eqb_spec n0 0) as [->|_]; reflexivity. }
  destruct (themeSums_keys themes Dict.empty ltac:(constructor)) as [Hnd Hkeys].
  fold d in Hnd, Hkeys.
  assert (Hsum : forall k, get_or_0 d k = summedFrequency k themes).
  { intros k. unfold d. rewrite themeSums_get. reflexivity. }
  destruct (hd_error (Array_sort cmp (Dict.entries d))) as [[k0 n0]|] eqn:Etop.
  - exists (if String.eqb k0 "" then "unknown" else k0), n0.
    split; [rewrite Hhd, Hdesc; reflexivity|]. right.
    destruct (Array_sort_hd cmp (Dict.entries d) (k0, n0)) as [Hin Hmax].
    + intros a b. unfold cmp. lia.
    + intros a b c. unfold cmp. lia.
    + exact Etop.
    + apply (Permutation_in _ (entries_perm d)) in Hin.
      assert (Hk0 : In k0 (map fst d)) by (apply in_map_iff; exists (k0, n0); auto).
      pose proof (get_of_in d k0 n0 Hnd Hin) as Hget.
      assert (Hn0 : n0 = summedFrequency k0 themes).
      { rewrite <- Hsum. unfold get_or_0. rewrite Hget. reflexivity. }
      exists k0. split.
      { apply Hkeys in Hk0. destruct Hk0 as [[]|Hk0]. exact Hk0. }
      split; [reflexivity|]. split; [exact Hn0|].
      intros k' Hk'.
      assert (Hk'd : In k' (map fst d)) by (apply Hkeys; right; exact Hk').
      apply in_map_iff in Hk'd. destruct Hk'd as [[k1 v1] [E1 Hin1]].
      cbn in E1. subst k1.
      pose proof (get_of_in d k' v1 Hnd Hin1) as Hget1.
      rewrite <- Hsum. unfold get_or_0. rewrite Hget1.
      specialize (Hmax (k', v1)
                    (Permutation_in _ (Permutation_sym (entries_perm d)) Hin1)).
      unfold cmp in Hmax. cbn [snd] in Hmax. lia.
  - exists "unknown", 0%Z. split; [rewrite Hhd, Hdesc; reflexivity|]. left.
    apply Array_sort_nil_iff in Etop.
    assert (Hd : d = []).
    { pose proof (entries_perm d) as Hp. rewrite Etop in Hp.
      apply Permutation_nil in Hp. exact Hp. }
    split; [|split; reflexivity].
    destruct themes as [|t l] eqn:Et; [reflexivity|].
    exfalso.
    assert (Hin : In (Theme.theme t) (map fst d))
      by (apply Hkeys; right; left; reflexivity).
    rewrite Hd in Hin. destruct Hin.
Qed.

End InsightProperties.

(** ** Content opportunities *)

Lemma gapCounts_spec (gaps : list string) : forall d,
  counted d ->
  counted (fold_left (fun acc g => Dict.set acc g (get_or_0 acc g + 1)%Z) gaps d)
  /\ forall g,
       get_or_0 (fold_left (fun acc g => Dict.set acc g (get_or_0 acc g + 1)%Z) gaps d) g
       = (get_or_0 d g + Z.of_nat (count_occ string_dec gaps g))%Z.
Proof.
  induction gaps as [|x l IH]; intros d Hc; cbn [fold_left count_occ].
  - split; [exact Hc|]. intros g. cbn. lia.
  - assert (Hc' : counted (Dict.set d x (get_or_0 d x + 1)%Z)).
    { pose proof (get_or_0_nonneg d x Hc) as Hnn. destruct Hc as [Hnd Hpos].
      split; [apply NoDup_keys_set; exact Hnd|].
      intros k v. destruct (string_dec k x) as [E|E].
      - subst. rewrite get_set_same. intros H. injection H as <-. lia.
      - rewrite get_set_other by exact E. apply Hpos. }
    destruct (IH _ Hc') as [Hc2 Hget]. split; [exact Hc2|].
    intros g. rewrite Hget.
    destruct (string_dec x g) as [E|E].
    + subst. unfold get_or_0 at 1. rewrite get_set_same. lia.
    + unfold get_or_0 at 1. rewrite get_set_other by congruence.
      fold (get_or_0 d g). lia.
Qed.

Lemma contentOpportunities_all (l : list (string * Z)) : forall r,
  (forall e, In e l -> (0 < snd e)%Z) ->
  Report.recommendations
    (fold_left (fun r e =>
                  let gap := fst e in
                  let count := snd e in
                  if (count >? 0)%Z
                  then
                    push_recommendation r
                      (ContentOpportunity gap
                         (if (count >? 1)%Z then "high" else "medium")
                         ("Missing " ++ dq ++ gap ++ dq ++ " angle across "
                          ++ String_of_Z count ++ " trends"))
                  else r) l r)
  = Report.recommendations r
    ++ map (fun e =>
              ContentOpportunity (fst e)
                (if (snd e >? 1)%Z then "high" else "medium")
                ("Missing " ++ dq ++ fst e ++ dq ++ " angle across "
                 ++ String_of_Z (snd e) ++ " trends")) l.
Proof.
  induction l as [|e l IH]; intros r Hpos; cbn [fold_left map].
  - rewrite app_nil_r. reflexivity.
  - rewrite IH by (intros e' He'; apply Hpos; right; exact He').
    cbv zeta.
    assert (Hgt : (snd e >? 0)%Z = true).
    { apply Z.gtb_lt. apply Hpos. left. reflexivity. }
    rewrite Hgt. cbn [push_recommendation Report.recommendations].
    rewrite <- app_assoc. reflexivity.
Qed.

(** X20. [generateRecommendations] keeps the recommendations that are there
    and first adds one content opportunity per distinct content gap of the
    trend entries: its priority is "high" when the gap is listed more than
    once across the trends and "medium" otherwise, and its reasoning gives
    that number.  What it adds after them is of another type and ends with the
    fixed daily posting strategy. *)
Theorem generateRecommendations_content_opportunities :
  forall r,
    exists opportunities rest,
      Report.recommendations (generateRecommendations r)
      = Report.recommendations r ++ opportunities ++ rest
           ++ [PostingStrategy "daily" "high"
                 "Competitors maintain daily posting for niche relevance"]
      /\ (forall gap priority reasoning,
            In (ContentOpportunity gap priority reasoning) opportunities <->
            In gap (flatMap Trend.contentGaps (Report.trends r))
            /\ priority
               = (if 1 <? count_occ string_dec
                            (flatMap Trend.contentGaps (Report.trends r)) gap
                  then "high" else "medium")
            /\ reasoning
               = ("Missing " ++ dq ++ gap ++ dq ++ " angle across "
                  ++ String_of_nat
                       (count_occ string_dec
                          (flatMap Trend.contentGaps (Report.trends r)) gap)
                  ++ " trends")%string)
      /\ Forall (fun x => recommendation_type x = "content-opportunity") opportunities
      /\ List.length opportunities
         = List.length (nodup string_dec (flatMap Trend.contentGaps (Report.trends r)))
      /\ Forall (fun x => recommendation_type x <> "content-opportunity") rest.
Proof.
  intros r.
  set (gaps := flatMap Trend.contentGaps (Report.trends r)).
  set (d := fold_left (fun acc g => Dict.set acc g (get_or_0 acc g + 1)%Z)
              gaps Dict.empty).
  destruct (gapCounts_spec gaps Dict.empty counted_empty) as [Hc Hget].
  fold d in Hc, Hget.
  assert (Hval : forall g v, In (g, v) d -> v = Z.of_nat (count_occ string_dec gaps g)).
  { intros g v Hin. apply get_of_in in Hin; [|apply Hc].
    specialize (Hget g). unfold get_or_0 at 1 in Hget. rewrite Hin in Hget.
    rewrite Hget. cbn. lia. }
  assert (Hkey : forall g, In g (map fst d) <-> In g gaps).
  { intros g. rewrite (counted_in_keys d g Hc), Hget. cbn.
    rewrite (count_occ_In string_dec). lia. }
  set (mk := fun e : string * Z =>
               ContentOpportunity (fst e)
                 (if (snd e >? 1)%Z then "high" else "medium")
                 ("Missing " ++ dq ++ fst e ++ dq ++ " angle across "
                  ++ String_of_Z (snd e) ++ " trends")).
  exists (map mk (Dict.entries d)), [].
  split.
  { rewrite generateRecommendations_posting_last. unfold contentOpportunities.
    fold gaps. fold d. rewrite contentOpportunities_all.
    - cbn [app]. rewrite <- app_assoc. reflexivity.
    - intros [g v] Hin. apply (Permutation_in _ (entries_perm d)) in Hin.
      apply get_of_in in Hin; [|apply Hc]. cbn [snd]. apply (proj2 Hc g v Hin). }
  split.
  { intros gap priority reasoning. rewrite in_map_iff. split.
    - intros [[g v] [E Hin]]. unfold mk in E. cbn [fst snd] in E.
      injection E as <- <- <-.
      apply (Permutation_in _ (entries_perm d)) in Hin.
      pose proof (Hval g v Hin) as Hv.
      split; [apply Hkey; apply in_map_iff; exists (g, v); auto|].
      subst v. split; [|reflexivity].
      destruct (Z.gtb_spec (Z.of_nat (count_occ string_dec gaps g)) 1);
        destruct (Nat.ltb_spec 1 (count_occ string_dec gaps g)); (reflexivity || lia).
    - intros [Hin [-> ->]]. apply Hkey in Hin. apply in_map_iff in Hin.
      destruct Hin as [[g v] [E Hin]]. cbn in E. subst g.
      pose proof (Hval gap v Hin) as Hv.
      exists (gap, v). split.
      + unfold mk. cbn [fst snd]. subst v. unfold String_of_nat. f_equal.
        destruct (Z.gtb_spec (Z.of_nat (count_occ string_dec gaps gap)) 1);
          destruct (Nat.ltb_spec 1 (count_occ string_dec gaps gap)); (reflexivity || lia).
      + apply (Permutation_in _ (Permutation_sym (entries_perm d))). exact Hin. }
  split; [apply Forall_map; apply Forall_forall; intros e _; reflexivity|].
  split; [|constructor].
  rewrite length_map, (Permutation_length (entries_perm d)), <- (length_map fst).
  apply Permutation_length. apply NoDup_Permutation.
  - apply Hc.
  - apply NoDup_nodup.
  - intros g. rewrite Hkey, nodup_In. reflexivity.
Qed.

(** ** Construction, the command line and the login check *)

Section CommandProperties.
Context {rt : Runtime}.

(** X21. Making an instance fails before any effect when the configuration
    file is missing (with a message that names the file), cannot be read
    (with the error of the read) or is not JSON (with the SyntaxError of the
    parser), and when [config[brand]] is falsy: the brand has a falsy entry,
    or it has no entry and does not name a member of [Object.prototype]
    (with a message that names the brand).  Otherwise the instance has an
    empty report stamped with the time read from the clock, and its
    configuration is the entry of the brand or, for a brand such as
    [toString] that has no entry but names an inherited member, one without
    keywords, competitors and influencers. *)
Theorem constructor_outcome :
  forall brand w,
    (bird_config = NoSuchFile ->
     constructor brand w
     = (Throw (newError ("Config file not found: "
                         ++ path_join dirname "bird-config.json")), w))
    /\ (forall error, bird_config = Unreadable error ->
        constructor brand w = (Throw error, w))
    /\ (forall msg, bird_config = Malformed msg ->
        constructor brand w = (Throw (mkError "SyntaxError" msg), w))
    /\ (forall table,
          bird_config = Parsed table ->
          Dict.get table brand = Some None
          \/ (Dict.get table brand = None /\ ~ In brand Object_prototype) ->
          constructor brand w
          = (Throw (newError ("Brand not found in config: " ++ brand)), w))
    /\ (forall table config,
          bird_config = Parsed table ->
          Dict.get table brand = Some (Some config)
          \/ (Dict.get table brand = None /\ In brand Object_prototype
              /\ config = Config.mk None None None) ->
          constructor brand w
          = (Normal (CI.mk brand config (Date_toISOString (clock w))
                       (Report.mk brand (Date_toISOString (clock w))
                          [] [] [] [] [] None)),
             mkWorld (spawned w) (S (clock w)) (trace w))).
Proof.
  intros brand w.
  unfold constructor, bind, lift, getBrandConfig, loadConfig, cbind, Date_now, ret.
  split; [|split; [|split; [|split]]].
  - intros ->. reflexivity.
  - intros error ->. reflexivity.
  - intros msg ->. reflexivity.
  - intros table -> [->|[-> Hn]]; [reflexivity|].
    destruct (inherited brand) eqn:E; [|reflexivity].
    exfalso. apply Hn. apply inherited_In. exact E.
  - intros table config -> [->|[-> [Hi ->]]]; [reflexivity|].
    apply inherited_In in Hi. rewrite Hi. reflexivity.
Qed.

Lemma split_on_head sep s : nth_error (split_on sep s) 0 = Some (split_head sep s).
Proof.
  induction s as [|c s IH]; cbn [split_on split_head]; [reflexivity|].
  destruct (Ascii.eqb c sep); [reflexivity|].
  destruct (split_on sep s) as [|h t]; [discriminate IH|].
  cbn in IH. injection IH as <-. reflexivity.
Qed.

Lemma dashed_head arg f :
  String.prefix "--" arg = true ->
  (substring_from 2 (split_head "=" arg) = f
   <-> split_head "=" arg = ("--" ++ f)%string).
Proof.
  intros Hp. apply String.prefix_correct in Hp.
  destruct arg as [|c1 [|c2 rest]]; try discriminate Hp.
  cbn [String.length substring] in Hp. injection Hp as -> ->.
  cbn. split; [intros <-; reflexivity|].
  intros E. injection E as E. exact E.
Qed.

(** X22. Only the first command-line argument that starts with "--" is looked
    at for the filter: the run is competitors-only exactly when that argument,
    up to its first "=", is "--competitors", and influencers-only exactly
    when it is "--influencers".  The two flags are never both set. *)
Theorem mainArgs_filter :
  forall argv,
    (competitorsOnly_of (MainArgs.options (mainArgs argv)) = true
     <-> exists arg, find (String.prefix "--") argv = Some arg
                     /\ split_head "=" arg = "--competitors")
    /\ (influencersOnly_of (MainArgs.options (mainArgs argv)) = true
        <-> exists arg, find (String.prefix "--") argv = Some arg
                        /\ split_head "=" arg = "--influencers")
    /\ ~ (competitorsOnly_of (MainArgs.options (mainArgs argv)) = true
          /\ influencersOnly_of (MainArgs.options (mainArgs argv)) = true).
Proof.
  intros argv. unfold mainArgs.
  cbn [MainArgs.options competitorsOnly_of influencersOnly_of
         RunOptions.competitorsOnly RunOptions.influencersOnly].
  destruct (find (String.prefix "--") argv) as [arg|] eqn:Ef.
  - rewrite split_on_head.
    pose proof (find_some _ _ Ef) as [_ Hp].
    split; [|split].
    + rewrite String.eqb_eq, (dashed_head arg "competitors" Hp).
      split; [intros H; exists arg; auto|].
      intros [a [E H]]. injection E as <-. exact H.
    + rewrite String.eqb_eq, (dashed_head arg "influencers" Hp).
      split; [intros H; exists arg; auto|].
      intros [a [E H]]. injection E as <-. exact H.
    + rewrite !String.eqb_eq. intros [H1 H2]. rewrite H1 in H2. discriminate H2.
  - split; [|split].
    + split; [discriminate|]. intros [a [E _]]. discriminate E.
    + split; [discriminate|]. intros [a [E _]]. discriminate E.
    + intros [H _]. discriminate H.
Qed.

(** X23. [main] never lets an error escape: the process ends with code 0 or 1.
    With a brand for which [getBrandConfig] throws it ends with 1 before any
    effect; with a brand for which [getBrandConfig] returns, and a file
    system that accepts the directory and the file, it ends with 0.  The
    latter is the case of a brand that has no entry in the configuration
    file but names a member of [Object.prototype], such as [toString]. *)
Theorem main_exit_code :
  forall argv w,
    (exists code, fst (main argv w) = Normal code /\ (code = 0 \/ code = 1))
    /\ (forall e, getBrandConfig (MainArgs.brand (mainArgs argv)) = Throw e ->
                  main argv w = (Normal 1, w))
    /\ (forall config,
          getBrandConfig (MainArgs.brand (mainArgs argv)) = Normal config ->
          (forall dir, fs_mkdirSync dir = None) ->
          (forall path, fs_writeFileSync path = None) ->
          fst (main argv w) = Normal 0)
    /\ (forall table,
          bird_config = Parsed table ->
          Dict.get table (MainArgs.brand (mainArgs argv)) = None ->
          In (MainArgs.brand (mainArgs argv)) Object_prototype ->
          (forall dir, fs_mkdirSync dir = None) ->
          (forall path, fs_writeFileSync path = None) ->
          fst (main argv w) = Normal 0).
Proof.
  intros argv w.
  assert (Hok : forall config,
            getBrandConfig (MainArgs.brand (mainArgs argv)) = Normal config ->
            (forall dir, fs_mkdirSync dir = None) ->
            (forall path, fs_writeFileSync path = None) ->
            fst (main argv w) = Normal 0).
  { unfold main, tryCatch, bind, constructor, bind, lift, Date_now, ret.
    intros config -> Hmk Hwr.
    match goal with
    | |- context [run ?s ?o ?w0] =>
        destruct (run_completes s o w0 Hmk Hwr) as [r [w' E]]; rewrite E
    end.
    reflexivity. }
  split; [|split; [|split]].
  - unfold main, tryCatch, bind, constructor, bind, lift, Date_now, ret.
    destruct (getBrandConfig _); [|cbn; eauto].
    destruct (run _ _ _) as [[r|e] w']; cbn; eauto.
  - unfold main, tryCatch, bind, constructor, bind, lift, Date_now, ret.
    intros e ->. reflexivity.
  - exact Hok.
  - intros table Hfile Hget Hin. apply (Hok (Config.mk None None None)).
    unfold getBrandConfig, loadConfig. rewrite Hfile. cbn [cbind]. rewrite Hget.
    apply inherited_In in Hin. rewrite Hin. reflexivity.
Qed.

(** X24. [verifyAuth] never throws and makes one attempt only: it runs
    [bird whoami] once, without retry, with the [bird] found on the path
    rather than the wrapper next to the scripts.  It reports the trimmed
    output as the user name when the process succeeds and the message of the
    failure otherwise. *)
Theorem verifyAuth_single_attempt :
  forall trim w,
    verifyAuth trim w
    = (Normal (match child_process (spawned w) "bird" ["whoami"] with
               | Stdout out => AuthStatus.mk true (Some (trim out)) None
               | Rejected error => AuthStatus.mk false None (Some (message error))
               end),
       mkWorld (S (spawned w)) (clock w) (EvExec "bird" ["whoami"] :: trace w))
    /\ (AuthStatus.authenticated
          (match fst (verifyAuth trim w) with
           | Normal status => status
           | Throw _ => AuthStatus.mk false None None
           end) = true
        <-> exists out, child_process (spawned w) "bird" ["whoami"] = Stdout out).
Proof.
  intros trim w. unfold verifyAuth, bind, execFileAsync, ret.
  destruct (child_process _ _ _) as [out|error]; cbn.
  - split; [reflexivity|]. split; [eauto|reflexivity].
  - split; [reflexivity|]. split; [discriminate|]. intros [out E]. discriminate E.
Qed.

End CommandProperties.

Lemma constructor_outcome_witness :
  @constructor demoHost "nobrand" world0
  = (Throw (newError "Brand not found in config: nobrand"), world0)
  /\ fst (@constructor demoHost "demo" world0)
     = Normal (CI.mk "demo" demoConfig "2026-01-15T09:30:00.000Z"
                 (Report.mk "demo" "2026-01-15T09:30:00.000Z" [] [] [] [] [] None))
  /\ fst (@constructor demoHost "toString" world0)
     = Normal (CI.mk "toString" (Config.mk None None None) "2026-01-15T09:30:00.000Z"
                 (Report.mk "toString" "2026-01-15T09:30:00.000Z" [] [] [] [] [] None))
  /\ @constructor (hostOf (Malformed "Unexpected end of JSON input")
                     (fun _ _ _ => Stdout demoStdout)) "demo" world0
     = (Throw (mkError "SyntaxError" "Unexpected end of JSON input"), world0)
  /\ @constructor (hostOf (Parsed [("demo", None)])
                     (fun _ _ _ => Stdout demoStdout)) "demo" world0
     = (Throw (newError "Brand not found in config: demo"), world0).
Proof.
  destruct (@constructor_outcome demoHost "nobrand" world0) as [_ [_ [_ [H _]]]].
  destruct (@constructor_outcome demoHost "demo" world0) as [_ [_ [_ [_ H']]]].
  destruct (@constructor_outcome demoHost "toString" world0) as [_ [_ [_ [_ H'']]]].
  destruct (@constructor_outcome
              (hostOf (Malformed "Unexpected end of JSON input")
                 (fun _ _ _ => Stdout demoStdout)) "demo" world0)
    as [_ [_ [Hm _]]].
  destruct (@constructor_outcome
              (hostOf (Parsed [("demo", None)]) (fun _ _ _ => Stdout demoStdout))
              "demo" world0)
    as [_ [_ [_ [Hf _]]]].
  split; [|split; [|split; [|split]]].
  - apply (H [("demo", Some demoConfig)]); [reflexivity|].
    right. split; [reflexivity|]. cbn. intuition discriminate.
  - rewrite (H' [("demo", Some demoConfig)] demoConfig); [reflexivity..|].
    left. reflexivity.
  - rewrite (H'' [("demo", Some demoConfig)] (Config.mk None None None));
      [reflexivity..|].
    right. split; [reflexivity|]. split; [|reflexivity]. cbn. tauto.
  - apply Hm. reflexivity.
  - apply (Hf [("demo", None)]); [reflexivity|]. left. reflexivity.
Defined.

Lemma mainArgs_filter_witness :
  competitorsOnly_of
    (MainArgs.options (mainArgs ["node"; "script.js"; "demo"; "--competitors"; "only"]))
  = true
  /\ competitorsOnly_of
       (MainArgs.options
          (mainArgs ["node"; "script.js"; "demo"; "--output=summary"; "--competitors"]))
     <> true.
Proof.
  split.
  - apply (mainArgs_filter ["node"; "script.js"; "demo"; "--competitors"; "only"]).
    exists "--competitors". split; reflexivity.
  - intros H.
    apply (mainArgs_filter
             ["node"; "script.js"; "demo"; "--output=summary"; "--competitors"]) in H.
    destruct H as [arg [E H]]. injection E as <-. discriminate H.
Defined.

Lemma main_exit_code_witness :
  @main demoHost ["node"; "script.js"; "nobrand"] world0 = (Normal 1, world0)
  /\ fst (@main demoHost ["node"; "script.js"; "demo"] world0) = Normal 0
  /\ fst (@main demoHost ["node"; "script.js"; "toString"] world0) = Normal 0.
Proof.
  destruct (@main_exit_code demoHost ["node"; "script.js"; "nobrand"] world0)
    as [_ [H _]].
  destruct (@main_exit_code demoHost ["node"; "script.js"; "demo"] world0)
    as [_ [_ [H' _]]].
  destruct (@main_exit_code demoHost ["node"; "script.js"; "toString"] world0)
    as [_ [_ [_ H'']]].
  split; [|split].
  - apply (H (newError "Brand not found in config: nobrand")). reflexivity.
  - apply (H' demoConfig); reflexivity.
  - apply (H'' [("demo", Some demoConfig)]); try reflexivity.
    cbn. tauto.
Defined.

(** A brand that names a member of [Object.prototype] needs no entry in the
    configuration file: the run for it looks nothing up and saves a report
    with empty sections and the posting-strategy recommendation. *)
Lemma main_inherited_brand :
  exists r,
    @main demoHost ["node"; "script.js"; "toString"] world0
    = (Normal 0,
       mkWorld 0 2
         [EvWrite
            "brands/toString/content/06-analytics/twitter-insights/competitor-intel-2026-01-15.json"
            r;
          EvMkdir "brands/toString/content/06-analytics/twitter-insights"])
    /\ Report.competitors r = [] /\ Report.influencers r = [] /\ Report.trends r = []
    /\ Report.insights r = []
    /\ Report.recommendations r
       = [PostingStrategy "daily" "high"
            "Competitors maintain daily posting for niche relevance"].
Proof. eexists. split; [vm_compute; reflexivity|]. repeat split. Qed.

Lemma verifyAuth_single_attempt_witness :
  AuthStatus.authenticated
    (match fst (@verifyAuth demoHost (fun s => s) world0) with
     | Normal status => status
     | Throw _ => AuthStatus.mk false None None
     end) = true.
Proof.
  apply (@verifyAuth_single_attempt demoHost (fun s => s) world0).
  exists demoStdout. reflexivity.
Defined.

Lemma generateInsights_lists_targets_witness :
  map (fun i => ("@" ++ Influencer.handle i)%string) (highPotentialOf starReport)
  = ["@star"]
  /\ highPotentialOf starReport <> [].
Proof.
  destruct (@generateInsights_lists_targets demoHost starReport) as [H _].
  destruct (H "1 influencer(s) with high collaboration potential" ["@star"]
              "Prioritize outreach to high-potential influencers") as [Ht [Hne _]].
  - right. left. reflexivity.
  - split; [symmetry; exact Ht|exact Hne].
Defined.

Lemma competitorPositioning_names_top_theme_witness :
  exists k n,
    hd_error (@addedInsights demoHost starReport)
    = Some (CompetitorPositioning
              ("Competitors heavily focus on " ++ dq ++ k ++ dq ++ " ("
               ++ String_of_Z n ++ " mentions)")
              "Consider differentiating with other angles like frameworks, case studies, or contrarian takes")
    /\ k = "y" /\ n = 4%Z.
Proof.
  destruct (@competitorPositioning_names_top_theme demoHost starReport)
    as [k [n [H Hk]]].
  - discriminate.
  - repeat (constructor; [split; [apply plain_spec; reflexivity|eexists; reflexivity]|]).
    constructor.
  - exists k, n. split; [exact H|].
    destruct Hk as [[Hnil _]|[k0 [Hin [Hk [Hn Hmax]]]]]; [discriminate Hnil|].
    pose proof (Hmax "y" ltac:(cbn; tauto)) as Hy.
    cbn in Hin. destruct Hin as [<-|[<-|[<-|[]]]]; subst k n.
    + vm_compute in Hy. exfalso. apply Hy. reflexivity.
    + split; reflexivity.
    + split; reflexivity.
Defined.

(** In [starReport] the theme "y" has 1 + 3 mentions against 2 for "x". *)
Lemma competitorPositioning_example :
  hd_error (@addedInsights demoHost starReport)
  = Some (CompetitorPositioning
            ("Competitors heavily focus on " ++ dq ++ "y" ++ dq ++ " (4 mentions)")
            "Consider differentiating with other angles like frameworks, case studies, or contrarian takes").
Proof. reflexivity. Qed.

(** With a theme that names a member of [Object.prototype] the sum is not a
    number: the insight prints the text of the inherited function, followed
    by the frequency, as the number of mentions. *)
Lemma competitorPositioning_inherited_theme :
  hd_error
    (@addedInsights demoHost
       (Report.mk "demo" "2026-01-15T09:30:00.000Z"
          [Competitor.mk "a" 1 [] (Engagement.mk 0 0 0)
             [Theme.mk "constructor" (Count.Num 2)]]
          [] [] [] [] None))
  = Some (CompetitorPositioning
            ("Competitors heavily focus on " ++ dq ++ "constructor" ++ dq
             ++ " (function Object() { [native code] }2 mentions)")
            "Consider differentiating with other angles like frameworks, case studies, or contrarian takes").
Proof. reflexivity. Qed.

Lemma generateRecommendations_content_opportunities_witness :
  exists opportunities rest,
    Report.recommendations (generateRecommendations starReport)
    = opportunities ++ rest
        ++ [PostingStrategy "daily" "high"
              "Competitors maintain daily posting for niche relevance"]
    /\ List.length opportunities = 2
    /\ In (ContentOpportunity "proof" "high"
             ("Missing " ++ dq ++ "proof" ++ dq ++ " angle across 2 trends"))
          opportunities.
Proof.
  destruct (generateRecommendations_content_opportunities starReport)
    as [opps [rest [Hr [Hin [_ [Hlen _]]]]]].
  exists opps, rest. split; [exact Hr|]. split; [exact Hlen|].
  apply Hin. split; [right; left; reflexivity|]. split; reflexivity.
Defined.
